(** * Verification of the AWS documentation extraction pipeline

    A shallow embedding of the step, code and error extractors of
    [src/lib/utils.ts] and of the document parser, the content cache and the
    search orchestrator that follow the type declarations in
    [src/lib/types.ts] (the module the repository's guide calls [api.ts]),
    and the theorems that settle the specification's claims about them.

    The library endpoints [searchLibraries] and [fetchLibraryDocumentation]
    and the formatters [formatSearchResult] and [formatSearchResults] are
    embedded in the module [Library], as functions of an environment that
    gives the outcome of a request; the numbers of a search result are kept
    abstract there (class [Library.JsNumber]).  [formatCloudProviderContent]
    is left out: its [toUpperCase] leaves the code units U+0000..U+00FF.

    Modelling conventions.
    - A JavaScript string is a [string]: a sequence of code units, here the
      code units U+0000..U+00FF. [String.length] is the [length] property.
    - A regular expression literal is a term of type [RegExp.regex], run by a
      backtracking matcher that follows the ECMAScript matching order
      (leftmost match, alternatives left to right, greedy and lazy
      quantifiers, capture groups, lookahead).
    - [undefined] and [null] are [None]; an object literal used as a table
      is modelled by its own properties, and where the key of a lookup comes
      from the request ([AWS_SERVICE_PATTERNS]) by the properties inherited
      from [Object.prototype] as well ([Api.object_index]).
    - Numbers are integers: [maxResults] and the clock readings are in [Z].
    - [Date.now()], [fetch] and an unexpected exception inside the parser are
      the three sources of nondeterminism; they are read from an environment
      [Api.Env], and the mutable content cache is threaded through a
      state-and-exception monad together with the log of the requests made.
      Console output is not modelled. *)

From Stdlib Require Import ZArith Ascii String List Lia Bool.
From Stdlib Require Import DecimalString.
From stdpp Require Import gmap strings.

Local Open Scope list_scope.

(* ===================================================================== *)
(** * Part I: definitions *)
(* ===================================================================== *)

(** ** JavaScript string primitives *)

Module Js.

Definition code (a : ascii) : nat := nat_of_ascii a.

Definition in_range (lo hi : ascii) (a : ascii) : bool :=
  (code lo <=? code a) && (code a <=? code hi).

(** WhiteSpace and LineTerminator code units below U+0100: TAB, LF, VT, FF,
    CR, SPACE and NO-BREAK SPACE.  This is the set stripped by [trim] and
    matched by the class escape [\s]. *)
Definition is_space (a : ascii) : bool :=
  match code a with
  | 9 | 10 | 11 | 12 | 13 | 32 | 160 => true
  | _ => false
  end.

Definition is_digit : ascii -> bool := in_range "0" "9".
Definition is_upper : ascii -> bool := in_range "A" "Z".
Definition is_lower : ascii -> bool := in_range "a" "z".

(** Case mapping of one code unit, for [toLowerCase]: A-Z and the
    Latin-1 capitals U+00C0..U+00DE (without the sign U+00D7).  On strings
    of the code units U+0000..U+00FF, the strings of this development,
    [toLowerCase] maps code unit by code unit: its context-sensitive rules
    concern letters outside this range only. *)
Definition lower_char (a : ascii) : ascii :=
  let n := code a in
  if ((65 <=? n) && (n <=? 90)) || ((192 <=? n) && (n <=? 222) && negb (n =? 215))
  then ascii_of_nat (n + 32) else a.

(** Case folding of the ASCII letters, as used by the [i] flag of a
    regular expression whose pattern characters are all ASCII. *)
Definition ascii_upper (a : ascii) : ascii :=
  if is_lower a then ascii_of_nat (code a - 32) else a.
Definition ascii_lower (a : ascii) : ascii :=
  if is_upper a then ascii_of_nat (code a + 32) else a.

Fixpoint toLowerCase (s : string) : string :=
  match s with
  | EmptyString => EmptyString
  | String a s' => String (lower_char a) (toLowerCase s')
  end.

(** [s.includes(sub)] *)
Fixpoint includes (s sub : string) : bool :=
  String.prefix sub s ||
  match s with
  | EmptyString => false
  | String _ s' => includes s' sub
  end.

Fixpoint trimStart (s : string) : string :=
  match s with
  | EmptyString => EmptyString
  | String a s' => if is_space a then trimStart s' else s
  end.

Fixpoint trimEnd (s : string) : string :=
  match s with
  | EmptyString => EmptyString
  | String a s' =>
      match trimEnd s' with
      | EmptyString => if is_space a then EmptyString else String a EmptyString
      | t => String a t
      end
  end.

Definition trim (s : string) : string := trimEnd (trimStart s).

(** [s.substring(0, n)] for a natural number [n]. *)
Definition substring0 (n : nat) (s : string) : string := String.substring 0 n s.

(** [s.replace(pat, rep)] with a string pattern: only the first
    occurrence is replaced. *)
Fixpoint replace_first (pat rep s : string) : string :=
  if String.prefix pat s
  then rep +:+ String.substring (String.length pat) (String.length s - String.length pat) s
  else match s with
       | EmptyString => EmptyString
       | String a s' => String a (replace_first pat rep s')
       end.

(** [s.split(",")] *)
Fixpoint split_comma (s : string) : list string :=
  match s with
  | EmptyString => [EmptyString]
  | String a s' =>
      if Ascii.eqb a ","
      then EmptyString :: split_comma s'
      else match split_comma s' with
           | [] => [String a EmptyString]
           | w :: ws => String a w :: ws
           end
  end.

(** Template-literal rendering of a non-negative integer. *)
Definition nat_to_string (n : nat) : string :=
  NilEmpty.string_of_uint (Nat.to_uint n).

End Js.

(** ** Regular expressions *)

Module RegExp.

Inductive regex : Type :=
| Eps
| Chr (p : ascii -> bool)
| Seq (r1 r2 : regex)
| Alt (r1 r2 : regex)
| Star (greedy : bool) (r : regex)
| Group (i : nat) (r : regex)
| Ahead (r : regex)
| Eos.

(** Capture registers: group number to captured text. *)
Definition captures : Type := nat -> option string.

Definition no_captures : captures := fun _ => None.

Definition set_capture (i : nat) (w : string) (c : captures) : captures :=
  fun j => if Nat.eqb j i then Some w else c j.

(** The text between a position [s] and a later position [s'] of the same
    input, both given as the remaining suffix. *)
Definition consumed (s s' : string) : string :=
  String.substring 0 (String.length s - String.length s') s.

Definition outcome : Type := option (string * captures).
Definition cont : Type := string -> captures -> outcome.

Section Loop.
Variable body : string -> captures -> cont -> outcome.
Variable greedy : bool.

(** RepeatMatcher with min = 0 and max = infinity: an iteration that
    consumes nothing is rejected. *)
Fixpoint star_loop (fuel : nat) (s : string) (c : captures) (k : cont)
  {struct fuel} : outcome :=
  match fuel with
  | O => k s c
  | S n =>
      if greedy then
        match body s c (fun s' c' =>
                if String.length s' <? String.length s
                then star_loop n s' c' k else None) with
        | Some res => Some res
        | None => k s c
        end
      else
        match k s c with
        | Some res => Some res
        | None =>
            body s c (fun s' c' =>
                if String.length s' <? String.length s
                then star_loop n s' c' k else None)
        end
  end.
End Loop.

(** The backtracking matcher, in continuation-passing style: [run r s c k]
    matches [r] at the front of [s] and hands the rest to [k]; when [k]
    fails the next alternative is tried. *)
Fixpoint run (r : regex) (s : string) (c : captures) (k : cont) {struct r} : outcome :=
  match r with
  | Eps => k s c
  | Chr p =>
      match s with
      | String a s' => if p a then k s' c else None
      | EmptyString => None
      end
  | Seq r1 r2 => run r1 s c (fun s' c' => run r2 s' c' k)
  | Alt r1 r2 =>
      match run r1 s c k with
      | Some res => Some res
      | None => run r2 s c k
      end
  | Star g r1 => star_loop (run r1) g (S (String.length s)) s c k
  | Group i r1 => run r1 s c (fun s' c' => k s' (set_capture i (consumed s s') c'))
  | Ahead r1 =>
      match run r1 s c (fun s' c' => Some (s', c')) with
      | Some (_, c') => k s c'
      | None => None
      end
  | Eos =>
      match s with
      | EmptyString => k s c
      | String _ _ => None
      end
  end.

(** One match: the matched text ([match[0]]), the capture registers and
    the input left after the match. *)
Record Match : Type := mkMatch {
  m0 : string;
  groups : captures;
  rest : string;
}.

Definition group (m : Match) (i : nat) : option string := groups m i.

Definition exec_here (r : regex) (s : string) : option Match :=
  match run r s no_captures (fun s' c' => Some (s', c')) with
  | Some (s', c') => Some (mkMatch (consumed s s') c' s')
  | None => None
  end.

(** Leftmost match: the skipped text and the match. *)
Fixpoint search (r : regex) (s : string) {struct s} : option (string * Match) :=
  match exec_here r s with
  | Some m => Some (EmptyString, m)
  | None =>
      match s with
      | EmptyString => None
      | String a s' =>
          match search r s' with
          | Some (pre, m) => Some (String a pre, m)
          | None => None
          end
      end
  end.

(** [s.match(re)] for a regular expression without the [g] flag. *)
Definition js_match (r : regex) (s : string) : option Match :=
  match search r s with
  | Some (_, m) => Some m
  | None => None
  end.

(** Where the scan resumes after a match: at its end, or one code unit
    further when the match is empty. *)
Definition resume (m : Match) : option string :=
  match m0 m with
  | EmptyString =>
      match rest m with
      | EmptyString => None
      | String _ s' => Some s'
      end
  | String _ _ => Some (rest m)
  end.

Fixpoint match_all_from (fuel : nat) (r : regex) (s : string) : list Match :=
  match fuel with
  | O => []
  | S n =>
      match search r s with
      | None => []
      | Some (_, m) =>
          m :: match resume m with
               | Some s' => match_all_from n r s'
               | None => []
               end
      end
  end.

(** [s.matchAll(re)] for a regular expression with the [g] flag. *)
Definition matchAll (r : regex) (s : string) : list Match :=
  match_all_from (S (String.length s)) r s.

Fixpoint replace_from (fuel : nat) (r : regex) (f : Match -> string) (s : string) : string :=
  match fuel with
  | O => s
  | S n =>
      match search r s with
      | None => s
      | Some (pre, m) =>
          pre +:+ f m +:+
          match m0 m with
          | EmptyString =>
              match rest m with
              | EmptyString => EmptyString
              | String a s' => String a (replace_from n r f s')
              end
          | String _ _ => replace_from n r f (rest m)
          end
      end
  end.

(** [s.replace(re, f)] for a regular expression with the [g] flag. *)
Definition replaceAll (r : regex) (f : Match -> string) (s : string) : string :=
  replace_from (S (String.length s)) r f s.

(** *** Pattern syntax *)

Definition any : regex := Chr (fun _ => true).
Definition chr (a : ascii) : regex := Chr (Ascii.eqb a).
Definition none_of (a : ascii) : regex := Chr (fun b => negb (Ascii.eqb a b)).

(** A character test under the [i] flag. *)
Definition fold_case (p : ascii -> bool) : ascii -> bool :=
  fun a => p a || p (Js.ascii_upper a) || p (Js.ascii_lower a).

Fixpoint lit (s : string) : regex :=
  match s with
  | EmptyString => Eps
  | String a s' => Seq (chr a) (lit s')
  end.

Fixpoint lit_i (s : string) : regex :=
  match s with
  | EmptyString => Eps
  | String a s' => Seq (Chr (fold_case (Ascii.eqb a))) (lit_i s')
  end.

Definition cat (rs : list regex) : regex := fold_right Seq Eps rs.
Fixpoint alt (rs : list regex) : regex :=
  match rs with
  | [] => Eps
  | [r] => r
  | r :: rs' => Alt r (alt rs')
  end.
(** [Chr_i p]: the class [p] under the [i] flag.  A class that holds no
    letter, or the complement of one, is the same with and without the
    flag, and is written without it. *)
Definition Chr_i (p : ascii -> bool) : regex := Chr (fold_case p).
Definition star : regex -> regex := Star true.
Definition lazy_star : regex -> regex := Star false.
Definition plus (r : regex) : regex := Seq r (Star true r).
Definition opt (r : regex) : regex := Alt r Eps.

End RegExp.

(** ** [src/lib/types.ts]: the records of the data model *)

Inductive CloudProvider : Type := AWS | AZURE | GCP.

Inductive GuideType : Type :=
| USER_GUIDE | API_REFERENCE | DEVELOPER_GUIDE | GENERAL_REFERENCE | TROUBLESHOOTING.

Inductive TroubleshootingCategory : Type :=
| ACCESS_DENIED | CONFIGURATION | PERMISSIONS | AUTHENTICATION
| API_ERRORS | NETWORK | PERFORMANCE | GENERAL.

(** The string value of an enum member. *)
Definition provider_value (p : CloudProvider) : string :=
  match p with AWS => "aws" | AZURE => "azure" | GCP => "gcp" end.

Definition category_eqb (a b : TroubleshootingCategory) : bool :=
  match a, b with
  | ACCESS_DENIED, ACCESS_DENIED | CONFIGURATION, CONFIGURATION
  | PERMISSIONS, PERMISSIONS | AUTHENTICATION, AUTHENTICATION
  | API_ERRORS, API_ERRORS | NETWORK, NETWORK
  | PERFORMANCE, PERFORMANCE | GENERAL, GENERAL => true
  | _, _ => false
  end.

Record ContentSection : Type := mkSection {
  section_id : string;
  heading : string;
  section_content : string;
  level : nat;
}.

Record TroubleshootingStep : Type := mkStep {
  step : nat;
  step_title : string;
  step_description : string;
  codeExample : option string;
  relatedErrors : option (list string);
}.

Record CodeExample : Type := mkExample {
  language : string;
  code : string;
  example_description : string;
  filename : option string;
}.

Record CloudProviderContent : Type := mkContent {
  title : string;
  service : string;
  provider : CloudProvider;
  guideType : GuideType;
  url : string;
  description : string;
  keywords : list string;
  sections : list ContentSection;
  troubleshootingSteps : list TroubleshootingStep;
  codeExamples : list CodeExample;
  breadcrumbs : list (string * string);
  relatedLinks : list string;
  lastUpdated : Z;
  category : TroubleshootingCategory;
}.

Record CloudProviderSearchRequest : Type := mkRequest {
  req_query : string;
  req_provider : CloudProvider;
  req_service : option string;
  req_category : option TroubleshootingCategory;
  req_guideType : option GuideType;
  req_maxResults : option Z;
}.

Record CloudProviderSearchResponse : Type := mkResponse {
  results : list CloudProviderContent;
  totalResults : nat;
  searchTime : Z;
  error : option string;
}.

(** ** [src/lib/utils.ts] *)

Module Utils.
Import RegExp.

(** [a || b] on strings, where [a] may be [undefined]: the empty string is
    falsy. *)
Definition or_else (a : option string) (b : string) : string :=
  match a with
  | Some (String _ _ as w) => w
  | _ => b
  end.

(** [match[i]] for a group that takes part in every match, so that it is
    never [undefined]. *)
Definition group_text (m : Match) (i : nat) : string :=
  match group m i with
  | Some w => w
  | None => EmptyString
  end.

(** The double quote, U+0022. *)
Definition quot : ascii := ascii_of_nat 34.

Definition is_word (a : ascii) : bool :=
  Js.is_upper a || Js.is_lower a || Js.is_digit a || Ascii.eqb a "_".

(** [/<[^>]*>/g] *)
Definition tag_re : regex := cat [chr "<"; star (none_of ">"); chr ">"].

(** [x.replace(/<[^>]*>/g, "").trim()] *)
Definition clean_text (fragment : string) : string :=
  Js.trim (replaceAll tag_re (fun _ => EmptyString) fragment).

(** [/<code[^>]*>(.*?)<\/code>/s] *)
Definition code_re : regex :=
  cat [lit "<code"; star (none_of ">"); chr ">"; Group 1 (lazy_star any); lit "</code>"].

(** [/<pre[^>]*>(.*?)<\/pre>/s] *)
Definition pre_re : regex :=
  cat [lit "<pre"; star (none_of ">"); chr ">"; Group 1 (lazy_star any); lit "</pre>"].

Definition extractCodeFromText (html : string) : option string :=
  match js_match code_re html with
  | Some codeMatch =>
      let code := clean_text (group_text codeMatch 1) in
      if 5 <? String.length code then Some code else None
  | None =>
      match js_match pre_re html with
      | Some preMatch =>
          let code := clean_text (group_text preMatch 1) in
          if 5 <? String.length code then Some code else None
      | None => None
      end
  end.

Definition errorPatterns : list regex := [
  (* flags gi, tokens spaced out:
     (?:error|exception|failure) [\s:]* ( [A-Z] [A-Za-z0-9_]* (?: [A-Z] [A-Za-z0-9_]* )* ) *)
  cat [alt [lit_i "error"; lit_i "exception"; lit_i "failure"];
       star (Chr_i (fun a => Js.is_space a || Ascii.eqb a ":"));
       Group 1 (cat [Chr_i Js.is_upper; star (Chr_i is_word);
                     star (cat [Chr_i Js.is_upper; star (Chr_i is_word)])])];
  (* /HTTP\s+(\d{3})\s+([A-Za-z\s]+)/gi *)
  cat [lit_i "HTTP"; plus (Chr_i Js.is_space);
       Group 1 (cat [Chr_i Js.is_digit; Chr_i Js.is_digit; Chr_i Js.is_digit]);
       plus (Chr_i Js.is_space);
       Group 2 (plus (Chr_i (fun a => Js.is_upper a || Js.is_lower a || Js.is_space a)))];
  (* /AccessDenied|Forbidden|Unauthorized|InvalidRequest|BadRequest/gi *)
  alt [lit_i "AccessDenied"; lit_i "Forbidden"; lit_i "Unauthorized";
       lit_i "InvalidRequest"; lit_i "BadRequest"];
  (* flags gi, tokens spaced out: ( [A-Z_] [A-Z0-9_]* ERROR [A-Z0-9_]* ) *)
  cat [Group 1 (cat [Chr_i (fun a => Js.is_upper a || Ascii.eqb a "_");
                     star (Chr_i (fun a => Js.is_upper a || Js.is_digit a || Ascii.eqb a "_"));
                     lit_i "ERROR";
                     star (Chr_i (fun a => Js.is_upper a || Js.is_digit a || Ascii.eqb a "_"))])]
].

(** [errors.includes(error)] *)
Definition list_includes (errors : list string) (error : string) : bool :=
  existsb (String.eqb error) errors.

(** The body of the inner loop: one match against the errors so far. *)
Definition push_error (errors : list string) (m : Match) : list string :=
  let error := or_else (group m 1) (m0 m) in
  match error with
  | EmptyString => errors
  | String _ _ =>
      if negb (list_includes errors error)
      then errors ++ [Js.trim error]
      else errors
  end.

Definition extractErrorsFromText (text : string) : list string :=
  fold_left
    (fun errors pattern => fold_left push_error (matchAll pattern text) errors)
    errorPatterns [].

(** [/<ol[^>]*>(.*?)<\/ol>/gs] *)
Definition ol_re : regex :=
  cat [lit "<ol"; star (none_of ">"); chr ">"; Group 1 (lazy_star any); lit "</ol>"].

(** [/<li[^>]*>(.*?)<\/li>/gs] *)
Definition li_re : regex :=
  cat [lit "<li"; star (none_of ">"); chr ">"; Group 1 (lazy_star any); lit "</li>"].

(** [/<h[3-6][^>]*>.*?(?:step|procedure|process|solution).*?<\/h[3-6]>(.*?)(?=<h[1-6]|$)/gis] *)
Definition procedure_re : regex :=
  cat [lit_i "<h"; Chr_i (Js.in_range "3" "6"); star (none_of ">");
       chr ">"; lazy_star any;
       alt [lit_i "step"; lit_i "procedure"; lit_i "process"; lit_i "solution"];
       lazy_star any; lit_i "</h"; Chr_i (Js.in_range "3" "6"); chr ">";
       Group 1 (lazy_star any);
       Ahead (Alt (cat [lit_i "<h"; Chr_i (Js.in_range "1" "6")]) Eos)].

(** [cleanText.length > n ? cleanText.substring(0, n) + "..." : cleanText] *)
Definition ellipsis (n : nat) (cleanText : string) : string :=
  if n <? String.length cleanText
  then Js.substring0 n cleanText +:+ "..."
  else cleanText.

(** One [<li>] match of the inner loop: the state is the [steps] array and
    the [stepNumber] counter. *)
Definition list_item_step (st : list TroubleshootingStep * nat) (itemMatch : Match)
  : list TroubleshootingStep * nat :=
  let '(steps, stepNumber) := st in
  let itemContent := group_text itemMatch 1 in
  let cleanText := clean_text itemContent in
  if 10 <? String.length cleanText
  then (steps ++ [mkStep stepNumber (ellipsis 100 cleanText) cleanText
                         (extractCodeFromText itemContent)
                         (Some (extractErrorsFromText cleanText))],
        S stepNumber)
  else (steps, stepNumber).

(** One [<ol>] match of the outer loop: [stepNumber] starts again at 1. *)
Definition list_block_steps (steps : list TroubleshootingStep) (listMatch : Match)
  : list TroubleshootingStep :=
  let listContent := group_text listMatch 1 in
  fst (fold_left list_item_step (matchAll li_re listContent) (steps, 1)).

(** The first loop of [extractTroubleshootingSteps]. *)
Definition list_pass (html : string) (steps : list TroubleshootingStep)
  : list TroubleshootingStep :=
  fold_left list_block_steps (matchAll ol_re html) steps.

Definition procedure_step (steps : list TroubleshootingStep) (procMatch : Match)
  : list TroubleshootingStep :=
  let content := group_text procMatch 1 in
  let cleanText := clean_text content in
  if 20 <? String.length cleanText
  then steps ++ [mkStep (length steps + 1) "Troubleshooting Procedure"
                        (ellipsis 500 cleanText)
                        (extractCodeFromText content)
                        (Some (extractErrorsFromText cleanText))]
  else steps.

(** The second loop of [extractTroubleshootingSteps]. *)
Definition heading_pass (html : string) (steps : list TroubleshootingStep)
  : list TroubleshootingStep :=
  fold_left procedure_step (matchAll procedure_re html) steps.

Definition extractTroubleshootingSteps (html : string) : list TroubleshootingStep :=
  heading_pass html (list_pass html []).

(** The own properties of [languageMap]. *)
Definition languageMap : gmap string string :=
  list_to_map [("js", "javascript"); ("ts", "typescript"); ("py", "python");
               ("rb", "ruby"); ("yml", "yaml"); ("md", "markdown");
               ("sh", "bash"); ("shell", "bash")].

(** [languageMap[lang?.toLowerCase()] || lang || "text"] *)
Definition mapLanguage (lang : string) : string :=
  or_else (languageMap !! Js.toLowerCase lang) (or_else (Some lang) "text").

Definition detectLanguageFromCode (code : string) : string :=
  if Js.includes code "aws " || Js.includes code "boto3" || Js.includes code "import boto"
  then "python"
  else if Js.includes code "AWS." || Js.includes code "aws-sdk"
  then "javascript"
  else if Js.includes code "#!/bin/bash" || Js.includes code "curl " || Js.includes code "aws "
  then "bash"
  else if Js.includes code "{" && Js.includes code "}" && Js.includes code (String quot EmptyString)
  then "json"
  else if Js.includes code "Version:" && Js.includes code "Statement:"
  then "json"
  else "text".

(** Flags gs, tokens spaced out, with Q standing for the double quote:
    <pre [^>]* (?: class=Q [^Q]* lang- ( [^Q]* ) [^Q]* Q )? [^>]* > ( .*? ) <\/pre> *)
Definition pre_lang_re : regex :=
  cat [lit "<pre"; star (none_of ">");
       opt (cat [lit "class="; chr quot; star (none_of quot); lit "lang-";
                 Group 1 (star (none_of quot)); star (none_of quot); chr quot]);
       star (none_of ">"); chr ">"; Group 2 (lazy_star any); lit "</pre>"].

(** The body of the first loop of [extractCodeExamples]. *)
Definition push_pre_example (examples : list CodeExample) (m : Match) : list CodeExample :=
  let language := or_else (group m 1) "text" in
  let code := clean_text (group_text m 2) in
  if 5 <? String.length code
  then examples ++ [mkExample (mapLanguage language) code
                              ("Code example in " +:+ or_else (Some language) "text") None]
  else examples.

(** The body of the second loop of [extractCodeExamples]; the test is
    [code.length > 20 && !code.includes(' ') === false]. *)
Definition push_code_example (examples : list CodeExample) (m : Match) : list CodeExample :=
  let code := clean_text (group_text m 1) in
  if (20 <? String.length code) && Bool.eqb (negb (Js.includes code " ")) false
  then examples ++ [mkExample (detectLanguageFromCode code) code "Inline code snippet" None]
  else examples.

Definition extractCodeExamples (html : string) : list CodeExample :=
  let examples := fold_left push_pre_example (matchAll pre_lang_re html) [] in
  fold_left push_code_example (matchAll code_re html) examples.

Definition cleanHtmlContent (html : string) : string :=
  let s1 := replaceAll (cat [lit_i "<script"; star (none_of ">");
                             chr ">"; lazy_star any; lit_i "</script>"])
                       (fun _ => EmptyString) html in
  let s2 := replaceAll (cat [lit_i "<style"; star (none_of ">");
                             chr ">"; lazy_star any; lit_i "</style>"])
                       (fun _ => EmptyString) s1 in
  let s3 := replaceAll tag_re (fun _ => " ") s2 in
  let s4 := replaceAll (plus (Chr Js.is_space)) (fun _ => " ") s3 in
  let s5 := replaceAll (cat [chr "010"; star (Chr Js.is_space); chr "010"])
                       (fun _ => String "010" EmptyString) s4 in
  Js.trim s5.
End Utils.

(** ** [src/lib/api.ts] *)

Module Api.
Import RegExp.

Definition AWS_DOCS_BASE_URL : string := "https://docs.aws.amazon.com".

(** The own properties of [AWS_SERVICE_PATTERNS], in insertion order (the
    order of [Object.keys]). *)
Definition AWS_SERVICE_PATTERNS : list (string * string) := [
  ("iam", "/IAM/latest/UserGuide/");
  ("s3", "/AmazonS3/latest/userguide/");
  ("lambda", "/lambda/latest/dg/");
  ("apigateway", "/apigateway/latest/developerguide/");
  ("cloudwatch", "/AmazonCloudWatch/latest/");
  ("ec2", "/AWSEC2/latest/UserGuide/");
  ("rds", "/AmazonRDS/latest/UserGuide/");
  ("dynamodb", "/amazondynamodb/latest/developerguide/")
].

Definition object_keys (o : list (string * string)) : list string := map fst o.

(** The own property [key] of [o]. *)
Fixpoint object_get (o : list (string * string)) (key : string) : option string :=
  match o with
  | [] => None
  | (k, v) :: o' => if String.eqb k key then Some v else object_get o' key
  end.

(** The properties that every object literal inherits from
    [Object.prototype], each with the text that a template literal makes of
    its value: a native function as V8 prints it, and [Object.prototype]
    itself for [__proto__].  Every one of these values is truthy. *)
Definition Object_prototype : list (string * string) := [
  ("constructor", "function Object() { [native code] }");
  ("__defineGetter__", "function __defineGetter__() { [native code] }");
  ("__defineSetter__", "function __defineSetter__() { [native code] }");
  ("hasOwnProperty", "function hasOwnProperty() { [native code] }");
  ("__lookupGetter__", "function __lookupGetter__() { [native code] }");
  ("__lookupSetter__", "function __lookupSetter__() { [native code] }");
  ("isPrototypeOf", "function isPrototypeOf() { [native code] }");
  ("propertyIsEnumerable", "function propertyIsEnumerable() { [native code] }");
  ("toString", "function toString() { [native code] }");
  ("valueOf", "function valueOf() { [native code] }");
  ("__proto__", "[object Object]");
  ("toLocaleString", "function toLocaleString() { [native code] }")
].

(** [o[key]] for an object literal [o] whose own values are non-empty
    strings and a key computed at run time, as far as [searchAwsDocs] and
    [getTroubleshootingUrls] look at the result: [None] is [undefined]; any
    other value, own or inherited, is truthy, and [Some] gives the text that
    the template literal of [getTroubleshootingUrls] makes of it. *)
Definition object_index (o : list (string * string)) (key : string) : option string :=
  match object_get o key with
  | Some v => Some v
  | None => object_get Object_prototype key
  end.

(** 12 hours, in milliseconds. *)
Definition CACHE_TTL : Z := 12 * 60 * 60 * 1000.

Record CacheEntry : Type := mkEntry {
  content : CloudProviderContent;
  timestamp : Z;
}.

(** *** The environment and the mutable state *)

(** What [fetch(url)] resolves to: a rejected promise, or a response with
    its status and its body ([None] when [response.text()] rejects). *)
Inductive FetchOutcome : Type :=
| NetworkError
| Response (status : Z) (body : option string).

Record Env : Type := mkEnv {
  (** the value of the n-th reading of the clock *)
  clock : nat -> Z;
  (** the outcome of a request, given the requests made before it *)
  network : list string -> string -> FetchOutcome;
  (** whether an unexpected exception is raised inside the [try] block of
      [parseAwsDocumentationHtml] on this page *)
  parser_fault : string -> string -> bool;
}.

Record World : Type := mkWorld {
  contentCache : gmap string CacheEntry;
  ticks : nat;
  requests : list string;
}.

Inductive result (A : Type) : Type :=
| Returned (a : A)
| Thrown (e : string).
Arguments Returned {A} a.
Arguments Thrown {A} e.

Definition M (A : Type) : Type := World -> result A * World.

Definition ret {A} (a : A) : M A := fun w => (Returned a, w).

Definition bind {A B} (m : M A) (f : A -> M B) : M B :=
  fun w =>
    match m w with
    | (Returned a, w') => f a w'
    | (Thrown e, w') => (Thrown e, w')
    end.

Definition throw {A} (e : string) : M A := fun w => (Thrown e, w).

(** [try { body } catch (error) { handler }] *)
Definition try_catch {A} (body : M A) (handler : string -> M A) : M A :=
  fun w =>
    match body w with
    | (Returned a, w') => (Returned a, w')
    | (Thrown e, w') => handler e w'
    end.

Notation "'let*' x ':=' m 'in' k" := (bind m (fun x => k))
  (at level 10, x name, m at level 100, k at level 200).

(** [Date.now()] *)
Definition Date_now (E : Env) : M Z :=
  fun w => (Returned (clock E (ticks w)),
            mkWorld (contentCache w) (S (ticks w)) (requests w)).

(** [contentCache.get(url)] *)
Definition cache_get (url : string) : M (option CacheEntry) :=
  fun w => (Returned (contentCache w !! url), w).

(** [contentCache.set(url, entry)] *)
Definition cache_set (url : string) (entry : CacheEntry) : M unit :=
  fun w => (Returned tt, mkWorld (<[url := entry]> (contentCache w)) (ticks w) (requests w)).

(** [await fetch(url, ...)]: the request is recorded; a network failure
    rejects. *)
Definition fetch (E : Env) (url : string) : M (Z * option string) :=
  fun w =>
    let w' := mkWorld (contentCache w) (ticks w) (requests w ++ [url]) in
    match network E (requests w) url with
    | NetworkError => (Thrown "TypeError: fetch failed", w')
    | Response status body => (Returned (status, body), w')
    end.

(** [response.ok] *)
Definition response_ok (status : Z) : bool := ((200 <=? status) && (status <=? 299))%Z.

(** [await response.text()] *)
Definition response_text (body : option string) : M string :=
  match body with
  | Some html => ret html
  | None => throw "TypeError: body stream failed"
  end.

(** *** The document parser *)

(** The category chain of [parseAwsDocumentationHtml]. *)
Definition classify (url title : string) : TroubleshootingCategory :=
  let urlLower := Js.toLowerCase url in
  let titleLower := Js.toLowerCase title in
  if Js.includes urlLower "access-denied" || Js.includes titleLower "access denied"
  then ACCESS_DENIED
  else if Js.includes urlLower "permission" || Js.includes titleLower "permission"
  then PERMISSIONS
  else if Js.includes urlLower "auth" || Js.includes titleLower "auth"
  then AUTHENTICATION
  else if Js.includes urlLower "config" || Js.includes titleLower "config"
  then CONFIGURATION
  else GENERAL.

(** [/<title>([^<]+)<\/title>/i] *)
Definition title_re : regex :=
  cat [lit_i "<title>"; Group 1 (plus (none_of "<"));
       lit_i "</title>"].

(** The two meta patterns, flag i:
    <meta name=QdescriptionQ content=Q([^Q]+)Q with Q the double quote. *)
Definition meta_re (name : string) : regex :=
  cat [lit_i "<meta name="; chr Utils.quot; lit_i name; chr Utils.quot;
       lit_i " content="; chr Utils.quot;
       Group 1 (plus (none_of Utils.quot));
       chr Utils.quot].

(** [/docs\.aws\.amazon\.com\/([^\/]+)/] *)
Definition service_re : regex :=
  cat [lit "docs.aws.amazon.com/"; Group 1 (plus (none_of "/"))].

(** The own properties of [serviceMapping].  The parser is only given
    candidate pages, and the key it looks up for one of them is never the
    name of an inherited property. *)
Definition serviceMapping : list (string * string) := [
  ("IAM", "iam"); ("AmazonS3", "s3"); ("lambda", "lambda");
  ("apigateway", "api-gateway"); ("AmazonCloudWatch", "cloudwatch")
].

(** Flag s: <div[^>]*id=Qmain-contentQ[^>]*>(.*?)<\/div> *)
Definition main_content_re : regex :=
  cat [lit "<div"; star (none_of ">"); lit "id="; chr Utils.quot; lit "main-content";
       chr Utils.quot; star (none_of ">"); chr ">"; Group 1 (lazy_star any); lit "</div>"].

(** [/<h([1-6])[^>]*[^>]*>([^<]+)<\/h[1-6]>/g] *)
Definition heading_re : regex :=
  cat [lit "<h"; Group 1 (Chr (Js.in_range "1" "6")); star (none_of ">"); star (none_of ">");
       chr ">"; Group 2 (plus (none_of "<")); lit "</h"; Chr (Js.in_range "1" "6"); chr ">"].

(** [parseInt] of a string of decimal digits. *)
Definition parseInt (s : string) : nat :=
  match NilEmpty.uint_of_string s with
  | Some d => Nat.of_uint d
  | None => 0
  end.

(** The pattern built by [new RegExp(..., 's')] for one heading.  Every
    syntax character of [heading] is escaped before it is spliced in, so
    the heading is matched literally. *)
Definition sectionContentRegex (level : nat) (heading : string) : regex :=
  let n := Js.nat_to_string level in
  let last := match n with String a _ => a | EmptyString => "1"%char end in
  cat [lit "<h"; lit n; star (none_of ">"); chr ">"; lit heading; lit "</h"; lit n; chr ">";
       Group 1 (lazy_star any);
       Ahead (Alt (cat [lit "<h"; Chr (Js.in_range "1" last)]) Eos)].

(** The body of the heading loop: the state is [sections] and
    [sectionIndex]. *)
Definition push_section (mainContent : string) (st : list ContentSection * nat) (m : Match)
  : list ContentSection * nat :=
  let '(sections, sectionIndex) := st in
  let level := parseInt (Utils.group_text m 1) in
  let heading := Js.trim (Utils.group_text m 2) in
  let sectionContent :=
    match js_match (sectionContentRegex level heading) mainContent with
    | Some sm => Utils.cleanHtmlContent (Utils.group_text sm 1)
    | None => EmptyString
    end in
  (sections ++ [mkSection ("section-" +:+ Js.nat_to_string sectionIndex)
                          heading sectionContent level],
   S sectionIndex).

(** The [try] block of [parseAwsDocumentationHtml]; [now] is the clock
    reading of [new Date()]. *)
Definition parse_page (html url : string) (now : Z) : CloudProviderContent :=
  let title :=
    match js_match title_re html with
    | Some titleMatch =>
        Js.trim (Js.replace_first " - Amazon Web Services" "" (Utils.group_text titleMatch 1))
    | None => "AWS Documentation"
    end in
  let description :=
    match js_match (meta_re "description") html with
    | Some descriptionMatch => Utils.group_text descriptionMatch 1
    | None => EmptyString
    end in
  let keywords :=
    match js_match (meta_re "keywords") html with
    | Some keywordsMatch => map Js.trim (Js.split_comma (Utils.group_text keywordsMatch 1))
    | None => []
    end in
  let service0 :=
    match js_match service_re url with
    | Some serviceMatch => Utils.group_text serviceMatch 1
    | None => "aws"
    end in
  let service := Utils.or_else (object_get serviceMapping service0) (Js.toLowerCase service0) in
  let category := classify url title in
  let mainContent :=
    match js_match main_content_re html with
    | Some contentMatch => Utils.group_text contentMatch 1
    | None => html
    end in
  let sections :=
    fst (fold_left (push_section mainContent) (matchAll heading_re mainContent) ([], 0)) in
  let troubleshootingSteps := Utils.extractTroubleshootingSteps mainContent in
  let codeExamples := Utils.extractCodeExamples mainContent in
  mkContent title service AWS USER_GUIDE url description keywords
            sections troubleshootingSteps codeExamples [] [] now category.

Definition parseAwsDocumentationHtml (E : Env) (html url : string)
  : M (option CloudProviderContent) :=
  if parser_fault E html url
  then ret None
  else let* now := Date_now E in ret (Some (parse_page html url now)).

(** *** The cache-fronted fetcher *)

(** The [try ... catch] statement of [fetchAwsDocContent]: the request, the
    parse and the write to the cache; any exception yields [null]. *)
Definition fetch_and_store (E : Env) (url : string) : M (option CloudProviderContent) :=
  try_catch
    (let* response := fetch E url in
     let '(status, body) := response in
     if negb (response_ok status)
     then if (status =? 404)%Z
          then ret None
          else throw "Error: HTTP status"
     else
       let* html := response_text body in
       let* parsed := parseAwsDocumentationHtml E html url in
       match parsed with
       | Some c =>
           let* now := Date_now E in
           let* _ := cache_set url (mkEntry c now) in
           ret (Some c)
       | None => ret None
       end)
    (fun _ => ret None).

Definition fetchAwsDocContent (E : Env) (url : string) : M (option CloudProviderContent) :=
  let* cached := cache_get url in
  let* hit :=
    match cached with
    | Some entry =>
        let* now := Date_now E in
        ret (if (now - timestamp entry <? CACHE_TTL)%Z then Some (content entry) else None)
    | None => ret None
    end in
  match hit with
  | Some c => ret (Some c)
  | None => fetch_and_store E url
  end.

(** *** The query matcher *)

Definition contentMatchesQuery (c : CloudProviderContent) (query : string)
  (categoryFilter : option TroubleshootingCategory) : bool :=
  let queryLower := Js.toLowerCase query in
  if match categoryFilter with
     | Some wanted => negb (category_eqb (category c) wanted)
     | None => false
     end
  then false
  else
    let titleMatch := Js.includes (Js.toLowerCase (title c)) queryLower in
    let descriptionMatch := Js.includes (Js.toLowerCase (description c)) queryLower in
    let keywordMatch :=
      existsb (fun keyword => Js.includes (Js.toLowerCase keyword) queryLower) (keywords c) in
    titleMatch || descriptionMatch || keywordMatch.

(** *** The search orchestrator *)

Definition troubleshootingPatterns : list string := [
  "troubleshoot.html";
  "troubleshoot-access-denied.html";
  "troubleshoot-policies.html";
  "troubleshoot-roles.html";
  "security_iam_troubleshoot.html";
  "troubleshoot-403-errors.html";
  "troubleshoot-permissions.html"
].

Definition getTroubleshootingUrls (service servicePattern : string) : list string :=
  let baseUrl := AWS_DOCS_BASE_URL +:+ servicePattern in
  fold_left (fun urls pattern => urls ++ [baseUrl +:+ pattern]) troubleshootingPatterns [].

(** The page loop of [searchServiceDocs]. *)
Fixpoint search_pages (E : Env) (pages : list string) (query : string)
  (categoryFilter : option TroubleshootingCategory) (results : list CloudProviderContent)
  : M (list CloudProviderContent) :=
  match pages with
  | [] => ret results
  | pageUrl :: pages' =>
      let* results' :=
        try_catch
          (let* fetched := fetchAwsDocContent E pageUrl in
           match fetched with
           | Some c =>
               if contentMatchesQuery c query categoryFilter
               then ret (results ++ [c])
               else ret results
           | None => ret results
           end)
          (fun _ => ret results) in
      search_pages E pages' query categoryFilter results'
  end.

Definition searchServiceDocs (E : Env) (service servicePattern query : string)
  (categoryFilter : option TroubleshootingCategory) : M (list CloudProviderContent) :=
  let troubleshootingPages := getTroubleshootingUrls service servicePattern in
  search_pages E troubleshootingPages query categoryFilter [].

(** [xs.slice(0, n)] for an integer [n]: a negative end counts from the
    end of the array. *)
Definition slice0 {A} (xs : list A) (n : Z) : list A :=
  if (n <? 0)%Z
  then firstn (Z.to_nat (Z.max (Z.of_nat (length xs) + n) 0)) xs
  else firstn (Z.to_nat n) xs.

(** [searchRequest.maxResults || 10]: zero is falsy. *)
Definition effective_maxResults (maxResults : option Z) : Z :=
  match maxResults with
  | Some 0%Z | None => 10%Z
  | Some n => n
  end.

(** The service loop of [searchAwsDocs], with its [break] and
    [continue]. *)
Fixpoint search_services (E : Env) (services : list string) (query : string)
  (categoryFilter : option TroubleshootingCategory) (maxResults : Z)
  (results : list CloudProviderContent) : M (list CloudProviderContent) :=
  match services with
  | [] => ret results
  | service :: services' =>
      if (Z.of_nat (length results) >=? maxResults)%Z
      then ret results
      else
        match object_index AWS_SERVICE_PATTERNS service with
        | None => search_services E services' query categoryFilter maxResults results
        | Some servicePattern =>
            let* results' :=
              try_catch
                (let* serviceDocs := searchServiceDocs E service servicePattern query categoryFilter in
                 ret (results ++ slice0 serviceDocs (maxResults - Z.of_nat (length results))))
                (fun _ => ret results) in
            search_services E services' query categoryFilter maxResults results'
        end
  end.

(** [searchRequest.service ? [searchRequest.service.toLowerCase()]
    : Object.keys(AWS_SERVICE_PATTERNS)]: the empty string is falsy. *)
Definition servicesToSearch (requested : option string) : list string :=
  match requested with
  | Some (String _ _ as name) => [Js.toLowerCase name]
  | _ => object_keys AWS_SERVICE_PATTERNS
  end.

Definition searchAwsDocs (E : Env) (searchRequest : CloudProviderSearchRequest) (startTime : Z)
  : M CloudProviderSearchResponse :=
  let maxResults := effective_maxResults (req_maxResults searchRequest) in
  let* results :=
    search_services E (servicesToSearch (req_service searchRequest))
      (req_query searchRequest) (req_category searchRequest) maxResults [] in
  let* now := Date_now E in
  ret (mkResponse results (length results) (now - startTime) None).

Definition searchCloudProviderDocs (E : Env) (searchRequest : CloudProviderSearchRequest)
  : M CloudProviderSearchResponse :=
  let* startTime := Date_now E in
  try_catch
    (match req_provider searchRequest with
     | AWS => searchAwsDocs E searchRequest startTime
     | other =>
         let* now := Date_now E in
         ret (mkResponse [] 0 (now - startTime)
                (Some ("Provider " +:+ provider_value other +:+ " not yet supported")))
     end)
    (fun e =>
       let* now := Date_now E in
       ret (mkResponse [] 0 (now - startTime)
              (Some ("Error searching cloud provider documentation: " +:+ e)))).
End Api.

(** ** Vocabulary of the statements *)

Module Spec.
Import RegExp.

(** Every code unit of [s] passes the test [P]. *)
Fixpoint string_forall (P : ascii -> bool) (s : string) : bool :=
  match s with
  | EmptyString => true
  | String a s' => P a && string_forall P s'
  end.

(** Every character test of [r] outside a lookahead implies [P]: the text
    consumed by [r] is made of code units that pass [P]. *)
Fixpoint accepts_only (P : ascii -> bool) (r : regex) : Prop :=
  match r with
  | Eps | Eos | Ahead _ => True
  | Chr p => forall a, p a = true -> P a = true
  | Seq r1 r2 | Alt r1 r2 => accepts_only P r1 /\ accepts_only P r2
  | Star _ r1 | Group _ r1 => accepts_only P r1
  end.

(** The capture registers written by [r]. *)
Fixpoint groups_of (r : regex) : list nat :=
  match r with
  | Eps | Eos | Chr _ => []
  | Seq r1 r2 | Alt r1 r2 => groups_of r1 ++ groups_of r2
  | Star _ r1 | Ahead r1 => groups_of r1
  | Group i r1 => i :: groups_of r1
  end.

(** [nullable r = false]: no match of [r] is empty. *)
Fixpoint nullable (r : regex) : bool :=
  match r with
  | Eps | Eos | Ahead _ | Star _ _ => true
  | Chr _ => false
  | Seq r1 r2 => nullable r1 && nullable r2
  | Alt r1 r2 => nullable r1 || nullable r2
  | Group _ r1 => nullable r1
  end.

(** A successful run from [s] and [c] into the continuation [k]: the
    continuation was entered after the text [w] was consumed, all of it
    passing [P], with the capture registers outside [gs] untouched. *)
Definition hands_over (P : ascii -> bool) (may_be_empty : bool) (gs : list nat)
  (s : string) (c : captures) (k : cont) (res : string * captures) : Prop :=
  exists w s' c',
    s = w +:+ s' /\
    string_forall P w = true /\
    (may_be_empty = false -> w <> EmptyString) /\
    (forall i, ~ In i gs -> c' i = c i) /\
    k s' c' = Some res.

(** A list without its repetitions: each string stays where it is seen
    first. *)
Fixpoint first_seen (l : list string) : list string :=
  match l with
  | [] => []
  | x :: l' => x :: List.filter (fun y => negb (String.eqb x y)) (first_seen l')
  end.

(** [acc] with [e] appended unless it is there already. *)
Definition add_unseen (acc : list string) (e : string) : list string :=
  if Utils.list_includes acc e then acc else acc ++ [e].

(** No white space anywhere in [s]. *)
Definition no_space (s : string) : bool :=
  string_forall (fun a => negb (Js.is_space a)) s.

(** What one match contributes to [extractErrorsFromText]:
    [match[1] || match[0]]. *)
Definition error_candidate (m : Match) : string :=
  Utils.or_else (group m 1) (m0 m).

(** The contributions of the four pattern families, family by family and
    in match order within a family. *)
Definition error_candidates (text : string) : list string :=
  flat_map (fun pattern => map error_candidate (matchAll pattern text)) Utils.errorPatterns.

(** The text captured by the first group of every match of [r] in [s]. *)
Definition captured_by (r : regex) (s : string) : list string :=
  map (fun m => Utils.group_text m 1) (matchAll r s).

(** The contents of the ordered-list blocks of a page, and the contents of
    the items of one block, in document order. *)
Definition ordered_lists (html : string) : list string := captured_by Utils.ol_re html.
Definition list_items (listContent : string) : list string :=
  captured_by Utils.li_re listContent.

(** An item is kept when its tag-stripped trimmed text is longer than 10
    characters. *)
Definition item_kept (itemContent : string) : bool :=
  10 <? String.length (Utils.clean_text itemContent).

(** The step made from a list item, with a given number. *)
Definition item_step (n : nat) (itemContent : string) : TroubleshootingStep :=
  let cleanText := Utils.clean_text itemContent in
  mkStep n (Utils.ellipsis 100 cleanText) cleanText
         (Utils.extractCodeFromText itemContent)
         (Some (Utils.extractErrorsFromText cleanText)).

Fixpoint number_from (n : nat) (items : list string) : list TroubleshootingStep :=
  match items with
  | [] => []
  | item :: items' => item_step n item :: number_from (S n) items'
  end.

(** The steps of one ordered list: its kept items, numbered from 1. *)
Definition block_steps (listContent : string) : list TroubleshootingStep :=
  number_from 1 (List.filter item_kept (list_items listContent)).

(** The tag-stripped trimmed text of the first [<code>] element and of the
    first [<pre>] block of a fragment. *)
Definition first_code (html : string) : option string :=
  option_map (fun m => Utils.clean_text (Utils.group_text m 1)) (js_match Utils.code_re html).
Definition first_pre (html : string) : option string :=
  option_map (fun m => Utils.clean_text (Utils.group_text m 1)) (js_match Utils.pre_re html).

(** [code] if it is longer than 5 characters. *)
Definition longer_than_5 (code : string) : option string :=
  if 5 <? String.length code then Some code else None.

(** The tag-stripped trimmed texts of the [<code>] elements of a page. *)
Definition code_elements (html : string) : list string :=
  map Utils.clean_text (captured_by Utils.code_re html).

(** The example made from one inline snippet. *)
Definition inline_example (code : string) : CodeExample :=
  mkExample (Utils.detectLanguageFromCode code) code "Inline code snippet" None.

(** The examples made from the [<pre>] blocks. *)
Definition pre_examples (html : string) : list CodeExample :=
  fold_left Utils.push_pre_example (matchAll Utils.pre_lang_re html) [].

(** The four rules of the category classification: a substring of the
    lower-cased URL or of the lower-cased title. *)
Definition access_denied_rule (url title : string) : bool :=
  Js.includes (Js.toLowerCase url) "access-denied" ||
  Js.includes (Js.toLowerCase title) "access denied".
Definition permissions_rule (url title : string) : bool :=
  Js.includes (Js.toLowerCase url) "permission" ||
  Js.includes (Js.toLowerCase title) "permission".
Definition authentication_rule (url title : string) : bool :=
  Js.includes (Js.toLowerCase url) "auth" || Js.includes (Js.toLowerCase title) "auth".
Definition configuration_rule (url title : string) : bool :=
  Js.includes (Js.toLowerCase url) "config" || Js.includes (Js.toLowerCase title) "config".

(** The rules in their priority order, each with its category. *)
Definition category_rules : list ((string -> string -> bool) * TroubleshootingCategory) :=
  [(access_denied_rule, ACCESS_DENIED); (permissions_rule, PERMISSIONS);
   (authentication_rule, AUTHENTICATION); (configuration_rule, CONFIGURATION)].

(** First match wins; [GENERAL] when no rule matches. *)
Fixpoint first_match (rules : list ((string -> string -> bool) * TroubleshootingCategory))
  (url title : string) : TroubleshootingCategory :=
  match rules with
  | [] => GENERAL
  | (rule, cat) :: rules' => if rule url title then cat else first_match rules' url title
  end.

(** The world after one reading of the clock, and after one request. *)
Definition tick (w : Api.World) : Api.World :=
  Api.mkWorld (Api.contentCache w) (S (Api.ticks w)) (Api.requests w).
Definition requested (url : string) (w : Api.World) : Api.World :=
  Api.mkWorld (Api.contentCache w) (Api.ticks w) (Api.requests w ++ [url]).

(** The world in which the fetcher decides whether to go to the network:
    the age of an entry is computed from a reading of the clock. *)
Definition checked (url : string) (w : Api.World) : Api.World :=
  match Api.contentCache w !! url with
  | Some _ => tick w
  | None => w
  end.

(** The record served from the cache: the entry of [url], when it exists
    and its age is below the TTL. *)
Definition fresh_entry (E : Api.Env) (url : string) (w : Api.World)
  : option CloudProviderContent :=
  match Api.contentCache w !! url with
  | Some entry =>
      if (Api.clock E (Api.ticks w) - Api.timestamp entry <? Api.CACHE_TTL)%Z
      then Some (Api.content entry) else None
  | None => None
  end.

(** The record a request brings back: the response is ok, its body can be
    read and the parser does not fail on it. *)
Definition fetched_page (E : Api.Env) (url : string) (w : Api.World)
  : option CloudProviderContent :=
  match Api.network E (Api.requests w) url with
  | Api.Response status (Some html) =>
      if Api.response_ok status && negb (Api.parser_fault E html url)
      then Some (Api.parse_page html url (Api.clock E (Api.ticks w)))
      else None
  | _ => None
  end.

(** The world after a request that brought back the record [c]: two more
    readings of the clock (by the parser and for the timestamp) and the
    entry of [url] overwritten. *)
Definition stored (E : Api.Env) (url : string) (c : CloudProviderContent) (w : Api.World)
  : Api.World :=
  Api.mkWorld (<[url := Api.mkEntry c (Api.clock E (S (Api.ticks w)))]> (Api.contentCache w))
              (S (S (Api.ticks w))) (Api.requests w ++ [url]).

(** The eight services of [AWS_SERVICE_PATTERNS]. *)
Definition known_services : list string :=
  ["iam"; "s3"; "lambda"; "apigateway"; "cloudwatch"; "ec2"; "rds"; "dynamodb"].
End Spec.

(** ** Sample pages and environments *)

Module Sample.
Import Api.

Definition iam_url : string :=
  "https://docs.aws.amazon.com/IAM/latest/UserGuide/troubleshoot.html".

Definition iam_page : string :=
  "<html><head><title>Troubleshooting IAM - Amazon Web Services</title></head><body><h1>Troubleshooting IAM</h1><ol><li>Check the policy attached to the role</li><li>Retry</li></ol></body></html>".

(** The clock advances by one second per reading. *)
Definition sample_clock (n : nat) : Z := (1000 * Z.of_nat n)%Z.

(** A network that serves [iam_page] at [iam_url] and answers 404
    elsewhere. *)
Definition one_page : Env :=
  mkEnv sample_clock
        (fun _ url => if String.eqb url iam_url then Response 200 (Some iam_page)
                      else Response 404 None)
        (fun _ _ => false).

(** A network that answers every request with the given outcome. *)
Definition always (outcome : FetchOutcome) : Env :=
  mkEnv sample_clock (fun _ _ => outcome) (fun _ _ => false).

(** A network that serves [iam_page] to a parser that fails on it. *)
Definition failing_parser : Env :=
  mkEnv sample_clock (fun _ _ => Response 200 (Some iam_page)) (fun _ _ => true).

Definition empty_world : World := mkWorld ∅ 0 [].

(** The record parsed from [iam_page] at time 0. *)
Definition iam_record : CloudProviderContent := parse_page iam_page iam_url 0.

(** A world whose cache holds [iam_record], stored at time 0. *)
(** The response of a search that returned. *)
Definition returned (run : result CloudProviderSearchResponse * World)
  : CloudProviderSearchResponse :=
  match fst run with
  | Returned response => response
  | Thrown _ => mkResponse [] 0 0 None
  end.

Definition cached_world : World :=
  mkWorld (<[iam_url := mkEntry iam_record 0]> ∅) 0 [].

(** The network of [one_page] under a clock that advances by the TTL per
    reading. *)
Definition slow_clock : Env :=
  mkEnv (fun n => (Z.of_nat n * CACHE_TTL)%Z) (network one_page) (fun _ _ => false).

(** The world after the sample page has been fetched into the empty cache
    and stored with the timestamp [t]. *)
Definition stored_world (t : Z) : World :=
  mkWorld (<[iam_url := mkEntry iam_record t]> ∅) 2 [iam_url].

(** The network of [one_page] under a clock that starts when the TTL has
    just elapsed. *)
Definition one_page_later : Env :=
  mkEnv (fun n => (CACHE_TTL + sample_clock n)%Z) (network one_page) (fun _ _ => false).
End Sample.

(** ** Vocabulary of the statements about a whole search *)

Module Inv.
Import Api.

(** Every record in the cache is the parse of some page under its own key. *)
Definition parsed_cache (w : World) : Prop :=
  forall u entry, contentCache w !! u = Some entry ->
                  exists html t, content entry = parse_page html u t.

(** The candidate pages of a list of services, in the order in which the
    search visits them; a name for which [AWS_SERVICE_PATTERNS] has no
    property, own or inherited, has none. *)
Definition candidate_urls (services : list string) : list string :=
  flat_map (fun service =>
              match object_index AWS_SERVICE_PATTERNS service with
              | Some servicePattern => getTroubleshootingUrls service servicePattern
              | None => []
              end) services.

(** What a run that only visits the pages [urls] may do to the world: it
    makes requests for some of them, each at most once and in their order;
    it touches no cache entry but theirs; it removes no entry; and it keeps
    the cache made of parses. *)
Definition effects (urls : list string) (w w' : World) : Prop :=
  (exists extra, requests w' = requests w ++ extra /\ extra `sublist_of` urls) /\
  (forall u, ~ In u urls -> contentCache w' !! u = contentCache w !! u) /\
  (forall u, contentCache w !! u <> None -> contentCache w' !! u <> None) /\
  (parsed_cache w -> parsed_cache w').

(** A record found by a search for [query] under a category filter among the
    pages [urls]: it matches, and, when the cache the search started from is
    made of parses, it is the parse of one of the pages. *)
Definition found_in (urls : list string) (query : string)
  (categoryFilter : option TroubleshootingCategory) (w : World)
  (c : CloudProviderContent) : Prop :=
  contentMatchesQuery c query categoryFilter = true /\
  (parsed_cache w -> exists page html t, In page urls /\ c = parse_page html page t).

(** The pages a request makes the search visit: none for a provider other
    than aws. *)
Definition searched_urls (searchRequest : CloudProviderSearchRequest) : list string :=
  match req_provider searchRequest with
  | AWS => candidate_urls (servicesToSearch (req_service searchRequest))
  | _ => []
  end.
(** The key that [parseAwsDocumentationHtml] looks up in [serviceMapping]
    for a page: the first path segment of its address, or [aws]. *)
Definition service_key (page : string) : string :=
  match RegExp.js_match service_re page with
  | Some serviceMatch => Utils.group_text serviceMatch 1
  | None => "aws"
  end.

(** Between [w] and [w'] the clock was read at most [n] times. *)
Definition reads (n : nat) (w w' : World) : Prop :=
  ticks w <= ticks w' <= ticks w + n.
End Inv.

(** ** Vocabulary of the statements about shapes *)

Module Shape.
Import RegExp.

(** The test that the first code unit of every match of [r] passes, when
    the pattern begins with a character test. *)
Fixpoint first_test (r : regex) : option (ascii -> bool) :=
  match r with
  | Chr p => Some p
  | Seq r1 _ => first_test r1
  | Group _ r1 => first_test r1
  | _ => None
  end.

(** The bounds kept by every troubleshooting step. *)
Definition step_ok (st : TroubleshootingStep) : Prop :=
  1 <= step st /\
  1 <= String.length (step_title st) <= 103 /\
  10 < String.length (step_description st) /\
  (exists errors, relatedErrors st = Some errors /\ List.NoDup errors) /\
  (forall code, codeExample st = Some code -> 5 < String.length code).

(** The text from the first [>] on. *)
Fixpoint from_gt (s : string) : string :=
  match s with
  | EmptyString => EmptyString
  | String a s' => if Ascii.eqb ">" a then s else from_gt s'
  end.

(** [s] holds an occurrence of [w]. *)
Definition holds (w s : string) : Prop := exists x y, s = x +:+ w +:+ y.

(** The continuation that ends a match. *)
Definition done : cont := fun s c => Some (s, c).

(** What follows the [<] in a match of [tag_re]. *)
Definition tag_rest : cont :=
  fun s1 c1 => run (chr ">") s1 c1 (fun s2 c2 => run Eps s2 c2 done).

(** The tag-stripped trimmed texts of the [<pre>] blocks of a page, as
    matched by the first loop of [extractCodeExamples]. *)
Definition pre_blocks (html : string) : list string :=
  map (fun m => Utils.clean_text (Utils.group_text m 2)) (matchAll Utils.pre_lang_re html).

(** An example labelled with the default language. *)
Definition text_example (code : string) : CodeExample :=
  mkExample "text" code "Code example in text" None.

(** [s] past its leading code units that pass [p]. *)
Fixpoint skip (p : ascii -> bool) (s : string) : string :=
  match s with
  | EmptyString => EmptyString
  | String a s' => if p a then skip p s' else s
  end.

(** The first code unit of [s], if it has one, is not white space. *)
Definition starts_with_text (s : string) : bool :=
  match s with
  | EmptyString => true
  | String a _ => negb (Js.is_space a)
  end.

(** The last code unit of [s], if it has one, is not white space. *)
Fixpoint ends_with_text (s : string) : bool :=
  match s with
  | EmptyString => true
  | String a EmptyString => negb (Js.is_space a)
  | String _ s' => ends_with_text s'
  end.

(** Every white-space code unit of [s] is a space (U+0020) that is not
    followed by white space. *)
Fixpoint squeezed (s : string) : bool :=
  match s with
  | EmptyString => true
  | String a s' =>
      (negb (Js.is_space a) || (Ascii.eqb a " " && starts_with_text s')) && squeezed s'
  end.

(** No [>] anywhere in the text. *)
Definition gt_free (s : string) : bool :=
  Spec.string_forall (fun a => negb (Ascii.eqb ">" a)) s.

(** No [<] of the text is followed, at any distance, by a [>]: the text
    holds no tag. *)
Fixpoint no_tag (s : string) : bool :=
  match s with
  | EmptyString => true
  | String a s' => (negb (Ascii.eqb "<" a) || gt_free s') && no_tag s'
  end.

(** No [<] anywhere in the text. *)
Definition no_markup (text : string) : bool :=
  Spec.string_forall (fun a => negb (Ascii.eqb a "<")) text.
End Shape.

(** ** The library endpoints of [api.ts] and their formatters in [utils.ts] *)

Module Library.

(** What the code asks of a JavaScript number: its truth value, the test
    against the sentinel -1 and its decimal rendering. *)
Class JsNumber (number : Type) : Type := mkJsNumber {
  truthy : number -> bool;
  is_minus_one : number -> bool;
  Number_toString : number -> string;
}.

(** The rendering of an integer of magnitude below 10^21, which
    JavaScript prints digit by digit; an HTTP status has three digits. *)
Definition Z_toString (z : Z) : string :=
  if (z <? 0)%Z
  then "-" +:+ Js.nat_to_string (Z.to_nat (- z))
  else Js.nat_to_string (Z.to_nat z).

#[global] Instance Z_JsNumber : JsNumber Z :=
  mkJsNumber Z (fun z => negb (z =? 0)%Z) (fun z => (z =? -1)%Z) Z_toString.

Inductive DocumentState : Type :=
| STATE_INITIAL | STATE_FINALIZED | STATE_ERROR | STATE_DELETE.

(** A search result as decoded from the response: the fields that the code
    tests against [undefined] are optional. *)
Record SearchResult (number : Type) : Type := mkSearchResult {
  lib_id : string;
  lib_title : string;
  lib_description : string;
  lib_branch : string;
  lastUpdateDate : string;
  lib_state : DocumentState;
  totalTokens : number;
  totalSnippets : option number;
  totalPages : number;
  stars : option number;
  trustScore : option number;
  versions : option (list string);
}.
Arguments mkSearchResult {number}.
Arguments lib_id {number}.
Arguments lib_title {number}.
Arguments lib_description {number}.
Arguments lib_branch {number}.
Arguments lastUpdateDate {number}.
Arguments lib_state {number}.
Arguments totalTokens {number}.
Arguments totalSnippets {number}.
Arguments totalPages {number}.
Arguments stars {number}.
Arguments trustScore {number}.
Arguments versions {number}.

Record SearchResponse (number : Type) : Type := mkSearchResponse {
  lib_error : option string;
  lib_results : option (list (SearchResult number));
}.
Arguments mkSearchResponse {number}.
Arguments lib_error {number}.
Arguments lib_results {number}.

(** [xs.join(sep)] *)
Definition join (sep : string) (xs : list string) : string :=
  match xs with
  | [] => EmptyString
  | x :: xs' => fold_left (fun acc y => acc +:+ sep +:+ y) xs' x
  end.

Definition newline : string := String "010" EmptyString.

Definition formatSearchResult {number} `{JsNumber number} (result : SearchResult number)
  : string :=
  let formattedResult :=
    ["- Title: " +:+ lib_title result;
     "- Context7-compatible library ID: " +:+ lib_id result;
     "- Description: " +:+ lib_description result] in
  let formattedResult :=
    match totalSnippets result with
    | Some n =>
        if negb (is_minus_one n)
        then formattedResult ++ ["- Code Snippets: " +:+ Number_toString n]
        else formattedResult
    | None => formattedResult
    end in
  let formattedResult :=
    match trustScore result with
    | Some n =>
        if negb (is_minus_one n)
        then formattedResult ++ ["- Trust Score: " +:+ Number_toString n]
        else formattedResult
    | None => formattedResult
    end in
  let formattedResult :=
    match versions result with
    | Some ((_ :: _) as vs) => formattedResult ++ ["- Versions: " +:+ join ", " vs]
    | _ => formattedResult
    end in
  join newline formattedResult.

Definition no_libraries : string := "No documentation libraries found matching your query.".

Definition formatSearchResults {number} `{JsNumber number}
  (searchResponse : SearchResponse number) : string :=
  match lib_results searchResponse with
  | None | Some [] => no_libraries
  | Some results =>
      join (newline +:+ "----------" +:+ newline) (map formatSearchResult results)
  end.

Definition CONTEXT7_API_BASE_URL : string := "https://context7.com/api".
Definition DEFAULT_TYPE : string := "txt".

(** What is handed to [fetch]: the string given to [new URL], the calls of
    [searchParams.set] made on the URL, in order, and the headers. *)
Record FetchRequest : Type := mkFetch {
  target : string;
  set_calls : list (string * string);
  request_headers : list (string * string);
}.

(** What [fetch] resolves to: a rejection with the rendering of its error,
    or a response with its status and the outcomes of [response.text()]
    and [response.json()]. *)
Inductive Outcome (number : Type) : Type :=
| Rejected (error : string)
| Resolved (status : Z) (text : Api.result string)
           (json : Api.result (SearchResponse number)).
Arguments Rejected {number}.
Arguments Resolved {number}.

Record LibEnv (number : Type) : Type := mkLibEnv {
  (** the rendering of the error thrown by [new URL], if it throws *)
  invalid_url : string -> option string;
  lib_network : FetchRequest -> Outcome number;
}.
Arguments invalid_url {number}.
Arguments lib_network {number}.

Definition new_URL {number} (E : LibEnv number) (s : string) : Api.result FetchRequest :=
  match invalid_url E s with
  | Some e => Api.Thrown e
  | None => Api.Returned (mkFetch s [] [])
  end.

Definition searchParams_set (url : FetchRequest) (name value : string) : FetchRequest :=
  mkFetch (target url) (set_calls url ++ [(name, value)]) (request_headers url).

Definition with_headers (url : FetchRequest) (hs : list (string * string)) : FetchRequest :=
  mkFetch (target url) (set_calls url) hs.

(** [try { body } catch (error) { return handler(error) }] *)
Definition caught {A} (body : Api.result A) (handler : string -> A) : Api.result A :=
  match body with
  | Api.Returned a => Api.Returned a
  | Api.Thrown error => Api.Returned (handler error)
  end.

Definition rate_limited : string :=
  "Rate limited due to too many requests. Please try again later.".

Definition searchLibraries {number} (E : LibEnv number) (query : string)
  : Api.result (SearchResponse number) :=
  caught
    match new_URL E (CONTEXT7_API_BASE_URL +:+ "/v1/search") with
    | Api.Thrown e => Api.Thrown e
    | Api.Returned url =>
        let url := searchParams_set url "query" query in
        match lib_network E url with
        | Rejected e => Api.Thrown e
        | Resolved status _ json =>
            if negb (Api.response_ok status)
            then
              let errorCode := status in
              if (errorCode =? 429)%Z
              then Api.Returned (mkSearchResponse (Some rate_limited) (Some []))
              else Api.Returned
                     (mkSearchResponse
                        (Some ("Failed to search libraries. Please try again later. Error code: "
                               +:+ Z_toString errorCode))
                        (Some []))
            else json
        end
    end
    (fun error => mkSearchResponse (Some ("Error searching libraries: " +:+ error)) (Some [])).

Record DocOptions (number : Type) : Type := mkOptions {
  tokens : option number;
  topic : option string;
}.
Arguments mkOptions {number}.
Arguments tokens {number}.
Arguments topic {number}.

(** [libraryId.startsWith("/") ? libraryId.slice(1) : libraryId] *)
Definition strip_slash (libraryId : string) : string :=
  match libraryId with
  | String a rest => if Ascii.eqb a "/" then rest else libraryId
  | EmptyString => libraryId
  end.

Definition fetchLibraryDocumentation {number} `{JsNumber number} (E : LibEnv number)
  (libraryId : string) (options : DocOptions number) : Api.result (option string) :=
  caught
    (let libraryId := strip_slash libraryId in
     match new_URL E (CONTEXT7_API_BASE_URL +:+ "/v1/" +:+ libraryId) with
     | Api.Thrown e => Api.Thrown e
     | Api.Returned url =>
         let url :=
           match tokens options with
           | Some n => if truthy n then searchParams_set url "tokens" (Number_toString n) else url
           | None => url
           end in
         let url :=
           match topic options with
           | Some (String _ _ as t) => searchParams_set url "topic" t
           | _ => url
           end in
         let url := searchParams_set url "type" DEFAULT_TYPE in
         match lib_network E (with_headers url [("X-Context7-Source", "mcp-server")]) with
         | Rejected e => Api.Thrown e
         | Resolved status text _ =>
             if negb (Api.response_ok status)
             then
               let errorCode := status in
               if (errorCode =? 429)%Z
               then Api.Returned (Some rate_limited)
               else Api.Returned
                      (Some ("Failed to fetch documentation. Please try again later. Error code: "
                             +:+ Z_toString errorCode))
             else
               match text with
               | Api.Thrown e => Api.Thrown e
               | Api.Returned text =>
                   if String.eqb text EmptyString
                      || String.eqb text "No content available"
                      || String.eqb text "No context data available"
                   then Api.Returned None
                   else Api.Returned (Some text)
               end
         end
     end)
    (fun error =>
       Some ("Error fetching library documentation. Please try again later. " +:+ error)).

(** *** Vocabulary of the statements *)

(** The request of a library search. *)
Definition search_request (query : string) : FetchRequest :=
  mkFetch (CONTEXT7_API_BASE_URL +:+ "/v1/search") [("query", query)] [].

(** The parameters set on the URL of a documentation request. *)
Definition documentation_params {number} `{JsNumber number} (options : DocOptions number)
  : list (string * string) :=
  match tokens options with
  | Some n => if truthy n then [("tokens", Number_toString n)] else []
  | None => []
  end ++
  match topic options with
  | Some (String _ _ as t) => [("topic", t)]
  | _ => []
  end ++
  [("type", "txt")].

(** The request for the documentation of the library [path], an identifier
    without its leading slash. *)
Definition documentation_request {number} `{JsNumber number} (path : string)
  (options : DocOptions number) : FetchRequest :=
  mkFetch (CONTEXT7_API_BASE_URL +:+ "/v1/" +:+ path) (documentation_params options)
          [("X-Context7-Source", "mcp-server")].

(** The bodies that stand for no documentation. *)
Definition no_content : list string :=
  [EmptyString; "No content available"; "No context data available"].

(** *** Samples *)

(** A server that knows one library. *)
Definition sample_server : LibEnv Z :=
  mkLibEnv Z (fun _ => None)
    (fun request =>
       if String.eqb (target request) "https://context7.com/api/v1/vercel/next.js"
       then Resolved 200 (Api.Returned "Routing: the app directory")
                     (Api.Thrown "SyntaxError: Unexpected token R")
       else Resolved 404 (Api.Returned "Not found") (Api.Thrown "SyntaxError: Unexpected token N")).

Definition sample_result (stars : option Z) (branch : string) : SearchResult Z :=
  mkSearchResult (number := Z)
                 "/vercel/next.js" "Next.js" "The React Framework" branch "2025-01-01"
                 STATE_FINALIZED 500000%Z (Some 3000%Z) 900%Z stars (Some (-1)%Z)
                 (Some ["v14.3.0"; "v15.1.8"]).
End Library.

(* ===================================================================== *)
(** * Part II: lemmas and theorems *)
(* ===================================================================== *)

(** ** Strings *)

Module JsFacts.
Import Js Spec.

Lemma sapp_nil_l (s : string) : EmptyString +:+ s = s.
Proof. reflexivity. Qed.

Lemma sapp_cons (a : ascii) (s t : string) : String a s +:+ t = String a (s +:+ t).
Proof. reflexivity. Qed.

Lemma sapp_nil_r (s : string) : s +:+ EmptyString = s.
Proof. induction s as [|a s IH]; [reflexivity|]. rewrite sapp_cons, IH. reflexivity. Qed.

Lemma sapp_assoc (s t u : string) : (s +:+ t) +:+ u = s +:+ (t +:+ u).
Proof.
  induction s as [|a s IH]; [reflexivity|].
  rewrite !sapp_cons, IH. reflexivity.
Qed.

Lemma length_sapp (s t : string) :
  String.length (s +:+ t) = String.length s + String.length t.
Proof.
  induction s as [|a s IH]; [reflexivity|].
  rewrite sapp_cons. simpl. rewrite IH. reflexivity.
Qed.

Lemma substring_sapp (s t : string) : String.substring 0 (String.length s) (s +:+ t) = s.
Proof.
  induction s as [|a s IH].
  - destruct t; reflexivity.
  - rewrite sapp_cons. simpl. rewrite IH. reflexivity.
Qed.

Lemma sapp_empty_inv (s t : string) : s +:+ t = EmptyString -> s = EmptyString.
Proof. destruct s; [reflexivity|]. rewrite sapp_cons. discriminate. Qed.

Lemma string_forall_sapp (P : ascii -> bool) (s t : string) :
  string_forall P (s +:+ t) = string_forall P s && string_forall P t.
Proof.
  induction s as [|a s IH]; [reflexivity|].
  rewrite sapp_cons. simpl. rewrite IH, andb_assoc. reflexivity.
Qed.

Lemma string_forall_impl (P Q : ascii -> bool) (s : string) :
  (forall a, P a = true -> Q a = true) ->
  string_forall P s = true -> string_forall Q s = true.
Proof.
  intros HPQ. induction s as [|a s IH]; simpl; [reflexivity|].
  intros [Ha Hs]%andb_true_iff. rewrite (HPQ _ Ha), (IH Hs). reflexivity.
Qed.

(** Trimming leaves alone a string that has no white space in it. *)
Lemma trimEnd_no_space (s : string) :
  string_forall (fun a => negb (is_space a)) s = true -> trimEnd s = s.
Proof.
  induction s as [|a s IH]; simpl; [reflexivity|].
  intros [Ha Hs]%andb_true_iff. rewrite (IH Hs).
  destruct s; [|reflexivity].
  apply negb_true_iff in Ha. rewrite Ha. reflexivity.
Qed.

Lemma trim_no_space (s : string) :
  string_forall (fun a => negb (is_space a)) s = true -> trim s = s.
Proof.
  intros Hs. unfold trim.
  assert (Hstart : trimStart s = s).
  { destruct s as [|a s]; simpl in *; [reflexivity|].
    apply andb_true_iff in Hs as [Ha _]. apply negb_true_iff in Ha.
    rewrite Ha. reflexivity. }
  rewrite Hstart. apply trimEnd_no_space, Hs.
Qed.
End JsFacts.

(** ** The matcher *)

Module RegExpFacts.
Import RegExp Spec JsFacts.

Lemma consumed_app (w s' : string) : consumed (w +:+ s') s' = w.
Proof.
  unfold consumed. rewrite length_sapp.
  replace (String.length w + String.length s' - String.length s') with (String.length w) by lia.
  apply substring_sapp.
Qed.

Lemma accepts_anything (r : regex) : accepts_only (fun _ => true) r.
Proof. induction r; simpl; auto. Qed.

Lemma accepts_only_impl (P Q : ascii -> bool) (r : regex) :
  (forall a, P a = true -> Q a = true) -> accepts_only P r -> accepts_only Q r.
Proof.
  intros HPQ. induction r; simpl; try tauto.
  intros Hp a Ha. apply HPQ, Hp, Ha.
Qed.

Lemma hands_over_here (P : ascii -> bool) (gs : list nat) s c (k : cont) res :
  k s c = Some res -> hands_over P true gs s c k res.
Proof.
  intros Hk. exists EmptyString, s, c.
  do 2 (split; [reflexivity|]). split; [discriminate|]. split; [reflexivity|exact Hk].
Qed.

(** Two runs in a row. *)
Lemma hands_over_seq (P : ascii -> bool) b1 b2 gs1 gs2 s c (k1 k : cont) res :
  hands_over P b1 gs1 s c k1 res ->
  (forall s1 c1, k1 s1 c1 = Some res -> hands_over P b2 gs2 s1 c1 k res) ->
  hands_over P (b1 && b2) (gs1 ++ gs2) s c k res.
Proof.
  intros (w1 & s1 & c1 & -> & Hw1 & Hne1 & Hc1 & Hk1) Hnext.
  destruct (Hnext _ _ Hk1) as (w2 & s2 & c2 & -> & Hw2 & Hne2 & Hc2 & Hk).
  exists (w1 +:+ w2), s2, c2. split; [symmetry; apply sapp_assoc|].
  split; [rewrite string_forall_sapp, Hw1, Hw2; reflexivity|].
  split.
  - intros Hb Hw. apply andb_false_iff in Hb as [Hb|Hb].
    + apply Hne1; [exact Hb|]. eapply sapp_empty_inv, Hw.
    + apply Hne2; [exact Hb|].
      destruct w1; [exact Hw|]. rewrite sapp_cons in Hw. discriminate.
  - split; [|exact Hk]. intros i Hi.
    rewrite Hc2 by (intros Hin; apply Hi, in_or_app; auto).
    apply Hc1. intros Hin; apply Hi, in_or_app; auto.
Qed.

Lemma hands_over_weaken (P : ascii -> bool) b b' gs gs' s c k res :
  hands_over P b gs s c k res ->
  (b' = false -> b = false) -> (forall i, In i gs -> In i gs') ->
  hands_over P b' gs' s c k res.
Proof.
  intros (w & s' & c' & Hs & Hw & Hne & Hc & Hk) Hb Hgs.
  exists w, s', c'. repeat split; auto.
Qed.

Section Loop.
Variable P : ascii -> bool.
Variable body : string -> captures -> cont -> outcome.
Variable greedy : bool.
Variable b : bool.
Variable gs : list nat.
Hypothesis body_sound :
  forall s c k res, body s c k = Some res -> hands_over P b gs s c k res.

Lemma star_loop_sound (fuel : nat) :
  forall s c k res,
    star_loop body greedy fuel s c k = Some res -> hands_over P true gs s c k res.
Proof.
  induction fuel as [|n IH]; intros s c k res Hrun; simpl in Hrun.
  - apply hands_over_here, Hrun.
  - assert (Hiter : forall res',
               body s c (fun s' c' =>
                 if String.length s' <? String.length s
                 then star_loop body greedy n s' c' k else None) = Some res' ->
               hands_over P true gs s c k res').
    { intros res' Hb. apply body_sound in Hb.
      eapply hands_over_weaken; [eapply hands_over_seq with (b2 := true) (gs2 := gs)| |].
      - exact Hb.
      - intros s1 c1 Hk1. simpl in Hk1.
        destruct (String.length s1 <? String.length s); [|discriminate].
        apply IH, Hk1.
      - discriminate.
      - intros i [Hi|Hi]%in_app_or; exact Hi. }
    destruct greedy.
    + destruct (body s c _) as [res'|] eqn:Hb.
      * apply Hiter, Hrun.
      * apply hands_over_here, Hrun.
    + destruct (k s c) as [res'|] eqn:Hk.
      * inversion Hrun; subst. apply hands_over_here, Hk.
      * apply Hiter, Hrun.
Qed.
End Loop.

(** Soundness of the matcher: whatever [run r] hands to its continuation
    lies behind a text consumed by [r]. *)
Lemma run_sound (r : regex) :
  forall P, accepts_only P r ->
  forall s c k res,
    run r s c k = Some res -> hands_over P (nullable r) (groups_of r) s c k res.
Proof.
  induction r as [|p|r1 IH1 r2 IH2|r1 IH1 r2 IH2|g r1 IH1|i r1 IH1|r1 IH1|];
    intros P HP s c k res Hrun; cbn [run] in Hrun; simpl in HP.
  - apply hands_over_here, Hrun.
  - destruct s as [|a s']; [discriminate|].
    destruct (p a) eqn:Hpa; [|discriminate].
    exists (String a EmptyString), s', c.
    split; [reflexivity|]. split; [simpl; rewrite (HP _ Hpa); reflexivity|].
    split; [discriminate|]. split; [reflexivity|exact Hrun].
  - destruct HP as [HP1 HP2]. simpl.
    eapply hands_over_seq; [apply (IH1 P HP1), Hrun|].
    intros s1 c1 Hk1. apply (IH2 P HP2), Hk1.
  - destruct HP as [HP1 HP2]. simpl.
    destruct (run r1 s c k) as [res'|] eqn:H1.
    + inversion Hrun; subst.
      eapply hands_over_weaken; [apply (IH1 P HP1), H1| |].
      * intros Hb. apply orb_false_iff in Hb. tauto.
      * intros i Hi. apply in_or_app. auto.
    + eapply hands_over_weaken; [apply (IH2 P HP2), Hrun| |].
      * intros Hb. apply orb_false_iff in Hb. tauto.
      * intros i Hi. apply in_or_app. auto.
  - simpl. eapply star_loop_sound; [|exact Hrun].
    intros s1 c1 k1 res1. apply (IH1 P HP).
  - simpl. apply (IH1 P HP) in Hrun.
    destruct Hrun as (w & s' & c' & -> & Hw & Hne & Hc & Hk).
    rewrite consumed_app in Hk.
    exists w, s', (set_capture i w c').
    do 3 (split; [assumption || reflexivity|]). split; [|exact Hk].
    intros j Hj. unfold set_capture.
    destruct (Nat.eqb_spec j i) as [->|Hji]; [exfalso; apply Hj; left; reflexivity|].
    apply Hc. intros Hin. apply Hj. right. exact Hin.
  - simpl.
    destruct (run r1 s c (fun s' c' => Some (s', c'))) as [[s1 c1]|] eqn:H1; [|discriminate].
    apply (IH1 _ (accepts_anything r1)) in H1.
    destruct H1 as (w & s' & c' & _ & _ & _ & Hc & Hk). inversion Hk; subst.
    exists EmptyString, s, c1.
    do 2 (split; [reflexivity|]). split; [discriminate|]. split; [exact Hc|exact Hrun].
  - destruct s; [|discriminate]. apply hands_over_here, Hrun.
Qed.

Lemma exec_here_sound (P : ascii -> bool) (r : regex) (s : string) (m : Match) :
  accepts_only P r -> exec_here r s = Some m ->
  s = m0 m +:+ rest m /\
  string_forall P (m0 m) = true /\
  (nullable r = false -> m0 m <> EmptyString) /\
  (forall i, ~ In i (groups_of r) -> group m i = None).
Proof.
  intros HP. unfold exec_here.
  destruct (run r s no_captures _) as [[s1 c1]|] eqn:Hrun; [|discriminate].
  intros [= <-]. simpl.
  apply (run_sound r P HP) in Hrun.
  destruct Hrun as (w & s' & c' & -> & Hw & Hne & Hc & [= -> ->]).
  rewrite consumed_app. auto.
Qed.

Lemma search_exec (r : regex) (s pre : string) (m : Match) :
  search r s = Some (pre, m) -> exists s0, s = pre +:+ s0 /\ exec_here r s0 = Some m.
Proof.
  revert pre. induction s as [|a s IH]; intros pre; simpl.
  - destruct (exec_here r EmptyString) as [m'|] eqn:He; [|discriminate].
    intros [= <- <-]. exists EmptyString. auto.
  - destruct (exec_here r (String a s)) as [m'|] eqn:He.
    + intros [= <- <-]. exists (String a s). auto.
    + destruct (search r s) as [[pre' m']|]; [|discriminate].
      intros [= <- <-]. destruct (IH pre' eq_refl) as (s0 & -> & Hs0).
      exists s0. auto.
Qed.

Lemma match_all_from_exec (r : regex) (fuel : nat) :
  forall s m, In m (match_all_from fuel r s) -> exists s0, exec_here r s0 = Some m.
Proof.
  induction fuel as [|n IH]; intros s m; simpl; [tauto|].
  destruct (search r s) as [[pre m1]|] eqn:Hs; [|simpl; tauto].
  intros [<-|Hin].
  - apply search_exec in Hs as (s0 & _ & Hs0). eauto.
  - destruct (resume m1); [eapply IH, Hin|destruct Hin].
Qed.

Lemma matchAll_exec (r : regex) (s : string) (m : Match) :
  In m (matchAll r s) -> exists s0, exec_here r s0 = Some m.
Proof. apply match_all_from_exec. Qed.

Lemma js_match_exec (r : regex) (s : string) (m : Match) :
  js_match r s = Some m -> exists s0, exec_here r s0 = Some m.
Proof.
  unfold js_match. destruct (search r s) as [[pre m1]|] eqn:Hs; [|discriminate].
  intros [= <-]. apply search_exec in Hs as (s0 & _ & Hs0). eauto.
Qed.

(** A group that every match goes through is set, to a text made of the
    code units its body accepts, non-empty when the body cannot match the
    empty string. *)
Lemma run_cat_group (P : ascii -> bool) (i : nat) (g : regex) (posts : list regex) :
  accepts_only P g -> ~ In i (groups_of (cat posts)) ->
  forall pres s c res,
    run (cat (pres ++ Group i g :: posts)) s c (fun s' c' => Some (s', c')) = Some res ->
    exists w, snd res i = Some w /\
              (nullable g = false -> w <> EmptyString) /\
              string_forall P w = true.
Proof.
  intros HP Hposts pres. induction pres as [|a pres IH]; intros s c res Hrun.
  - change (run g s c (fun s' c' =>
              run (cat posts) s' (set_capture i (consumed s s') c')
                  (fun s2 c2 => Some (s2, c2))) = Some res) in Hrun.
    apply (run_sound g P HP) in Hrun.
    destruct Hrun as (w & s' & c' & -> & Hw & Hne & _ & Hk).
    rewrite consumed_app in Hk.
    apply (run_sound _ _ (accepts_anything (cat posts))) in Hk.
    destruct Hk as (_ & s2 & c2 & _ & _ & _ & Hc & [= <-]).
    exists w. simpl. rewrite (Hc i Hposts). unfold set_capture.
    rewrite Nat.eqb_refl. auto.
  - change (run a s c (fun s' c' =>
              run (cat (pres ++ Group i g :: posts)) s' c'
                  (fun s2 c2 => Some (s2, c2))) = Some res) in Hrun.
    apply (run_sound _ _ (accepts_anything a)) in Hrun.
    destruct Hrun as (_ & s' & c' & _ & _ & _ & _ & Hk).
    eapply IH, Hk.
Qed.

Lemma exec_cat_group (P : ascii -> bool) (i : nat) (g : regex) (pres posts : list regex)
  (s : string) (m : Match) :
  accepts_only P g -> nullable g = false -> ~ In i (groups_of (cat posts)) ->
  exec_here (cat (pres ++ Group i g :: posts)) s = Some m ->
  exists w, group m i = Some w /\ w <> EmptyString /\ string_forall P w = true.
Proof.
  intros HP Hnull Hposts. unfold exec_here.
  destruct (run _ s no_captures _) as [[s1 c1]|] eqn:Hrun; [|discriminate].
  intros [= <-]. apply (run_cat_group P i g posts HP Hposts) in Hrun.
  destruct Hrun as (w & Hw & Hne & HP'). exists w. auto.
Qed.

Lemma exec_cat_group_set (i : nat) (g : regex) (pres posts : list regex)
  (s : string) (m : Match) :
  ~ In i (groups_of (cat posts)) ->
  exec_here (cat (pres ++ Group i g :: posts)) s = Some m ->
  group m i <> None.
Proof.
  intros Hposts. unfold exec_here.
  destruct (run _ s no_captures _) as [[s1 c1]|] eqn:Hrun; [|discriminate].
  intros [= <-].
  apply (run_cat_group _ i g posts (accepts_anything g) Hposts) in Hrun.
  destruct Hrun as (w & Hw & _). unfold group. cbn [groups]. cbn [snd] in Hw.
  rewrite Hw. discriminate.
Qed.
End RegExpFacts.

(** ** The extractors of [utils.ts] *)

Module UtilsFacts.
Import RegExp Spec JsFacts RegExpFacts Utils.

(** Case analysis over the 256 code units. *)
Ltac ascii_cases :=
  let a := fresh "a" in
  intros a; destruct a as [[] [] [] [] [] [] [] []]; vm_compute;
  first [reflexivity | discriminate | (intros; first [reflexivity | discriminate])].

Ltac accepts_by_cases := repeat split; ascii_cases.

(** *** Deduplication *)

Lemma list_includes_In (acc : list string) (e : string) :
  list_includes acc e = true <-> In e acc.
Proof.
  unfold list_includes. rewrite existsb_exists. split.
  - intros (x & Hx & ->%String.eqb_eq). exact Hx.
  - intros He. exists e. split; [exact He|apply String.eqb_refl].
Qed.

Lemma list_includes_snoc (acc : list string) (x e : string) :
  list_includes (acc ++ [x]) e = list_includes acc e || String.eqb x e.
Proof.
  unfold list_includes. rewrite existsb_app. simpl.
  rewrite orb_false_r, (String.eqb_sym e x). reflexivity.
Qed.

Lemma filter_filter_comm {A} (p q : A -> bool) (l : list A) :
  List.filter p (List.filter q l) = List.filter q (List.filter p l).
Proof.
  induction l as [|x l IH]; simpl; [reflexivity|].
  destruct (q x) eqn:Hq, (p x) eqn:Hp; simpl; rewrite ?Hq, ?Hp, IH; reflexivity.
Qed.

Lemma filter_and {A} (p q : A -> bool) (l : list A) :
  List.filter (fun e => p e && q e) l = List.filter p (List.filter q l).
Proof.
  induction l as [|x l IH]; simpl; [reflexivity|].
  destruct (q x) eqn:Hq, (p x) eqn:Hp; simpl; rewrite ?Hp, ?IH; reflexivity.
Qed.

Lemma filter_drop_absent (p : string -> bool) (x : string) (l : list string) :
  p x = false ->
  List.filter p (List.filter (fun y => negb (String.eqb x y)) l) = List.filter p l.
Proof.
  intros Hx. induction l as [|y l IH]; simpl; [reflexivity|].
  destruct (String.eqb_spec x y) as [<-|Hxy]; simpl.
  - rewrite Hx. exact IH.
  - rewrite IH. reflexivity.
Qed.

Lemma first_seen_filter (p : string -> bool) (l : list string) :
  first_seen (List.filter p l) = List.filter p (first_seen l).
Proof.
  induction l as [|x l IH]; simpl; [reflexivity|].
  destruct (p x) eqn:Hx; simpl.
  - rewrite ?Hx, IH. f_equal. apply filter_filter_comm.
  - rewrite ?Hx, IH. symmetry. apply filter_drop_absent, Hx.
Qed.

Lemma first_seen_NoDup (l : list string) : List.NoDup (first_seen l).
Proof.
  induction l as [|x l IH]; simpl; constructor.
  - rewrite filter_In. intros [_ Hx]. rewrite String.eqb_refl in Hx. discriminate.
  - apply List.NoDup_filter, IH.
Qed.

Lemma first_seen_In (l : list string) (e : string) : In e (first_seen l) <-> In e l.
Proof.
  induction l as [|x l IH]; simpl; [tauto|].
  rewrite filter_In, IH.
  destruct (String.eqb_spec x e) as [->|Hxe]; simpl; [tauto|].
  split; [tauto|]. intros [H|H]; [tauto|]. right. split; [exact H|reflexivity].
Qed.

(** The accumulating loop computes [first_seen]. *)
Lemma fold_add_unseen (l : list string) :
  forall acc,
    fold_left add_unseen l acc =
    acc ++ first_seen (List.filter (fun e => negb (list_includes acc e)) l).
Proof.
  induction l as [|x l IH]; intros acc; simpl.
  - rewrite List.app_nil_r. reflexivity.
  - unfold add_unseen at 2. destruct (list_includes acc x) eqn:Hx; simpl.
    + apply IH.
    + rewrite IH, <- List.app_assoc. simpl. do 2 f_equal.
      rewrite <- first_seen_filter. f_equal.
      rewrite <- filter_and. apply filter_ext. intros e.
      rewrite list_includes_snoc, negb_orb. apply andb_comm.
Qed.

Lemma fold_add_unseen_nil (l : list string) : fold_left add_unseen l [] = first_seen l.
Proof.
  rewrite fold_add_unseen. simpl. f_equal.
  induction l as [|x l IH]; simpl; [reflexivity|]. rewrite IH. reflexivity.
Qed.

(** *** Captures that are read without a test *)

(** [group_text] is applied to the first group of the list, item, code and
    pre patterns, and to the second group of the pattern with the language
    class: each of them is set in every match. *)
Lemma group_text_defined (r : regex) (i : nat) (s : string) (m : Match) :
  In (r, i) [(code_re, 1); (pre_re, 1); (ol_re, 1); (li_re, 1);
             (procedure_re, 1); (pre_lang_re, 2)] ->
  In m (matchAll r s) \/ js_match r s = Some m ->
  group m i <> None.
Proof.
  intros Hr Hm.
  assert (He : exists s0, exec_here r s0 = Some m).
  { destruct Hm as [Hm|Hm]; [eapply matchAll_exec, Hm|eapply js_match_exec, Hm]. }
  destruct He as [s0 He]. cbn [In] in Hr.
  destruct Hr as [[= <- <-]|[[= <- <-]|[[= <- <-]|[[= <- <-]|[[= <- <-]|[[= <- <-]|[]]]]]]].
  - eapply (exec_cat_group_set 1 _ [_; _; _] [_]); [|exact He]. vm_compute. tauto.
  - eapply (exec_cat_group_set 1 _ [_; _; _] [_]); [|exact He]. vm_compute. tauto.
  - eapply (exec_cat_group_set 1 _ [_; _; _] [_]); [|exact He]. vm_compute. tauto.
  - eapply (exec_cat_group_set 1 _ [_; _; _] [_]); [|exact He]. vm_compute. tauto.
  - eapply (exec_cat_group_set 1 _ [_; _; _; _; _; _; _; _; _; _] [_]); [|exact He].
    vm_compute. tauto.
  - eapply (exec_cat_group_set 2 _ [_; _; _; _; _] [_]); [|exact He]. vm_compute. tauto.
Qed.

(** *** [extractErrorsFromText] *)

Lemma group_candidate (m : Match) :
  (exists w, group m 1 = Some w /\ w <> EmptyString /\ no_space w = true) ->
  error_candidate m <> EmptyString /\ no_space (error_candidate m) = true.
Proof.
  intros (w & Hg & Hne & Hw). unfold error_candidate. rewrite Hg.
  destruct w as [|a w]; [contradiction|]. split; [discriminate|exact Hw].
Qed.

(** Every contribution is a non-empty string without white space: the
    first group of the first, second and fourth pattern, and the whole
    match of the third one. *)
Lemma error_candidate_clean (pattern : regex) (text : string) (m : Match) :
  In pattern errorPatterns -> In m (matchAll pattern text) ->
  error_candidate m <> EmptyString /\ no_space (error_candidate m) = true.
Proof.
  intros Hp Hm. apply matchAll_exec in Hm as (s0 & He).
  unfold errorPatterns in Hp. cbn [In] in Hp.
  destruct Hp as [<-|[<-|[<-|[<-|[]]]]].
  - apply group_candidate.
    eapply (exec_cat_group _ 1 _ [_; _] []); [| | |exact He].
    + accepts_by_cases.
    + reflexivity.
    + simpl. tauto.
  - apply group_candidate.
    eapply (exec_cat_group _ 1 _ [_; _] [_; _]); [| | |exact He].
    + accepts_by_cases.
    + reflexivity.
    + simpl. intros [H|H]; [discriminate|exact H].
  - apply (exec_here_sound (fun a => negb (Js.is_space a))) in He
      as (_ & Hw & Hne & Hc); [|accepts_by_cases].
    unfold error_candidate. rewrite Hc by (vm_compute; tauto).
    split; [apply Hne; reflexivity|exact Hw].
  - apply group_candidate.
    eapply (exec_cat_group _ 1 _ [] []); [| | |exact He].
    + accepts_by_cases.
    + reflexivity.
    + simpl. tauto.
Qed.

Lemma push_error_add (errors : list string) (m : Match) :
  error_candidate m <> EmptyString -> no_space (error_candidate m) = true ->
  push_error errors m = add_unseen errors (error_candidate m).
Proof.
  intros Hne Hclean. unfold push_error, add_unseen.
  fold (error_candidate m).
  destruct (error_candidate m) as [|a e] eqn:Hc; [contradiction|].
  rewrite (trim_no_space _ Hclean).
  destruct (list_includes errors (String a e)); reflexivity.
Qed.

Lemma fold_push_error (ms : list Match) :
  (forall m, In m ms ->
     error_candidate m <> EmptyString /\ no_space (error_candidate m) = true) ->
  forall acc,
    fold_left push_error ms acc = fold_left add_unseen (map error_candidate ms) acc.
Proof.
  induction ms as [|m ms IH]; intros Hms acc; simpl; [reflexivity|].
  destruct (Hms m (or_introl eq_refl)) as [Hne Hclean].
  rewrite (push_error_add _ _ Hne Hclean).
  apply IH. intros m' Hm'. apply Hms. right. exact Hm'.
Qed.

Lemma fold_patterns (text : string) (ps : list regex) :
  (forall p, In p ps -> In p errorPatterns) ->
  forall acc,
    fold_left (fun errors pattern => fold_left push_error (matchAll pattern text) errors)
              ps acc =
    fold_left add_unseen
              (flat_map (fun pattern => map error_candidate (matchAll pattern text)) ps) acc.
Proof.
  induction ps as [|p ps IH]; intros Hps acc; simpl; [reflexivity|].
  rewrite fold_left_app, IH by (intros q Hq; apply Hps; right; exact Hq).
  f_equal. apply fold_push_error.
  intros m Hm. eapply error_candidate_clean; [|exact Hm].
  apply Hps. left. reflexivity.
Qed.

Lemma extractErrors_first_seen (text : string) :
  extractErrorsFromText text = first_seen (error_candidates text).
Proof.
  unfold extractErrorsFromText, error_candidates.
  rewrite fold_patterns by auto. apply fold_add_unseen_nil.
Qed.
End UtilsFacts.

(** ** The claims about the extractors *)

(** C7. For every input text, the list returned by [extractErrorsFromText]
    is the list of the strings contributed by the four pattern families,
    taken family by family, with every string kept only where it is first
    seen; it contains no two equal strings.  On the input
    'Error: AccessDenied while calling PutObject' it is the one-element list
    holding 'AccessDenied', and it still is when the phrase is repeated. *)
Theorem C7_extractErrors_first_seen_no_duplicates :
  (forall text : string,
      Utils.extractErrorsFromText text = Spec.first_seen (Spec.error_candidates text) /\
      List.NoDup (Utils.extractErrorsFromText text)) /\
  Utils.extractErrorsFromText "Error: AccessDenied while calling PutObject"
    = ["AccessDenied"] /\
  Utils.extractErrorsFromText
    "Error: AccessDenied while calling PutObject. Error: AccessDenied while calling PutObject"
    = ["AccessDenied"].
Proof.
  split; [|split; vm_compute; reflexivity].
  intros text. rewrite UtilsFacts.extractErrors_first_seen.
  split; [reflexivity|apply UtilsFacts.first_seen_NoDup].
Qed.

Module StepFacts.
Import RegExp Spec Utils.

Lemma list_item_step_eq (steps : list TroubleshootingStep) (n : nat) (im : Match) :
  list_item_step (steps, n) im =
  if item_kept (group_text im 1)
  then (steps ++ [item_step n (group_text im 1)], S n)
  else (steps, n).
Proof. reflexivity. Qed.

Lemma fold_list_item_step (ims : list Match) :
  forall steps n,
    fold_left list_item_step ims (steps, n) =
    (steps ++ number_from n (List.filter item_kept (map (fun m => group_text m 1) ims)),
     n + length (List.filter item_kept (map (fun m => group_text m 1) ims))).
Proof.
  induction ims as [|im ims IH]; intros steps n; cbn [fold_left map List.filter].
  - cbn. rewrite List.app_nil_r, Nat.add_0_r. reflexivity.
  - rewrite list_item_step_eq.
    destruct (item_kept (group_text im 1)).
    + rewrite IH. cbn [number_from length].
      rewrite <- List.app_assoc, Nat.add_succ_r. reflexivity.
    + apply IH.
Qed.

Lemma list_block_steps_app (steps : list TroubleshootingStep) (listMatch : Match) :
  list_block_steps steps listMatch = steps ++ block_steps (group_text listMatch 1).
Proof. unfold list_block_steps. rewrite fold_list_item_step. reflexivity. Qed.

Lemma fold_list_block_steps (lms : list Match) :
  forall steps,
    fold_left list_block_steps lms steps =
    steps ++ flat_map block_steps (map (fun m => group_text m 1) lms).
Proof.
  induction lms as [|lm lms IH]; intros steps; simpl.
  - rewrite List.app_nil_r. reflexivity.
  - rewrite IH, list_block_steps_app, <- List.app_assoc. reflexivity.
Qed.

Lemma list_pass_blocks (html : string) :
  list_pass html [] = flat_map block_steps (ordered_lists html).
Proof. unfold list_pass. rewrite fold_list_block_steps. reflexivity. Qed.

Lemma number_from_steps (items : list string) :
  forall n, map step (number_from n items) = seq n (length items).
Proof.
  induction items as [|item items IH]; intros n; simpl; [reflexivity|].
  rewrite IH. reflexivity.
Qed.

Lemma number_from_descriptions (items : list string) :
  forall n, map step_description (number_from n items) = map clean_text items.
Proof.
  induction items as [|item items IH]; intros n; simpl; [reflexivity|].
  rewrite IH. reflexivity.
Qed.

Lemma heading_pass_extends (html : string) (steps : list TroubleshootingStep) :
  exists more, heading_pass html steps = steps ++ more.
Proof.
  unfold heading_pass. generalize (matchAll procedure_re html). intros ms.
  revert steps. induction ms as [|m ms IH]; intros steps; simpl.
  - exists []. rewrite List.app_nil_r. reflexivity.
  - unfold procedure_step at 2.
    destruct (20 <? String.length (clean_text (group_text m 1))).
    + destruct (IH (steps ++ [mkStep (length steps + 1) "Troubleshooting Procedure"
                                 (ellipsis 500 (clean_text (group_text m 1)))
                                 (extractCodeFromText (group_text m 1))
                                 (Some (extractErrorsFromText (clean_text (group_text m 1))))]))
        as [more Hmore].
      rewrite Hmore, <- List.app_assoc. eauto.
    + apply IH.
Qed.
End StepFacts.

(** C6. In the list pass of [extractTroubleshootingSteps], the steps of
    every ordered-list block are made from exactly those of its items whose
    tag-stripped trimmed text is longer than 10 characters, in document
    order, and they are numbered 1, 2, 3, ... within the block, the count
    starting again at 1 for every block; the steps of the list pass come
    first in the result.  In particular a list of two items, the first
    longer than 10 characters and the second not, yields the single step of
    its first item, numbered 1. *)
Theorem C6_list_pass_keeps_long_items_numbered_per_list :
  (forall html : string,
      Utils.list_pass html [] = flat_map Spec.block_steps (Spec.ordered_lists html) /\
      exists more, Utils.extractTroubleshootingSteps html = Utils.list_pass html [] ++ more) /\
  (forall listContent : string,
      let kept := List.filter Spec.item_kept (Spec.list_items listContent) in
      map step (Spec.block_steps listContent) = seq 1 (length kept) /\
      map step_description (Spec.block_steps listContent) = map Utils.clean_text kept) /\
  (forall listContent first second : string,
      Spec.list_items listContent = [first; second] ->
      10 < String.length (Utils.clean_text first) ->
      String.length (Utils.clean_text second) <= 10 ->
      Spec.block_steps listContent = [Spec.item_step 1 first] /\
      step (Spec.item_step 1 first) = 1).
Proof.
  split; [|split].
  - intros html. split; [apply StepFacts.list_pass_blocks|].
    apply StepFacts.heading_pass_extends.
  - intros listContent kept. split.
    + apply StepFacts.number_from_steps.
    + apply StepFacts.number_from_descriptions.
  - intros listContent first second Hitems Hfirst Hsecond.
    split; [|reflexivity].
    unfold Spec.block_steps. rewrite Hitems. simpl. unfold Spec.item_kept.
    apply Nat.ltb_lt in Hfirst. rewrite Hfirst.
    apply Nat.ltb_ge in Hsecond. rewrite Hsecond. reflexivity.
Qed.

(** The list of the specification's example: the second item is dropped and
    the first is numbered 1, also in the result for a page made of this
    list. *)
Lemma C6_two_item_list :
  Spec.block_steps "<li>A very long item text...</li><li>x</li>"
    = [Spec.item_step 1 "A very long item text..."] /\
  step (Spec.item_step 1 "A very long item text...") = 1 /\
  map step (Utils.extractTroubleshootingSteps
              "<ol><li>A very long item text...</li><li>x</li></ol>") = [1].
Proof.
  split; [|split].
  - apply (proj2 (proj2 C6_list_pass_keeps_long_items_numbered_per_list)
             "<li>A very long item text...</li><li>x</li>" _ "x").
    + vm_compute. reflexivity.
    + vm_compute. lia.
    + vm_compute. lia.
  - reflexivity.
  - vm_compute. reflexivity.
Defined.

Module CodeFacts.
Import RegExp Spec Utils.

Lemma extractCodeFromText_code (html c : string) :
  first_code html = Some c -> extractCodeFromText html = longer_than_5 c.
Proof.
  unfold first_code, extractCodeFromText.
  destruct (js_match code_re html) as [codeMatch|]; [|discriminate].
  intros [= <-]. reflexivity.
Qed.

Lemma extractCodeFromText_pre (html p : string) :
  first_code html = None -> first_pre html = Some p ->
  extractCodeFromText html = longer_than_5 p.
Proof.
  unfold first_code, first_pre, extractCodeFromText.
  destruct (js_match code_re html) as [codeMatch|]; [discriminate|]. intros _.
  destruct (js_match pre_re html) as [preMatch|]; [|discriminate].
  intros [= <-]. reflexivity.
Qed.

Lemma extractCodeFromText_none (html : string) :
  first_code html = None -> first_pre html = None -> extractCodeFromText html = None.
Proof.
  unfold first_code, first_pre, extractCodeFromText.
  destruct (js_match code_re html) as [codeMatch|]; [discriminate|]. intros _.
  destruct (js_match pre_re html) as [preMatch|]; [discriminate|]. reflexivity.
Qed.

Lemma push_code_example_eq (examples : list CodeExample) (m : Match) :
  push_code_example examples m =
  let code := clean_text (group_text m 1) in
  if (20 <? String.length code) && Js.includes code " "
  then examples ++ [inline_example code] else examples.
Proof.
  unfold push_code_example. cbv zeta.
  destruct (Js.includes (clean_text (group_text m 1)) " "); reflexivity.
Qed.

Lemma fold_push_code_example (ms : list Match) :
  forall examples,
    fold_left push_code_example ms examples =
    examples ++
    map inline_example
        (List.filter (fun c => (20 <? String.length c) && Js.includes c " ")
                     (map clean_text (map (fun m => group_text m 1) ms))).
Proof.
  induction ms as [|m ms IH]; intros examples; cbn [fold_left map List.filter].
  - cbn. rewrite List.app_nil_r. reflexivity.
  - rewrite push_code_example_eq. cbv zeta.
    destruct ((20 <? String.length (clean_text (group_text m 1))) &&
              Js.includes (clean_text (group_text m 1)) " ").
    + rewrite IH. cbn [map]. rewrite <- List.app_assoc. reflexivity.
    + apply IH.
Qed.
End CodeFacts.

(** C4, as amended.  The single-match extractor is decided by the first
    [<code>] element alone when the fragment has one: its tag-stripped
    trimmed text is returned if it is longer than 5 characters, and absent
    is returned otherwise, whatever [<pre>] blocks the fragment has.  A
    fragment without a [<code>] element is decided in the same way by its
    first [<pre>] block, and a fragment with neither yields absent. *)
Theorem C4_first_code_element_decides :
  forall html : string,
    (forall c, Spec.first_code html = Some c ->
               Utils.extractCodeFromText html = Spec.longer_than_5 c) /\
    (forall p, Spec.first_code html = None -> Spec.first_pre html = Some p ->
               Utils.extractCodeFromText html = Spec.longer_than_5 p) /\
    (Spec.first_code html = None -> Spec.first_pre html = None ->
     Utils.extractCodeFromText html = None) /\
    (forall c, Utils.extractCodeFromText html = Some c -> 5 < String.length c).
Proof.
  intros html. split; [|split; [|split]].
  - intros c. apply CodeFacts.extractCodeFromText_code.
  - intros p. apply CodeFacts.extractCodeFromText_pre.
  - apply CodeFacts.extractCodeFromText_none.
  - intros c.
    assert (Hlong : forall x, Spec.longer_than_5 x = Some c -> 5 < String.length c).
    { intros x. unfold Spec.longer_than_5.
      destruct (5 <? String.length x) eqn:Hx; [|discriminate].
      intros [= <-]. apply Nat.ltb_lt, Hx. }
    destruct (Spec.first_code html) as [x|] eqn:Hcode.
    + rewrite (CodeFacts.extractCodeFromText_code _ _ Hcode). apply Hlong.
    + destruct (Spec.first_pre html) as [x|] eqn:Hpre.
      * rewrite (CodeFacts.extractCodeFromText_pre _ _ Hcode Hpre). apply Hlong.
      * rewrite (CodeFacts.extractCodeFromText_none _ Hcode Hpre). discriminate.
Qed.

(** A fragment with a long [<code>] element, one with a short [<code>]
    element before a long [<pre>] block, one with a [<pre>] block only and
    one with neither. *)
Lemma C4_fragments :
  Utils.extractCodeFromText "<code>aws s3 ls</code><pre>long code here</pre>"
    = Some "aws s3 ls" /\
  Utils.extractCodeFromText "<code>ab</code><pre>long code here</pre>" = None /\
  Utils.extractCodeFromText "<p>see</p><pre>long code here</pre>" = Some "long code here" /\
  Utils.extractCodeFromText "<p>nothing here</p>" = None /\
  5 < String.length "aws s3 ls".
Proof.
  pose proof (C4_first_code_element_decides
                "<code>aws s3 ls</code><pre>long code here</pre>") as (H1 & _ & _ & H4).
  pose proof (C4_first_code_element_decides
                "<code>ab</code><pre>long code here</pre>") as (H2 & _).
  pose proof (C4_first_code_element_decides
                "<p>see</p><pre>long code here</pre>") as (_ & H3 & _).
  pose proof (C4_first_code_element_decides "<p>nothing here</p>") as (_ & _ & H5 & _).
  split; [|split; [|split; [|split]]].
  - apply (H1 "aws s3 ls"). vm_compute. reflexivity.
  - apply (H2 "ab"). vm_compute. reflexivity.
  - apply (H3 "long code here"); vm_compute; reflexivity.
  - apply H5; vm_compute; reflexivity.
  - apply H4. apply (H1 "aws s3 ls"). vm_compute. reflexivity.
Defined.

(** C4 as stated fails: the first [<code>] element of this fragment cleans
    to 2 characters and its [<pre>] block to 14, and absent is returned, not
    the text of the [<pre>] block. *)
Lemma C4_short_code_hides_pre :
  let html := "<code>ab</code><pre>long code here</pre>" in
  Spec.first_code html = Some "ab" /\
  Spec.first_pre html = Some "long code here" /\
  String.length "ab" <= 5 /\
  5 < String.length "long code here" /\
  Utils.extractCodeFromText html = None /\
  Utils.extractCodeFromText html <> Some "long code here".
Proof.
  vm_compute. repeat split; try reflexivity; try lia; discriminate.
Qed.

(** C5, as amended.  The inline pass of the multi-match extractor makes one
    example, with the language guessed from its content, for every [<code>]
    element whose tag-stripped trimmed text is longer than 20 characters and
    contains a space, in document order, after the examples of the [<pre>]
    blocks; a [<code>] element without a space in its text makes none. *)
Theorem C5_inline_examples_need_a_space :
  forall html : string,
    Utils.extractCodeExamples html =
    Spec.pre_examples html ++
    map Spec.inline_example
        (List.filter (fun c => (20 <? String.length c) && Js.includes c " ")
                     (Spec.code_elements html)).
Proof.
  intros html. unfold Utils.extractCodeExamples. cbv zeta.
  apply CodeFacts.fold_push_code_example.
Qed.

(** C5 as stated fails: this [<code>] element cleans to 25 characters, more
    than 20, and no example is made from it. *)
Lemma C5_long_code_without_space :
  let html := "<code>arn:aws:iam::123456789012</code>" in
  Spec.code_elements html = ["arn:aws:iam::123456789012"] /\
  20 < String.length "arn:aws:iam::123456789012" /\
  Utils.extractCodeExamples html = [].
Proof.
  vm_compute. repeat split; try reflexivity; lia.
Qed.

(** ** The claims about the parser *)

(** C8.  The category of every parsed page is the one of the first rule
    that matches, among the substring rules on the lower-cased URL and title
    taken in the order access-denied, permissions, authentication,
    configuration, and [GENERAL] when none matches.  In particular, of a
    permissions substring and a configuration substring that are both
    present it is the permissions one that decides: the category is never
    [CONFIGURATION], and it is [PERMISSIONS] unless the rule before it in
    the order, access-denied, has matched; whenever an access-denied
    substring is present the category is [ACCESS_DENIED]. *)
Theorem C8_category_first_match_wins :
  forall html url pageTitle : string, forall now : Z,
    category (Api.parse_page html url now)
      = Api.classify url (title (Api.parse_page html url now)) /\
    Api.classify url pageTitle = Spec.first_match Spec.category_rules url pageTitle /\
    (Spec.access_denied_rule url pageTitle = false ->
     Spec.permissions_rule url pageTitle = false ->
     Spec.authentication_rule url pageTitle = false ->
     Spec.configuration_rule url pageTitle = false ->
     Api.classify url pageTitle = GENERAL) /\
    (Spec.access_denied_rule url pageTitle = false ->
     Spec.permissions_rule url pageTitle = true ->
     Spec.configuration_rule url pageTitle = true ->
     Api.classify url pageTitle = PERMISSIONS) /\
    (Spec.access_denied_rule url pageTitle = true ->
     Api.classify url pageTitle = ACCESS_DENIED) /\
    (Spec.permissions_rule url pageTitle = true ->
     Api.classify url pageTitle <> CONFIGURATION /\
     Api.classify url pageTitle <> AUTHENTICATION /\
     Api.classify url pageTitle <> GENERAL).
Proof.
  intros html url pageTitle0 now.
  split; [reflexivity|]. split; [reflexivity|]. split.
  - unfold Spec.access_denied_rule, Spec.permissions_rule, Spec.authentication_rule,
      Spec.configuration_rule, Api.classify.
    intros -> -> -> ->. reflexivity.
  - split; [|split].
    + unfold Spec.access_denied_rule, Spec.permissions_rule, Api.classify.
      intros -> -> _. reflexivity.
    + unfold Spec.access_denied_rule, Api.classify. intros ->. reflexivity.
    + unfold Spec.permissions_rule, Api.classify. intros ->.
      destruct (_ || _); repeat split; discriminate.
Qed.

(** A page that matches no rule, a page whose title has a permissions and a
    configuration substring, and the same title under an access-denied
    URL. *)
Lemma C8_pages :
  Api.classify "https://docs.aws.amazon.com/lambda/latest/dg/troubleshoot.html"
               "Troubleshooting Lambda" = GENERAL /\
  Api.classify "https://docs.aws.amazon.com/IAM/latest/UserGuide/troubleshoot.html"
               "Permission configuration errors" = PERMISSIONS /\
  Api.classify
    "https://docs.aws.amazon.com/IAM/latest/UserGuide/troubleshoot-access-denied.html"
    "Permission configuration errors" = ACCESS_DENIED.
Proof.
  split.
  - apply (proj1 (proj2 (proj2 (C8_category_first_match_wins "" _ _ 0%Z))));
      vm_compute; reflexivity.
  - split.
    + apply (proj1 (proj2 (proj2 (proj2 (C8_category_first_match_wins "" _ _ 0%Z)))));
        vm_compute; reflexivity.
    + apply (proj1 (proj2 (proj2 (proj2 (proj2 (C8_category_first_match_wins "" _ _ 0%Z))))));
        vm_compute; reflexivity.
Defined.

(** ** The cache, the fetcher and the search *)

Module ApiFacts.
Import Api Spec.

(** Unfolding of the monad and of the primitive effects. *)
Ltac run_monad :=
  unfold bind, ret, throw, try_catch, cache_get, cache_set, Date_now, fetch,
    response_text, parseAwsDocumentationHtml in *;
  cbn beta iota zeta in *.

Lemma fetch_and_store_cases (E : Env) (url : string) (w : World) :
  fetch_and_store E url w =
  match fetched_page E url w with
  | Some c => (Returned (Some c), stored E url c w)
  | None => (Returned None, requested url w)
  end.
Proof.
  unfold fetch_and_store, fetched_page, stored, requested. run_monad.
  destruct (network E (requests w) url) as [|status [html|]]; cbn.
  - reflexivity.
  - destruct (response_ok status); cbn.
    + destruct (parser_fault E html url); reflexivity.
    + destruct (status =? 404)%Z; reflexivity.
  - destruct (response_ok status); cbn; [reflexivity|].
    destruct (status =? 404)%Z; reflexivity.
Qed.

(** The fetcher, case by case: a fresh entry is served from the cache; else
    one request is made, and its record, if any, is stored. *)
Lemma fetchAwsDocContent_cases (E : Env) (url : string) (w : World) :
  fetchAwsDocContent E url w =
  match fresh_entry E url w with
  | Some c => (Returned (Some c), checked url w)
  | None =>
      match fetched_page E url (checked url w) with
      | Some c => (Returned (Some c), stored E url c (checked url w))
      | None => (Returned None, requested url (checked url w))
      end
  end.
Proof.
  unfold fetchAwsDocContent, fresh_entry, checked, bind, cache_get, ret, Date_now.
  destruct (contentCache w !! url) as [entry|]; cbn.
  - destruct (clock E (ticks w) - timestamp entry <? CACHE_TTL)%Z; [reflexivity|].
    apply fetch_and_store_cases.
  - apply fetch_and_store_cases.
Qed.

Lemma requests_checked (url : string) (w : World) : requests (checked url w) = requests w.
Proof. unfold checked. destruct (contentCache w !! url); reflexivity. Qed.

Lemma contentCache_checked (url : string) (w : World) :
  contentCache (checked url w) = contentCache w.
Proof. unfold checked. destruct (contentCache w !! url); reflexivity. Qed.

Lemma slice0_length {A} (xs : list A) (n : Z) :
  (0 <= n)%Z -> (Z.of_nat (length (slice0 xs n)) <= n)%Z.
Proof.
  intros Hn. unfold slice0.
  destruct (n <? 0)%Z eqn:Hneg; [apply Z.ltb_lt in Hneg; lia|].
  rewrite length_firstn. lia.
Qed.

(** The service loop always returns, and never holds more results than the
    cap (or than it started with). *)
Lemma search_services_bound (E : Env) (query : string)
  (categoryFilter : option TroubleshootingCategory) (maxResults : Z)
  (services : list string) :
  forall results w,
    (Z.of_nat (length results) <= Z.max 0 maxResults)%Z ->
    exists out w',
      search_services E services query categoryFilter maxResults results w = (Returned out, w') /\
      (Z.of_nat (length out) <= Z.max 0 maxResults)%Z.
Proof.
  induction services as [|service services IH]; intros results w Hlen; cbn [search_services].
  - exists results, w. split; [reflexivity|exact Hlen].
  - destruct (Z.of_nat (length results) >=? maxResults)%Z eqn:Hfull.
    + exists results, w. split; [reflexivity|exact Hlen].
    + destruct (object_index AWS_SERVICE_PATTERNS service) as [servicePattern|].
      * unfold bind at 1. unfold try_catch, bind, ret.
        destruct (searchServiceDocs E service servicePattern query categoryFilter w)
          as [[serviceDocs|e] w1].
        -- apply IH. rewrite length_app, Nat2Z.inj_add.
           rewrite Z.geb_leb in Hfull. apply Z.leb_gt in Hfull.
           pose proof (slice0_length serviceDocs (maxResults - Z.of_nat (length results))).
           lia.
        -- apply IH, Hlen.
      * apply IH, Hlen.
Qed.

(** A call that returns a record after a request has stored it: the
    timestamp of the entry is the last reading of the clock in the call. *)
Lemma stored_by_fetch (E : Env) (url : string) (w w1 : World) (c : CloudProviderContent) :
  fetchAwsDocContent E url w = (Returned (Some c), w1) ->
  requests w1 = requests w ++ [url] ->
  ticks w + 2 <= ticks w1 /\
  contentCache w1 = <[url := mkEntry c (clock E (ticks w1 - 1))]> (contentCache w).
Proof.
  rewrite fetchAwsDocContent_cases.
  pose proof (requests_checked url w) as Hreq.
  pose proof (contentCache_checked url w) as Hcache.
  assert (Hticks : ticks w <= ticks (checked url w)).
  { unfold checked. destruct (contentCache w !! url); cbn; lia. }
  destruct (fresh_entry E url w) as [c0|].
  { intros [= <- <-] Hsame. rewrite Hreq in Hsame.
    apply (f_equal (@length string)) in Hsame. rewrite length_app in Hsame.
    cbn in Hsame. lia. }
  destruct (fetched_page E url (checked url w)) as [c0|]; [|discriminate].
  intros [= <- <-] _. unfold stored. cbn [ticks contentCache].
  rewrite Hcache. split; [lia|]. rewrite Nat.sub_1_r. reflexivity.
Qed.

(** A lookup of a URL that has an entry: served while the entry is fresh,
    fetched again once the TTL has elapsed, the entry never removed. *)
Lemma lookup_cases (E : Env) (url : string) (entry : CacheEntry) (w : World) :
  contentCache w !! url = Some entry ->
  ((clock E (ticks w) - timestamp entry < CACHE_TTL)%Z ->
   fetchAwsDocContent E url w = (Returned (Some (content entry)), tick w)) /\
  ((CACHE_TTL <= clock E (ticks w) - timestamp entry)%Z ->
   requests (snd (fetchAwsDocContent E url w)) = requests w ++ [url] /\
   fst (fetchAwsDocContent E url w)
   = fst (fetchAwsDocContent E url
            (mkWorld (delete url (contentCache w)) (S (ticks w)) (requests w))) /\
   contentCache (snd (fetchAwsDocContent E url w)) !! url <> None /\
   (contentCache (snd (fetchAwsDocContent E url w)) = contentCache w \/
    exists c t, fst (fetchAwsDocContent E url w) = Returned (Some c) /\
                contentCache (snd (fetchAwsDocContent E url w))
                = <[url := mkEntry c t]> (contentCache w))).
Proof.
  intros Hentry.
  rewrite !fetchAwsDocContent_cases.
  unfold fresh_entry, checked. rewrite Hentry.
  cbn [contentCache ticks requests]. rewrite lookup_delete_eq.
  split.
  - intros Hfresh. apply Z.ltb_lt in Hfresh. rewrite Hfresh. reflexivity.
  - intros Hstale. apply Z.ltb_ge in Hstale. rewrite Hstale.
    unfold fetched_page, tick. cbn [contentCache ticks requests].
    destruct (network E (requests w) url) as [|status [html|]];
      try (cbn; rewrite Hentry; repeat split; auto; discriminate).
    destruct (response_ok status && negb (parser_fault E html url)).
    + cbn. rewrite lookup_insert_eq. repeat split; [discriminate|]. right. eauto.
    + cbn. rewrite Hentry. repeat split; auto; discriminate.
Qed.

Lemma object_get_None (o : list (string * string)) (key : string) :
  ~ In key (object_keys o) -> object_get o key = None.
Proof.
  induction o as [|[k v] o IH]; simpl; [reflexivity|].
  intros Hkey. destruct (String.eqb_spec k key) as [->|_]; [tauto|].
  apply IH. tauto.
Qed.

Lemma lower_char_not_upper : forall a, negb (Js.is_upper (Js.lower_char a)) = true.
Proof. UtilsFacts.ascii_cases. Qed.

(** A lower-cased string holds no capital A-Z. *)
Lemma toLowerCase_no_upper (s : string) :
  string_forall (fun a => negb (Js.is_upper a)) (Js.toLowerCase s) = true.
Proof.
  induction s as [|a s IH]; [reflexivity|].
  cbn [Js.toLowerCase string_forall]. rewrite lower_char_not_upper, IH. reflexivity.
Qed.

(** Of the inherited property names only [constructor] and [__proto__]
    are lower-cased strings. *)
Lemma lowered_not_inherited (name : string) :
  ~ In (Js.toLowerCase name) ["constructor"; "__proto__"] ->
  object_get Object_prototype (Js.toLowerCase name) = None.
Proof.
  intros Hname. apply object_get_None. intros Hin.
  pose proof (toLowerCase_no_upper name) as Hlower.
  cbn in Hin.
  repeat (destruct Hin as [Hin|Hin];
          [first [ apply Hname; rewrite <- Hin; cbn; tauto
                 | rewrite <- Hin in Hlower; vm_compute in Hlower; discriminate Hlower ]|]).
  exact Hin.
Qed.

(** The lookup of a service that is neither known nor inherited. *)
Lemma object_index_None (name : string) :
  ~ In (Js.toLowerCase name) (object_keys AWS_SERVICE_PATTERNS) ->
  ~ In (Js.toLowerCase name) ["constructor"; "__proto__"] ->
  object_index AWS_SERVICE_PATTERNS (Js.toLowerCase name) = None.
Proof.
  intros Hknown Hinherited. unfold object_index.
  rewrite (object_get_None _ _ Hknown). apply lowered_not_inherited, Hinherited.
Qed.

(** The captures that the parser reads without a test are set in every
    match of their pattern. *)
Lemma parser_groups_defined (r : RegExp.regex) (i : nat) (s : string) (m : RegExp.Match)
  (name heading : string) (level : nat) :
  In (r, i) [(title_re, 1); (meta_re name, 1); (service_re, 1); (main_content_re, 1);
             (heading_re, 1); (heading_re, 2); (sectionContentRegex level heading, 1)] ->
  In m (RegExp.matchAll r s) \/ RegExp.js_match r s = Some m ->
  RegExp.group m i <> None.
Proof.
  intros Hr Hm.
  assert (He : exists s0, RegExp.exec_here r s0 = Some m).
  { destruct Hm as [Hm|Hm];
      [eapply RegExpFacts.matchAll_exec, Hm|eapply RegExpFacts.js_match_exec, Hm]. }
  destruct He as [s0 He]. cbn [In] in Hr.
  destruct Hr as [[= <- <-]|[[= <- <-]|[[= <- <-]|[[= <- <-]|
                  [[= <- <-]|[[= <- <-]|[[= <- <-]|[]]]]]]]].
  - eapply (RegExpFacts.exec_cat_group_set 1 _ [_] [_]); [|exact He]. vm_compute. tauto.
  - eapply (RegExpFacts.exec_cat_group_set 1 _ [_; _; _; _; _; _] [_]); [|exact He].
    vm_compute. tauto.
  - eapply (RegExpFacts.exec_cat_group_set 1 _ [_] []); [|exact He]. vm_compute. tauto.
  - eapply (RegExpFacts.exec_cat_group_set 1 _ [_; _; _; _; _; _; _; _] [_]); [|exact He].
    vm_compute. tauto.
  - eapply (RegExpFacts.exec_cat_group_set 1 _ [_] [_; _; _; _; _; _; _]); [|exact He].
    vm_compute. intros [H|H]; [discriminate|exact H].
  - eapply (RegExpFacts.exec_cat_group_set 2 _ [_; _; _; _; _] [_; _; _]); [|exact He].
    vm_compute. tauto.
  - eapply (RegExpFacts.exec_cat_group_set 1 _ [_; _; _; _; _; _; _; _] [_]); [|exact He].
    vm_compute. tauto.
Qed.
End ApiFacts.

(** ** The claims about the cache and the search *)

(** C1. For every search request whose provider is not aws,
    [searchCloudProviderDocs] returns normally, with an empty result list,
    [totalResults] 0 and a non-empty error string; it makes no request and
    leaves the cache as it is. *)
Theorem C1_unsupported_provider_is_an_error_string :
  forall (E : Api.Env) (searchRequest : CloudProviderSearchRequest) (w : Api.World),
    req_provider searchRequest <> AWS ->
    exists response message,
      fst (Api.searchCloudProviderDocs E searchRequest w) = Api.Returned response /\
      results response = [] /\
      totalResults response = 0 /\
      error response = Some message /\
      message <> EmptyString /\
      Api.requests (snd (Api.searchCloudProviderDocs E searchRequest w)) = Api.requests w /\
      Api.contentCache (snd (Api.searchCloudProviderDocs E searchRequest w))
        = Api.contentCache w.
Proof.
  intros E searchRequest w Hprovider.
  unfold Api.searchCloudProviderDocs, Api.bind, Api.try_catch, Api.Date_now, Api.ret.
  destruct (req_provider searchRequest) eqn:Hp; [contradiction| |]; cbn;
    eexists; eexists; repeat split; discriminate.
Qed.

(** A request for azure against a network that would serve a page. *)
Lemma C1_azure :
  exists response message,
    fst (Api.searchCloudProviderDocs Sample.one_page
           (mkRequest "troubleshoot" AZURE (Some "iam") None None None)
           Sample.empty_world) = Api.Returned response /\
    results response = [] /\
    totalResults response = 0 /\
    error response = Some message /\
    message <> EmptyString /\
    Api.requests (snd (Api.searchCloudProviderDocs Sample.one_page
           (mkRequest "troubleshoot" AZURE (Some "iam") None None None)
           Sample.empty_world)) = [] /\
    Api.contentCache (snd (Api.searchCloudProviderDocs Sample.one_page
           (mkRequest "troubleshoot" AZURE (Some "iam") None None None)
           Sample.empty_world)) = ∅.
Proof.
  apply (C1_unsupported_provider_is_an_error_string Sample.one_page
           (mkRequest "troubleshoot" AZURE (Some "iam") None None None) Sample.empty_world).
  simpl. discriminate.
Defined.

(** C10. [fetchAwsDocContent] always returns.  When the request fails (the
    network fails, the status is not 2xx -- 404 or another --, the body
    cannot be read) or the parser yields nothing, the content cache is left
    exactly as it was.  The cache changes only by the entry of the requested
    URL being set to the record parsed from an ok response, which is then
    the value returned. *)
Theorem C10_cache_unchanged_on_failure :
  forall (E : Api.Env) (url : string) (w : Api.World),
    let outcome := Api.network E (Api.requests w) url in
    let run := Api.fetchAwsDocContent E url w in
    (exists r, fst run = Api.Returned r) /\
    (outcome = Api.NetworkError -> Api.contentCache (snd run) = Api.contentCache w) /\
    (forall status body,
        outcome = Api.Response status body -> Api.response_ok status = false ->
        Api.contentCache (snd run) = Api.contentCache w) /\
    (forall status,
        outcome = Api.Response status None -> Api.contentCache (snd run) = Api.contentCache w) /\
    (forall status html,
        outcome = Api.Response status (Some html) -> Api.parser_fault E html url = true ->
        Api.contentCache (snd run) = Api.contentCache w) /\
    (Api.contentCache (snd run) <> Api.contentCache w ->
     exists status html c t,
       outcome = Api.Response status (Some html) /\
       Api.response_ok status = true /\
       Api.parser_fault E html url = false /\
       fst run = Api.Returned (Some c) /\
       Api.contentCache (snd run) = <[url := Api.mkEntry c t]> (Api.contentCache w)).
Proof.
  intros E url w outcome run. subst outcome run.
  assert (Hsame : forall (outcome : Api.FetchOutcome)
                          (r : option CloudProviderContent) (w' : Api.World),
             Api.contentCache w' = Api.contentCache w ->
             let run := (Api.Returned r, w') in
             (exists r, fst run = Api.Returned r) /\
             (outcome = Api.NetworkError -> Api.contentCache (snd run) = Api.contentCache w) /\
             (forall status body,
                 outcome = Api.Response status body -> Api.response_ok status = false ->
                 Api.contentCache (snd run) = Api.contentCache w) /\
             (forall status,
                 outcome = Api.Response status None ->
                 Api.contentCache (snd run) = Api.contentCache w) /\
             (forall status html,
                 outcome = Api.Response status (Some html) ->
                 Api.parser_fault E html url = true ->
                 Api.contentCache (snd run) = Api.contentCache w) /\
             (Api.contentCache (snd run) <> Api.contentCache w ->
              exists status html c t,
                outcome = Api.Response status (Some html) /\
                Api.response_ok status = true /\
                Api.parser_fault E html url = false /\
                fst run = Api.Returned (Some c) /\
                Api.contentCache (snd run) = <[url := Api.mkEntry c t]> (Api.contentCache w))).
  { intros outcome r w' Hw'. cbn [fst snd]. split; [eauto|].
    do 4 (split; [intros; exact Hw'|]). intros H. exfalso. apply H, Hw'. }
  rewrite ApiFacts.fetchAwsDocContent_cases.
  destruct (Spec.fresh_entry E url w) as [c|].
  { apply Hsame, ApiFacts.contentCache_checked. }
  unfold Spec.fetched_page. rewrite ApiFacts.requests_checked.
  destruct (Api.network E (Api.requests w) url) as [|status [html|]] eqn:Hnet.
  - apply Hsame, ApiFacts.contentCache_checked.
  - destruct (Api.response_ok status) eqn:Hok;
      [destruct (Api.parser_fault E html url) eqn:Hfault|]; cbn [andb negb].
    + apply Hsame, ApiFacts.contentCache_checked.
    + cbn [fst snd Spec.stored Api.contentCache]. rewrite ApiFacts.contentCache_checked.
      split; [eauto|]. split; [discriminate|].
      split; [intros status0 body [= <- <-] Hnok; rewrite Hok in Hnok; discriminate|].
      split; [intros status0 H; discriminate H|].
      split; [intros status0 html0 [= <- <-] Hf; rewrite Hfault in Hf; discriminate|].
      intros _. exists status, html. eexists. eexists.
      split; [reflexivity|]. split; [exact Hok|]. split; [exact Hfault|].
      split; reflexivity.
    + apply Hsame, ApiFacts.contentCache_checked.
  - apply Hsame, ApiFacts.contentCache_checked.
Qed.

(** The failures one by one, against an empty cache, and a successful
    request. *)
Lemma C10_samples :
  Api.contentCache (snd (Api.fetchAwsDocContent (Sample.always Api.NetworkError)
                           Sample.iam_url Sample.empty_world)) = ∅ /\
  Api.contentCache (snd (Api.fetchAwsDocContent (Sample.always (Api.Response 404 None))
                           Sample.iam_url Sample.empty_world)) = ∅ /\
  Api.contentCache (snd (Api.fetchAwsDocContent
                           (Sample.always (Api.Response 500 (Some "Internal Server Error")))
                           Sample.iam_url Sample.empty_world)) = ∅ /\
  Api.contentCache (snd (Api.fetchAwsDocContent (Sample.always (Api.Response 200 None))
                           Sample.iam_url Sample.empty_world)) = ∅ /\
  Api.contentCache (snd (Api.fetchAwsDocContent Sample.failing_parser
                           Sample.iam_url Sample.empty_world)) = ∅ /\
  exists status html c t,
    Api.network Sample.one_page [] Sample.iam_url = Api.Response status (Some html) /\
    Api.response_ok status = true /\
    Api.parser_fault Sample.one_page html Sample.iam_url = false /\
    fst (Api.fetchAwsDocContent Sample.one_page Sample.iam_url Sample.empty_world)
      = Api.Returned (Some c) /\
    Api.contentCache (snd (Api.fetchAwsDocContent Sample.one_page Sample.iam_url
                             Sample.empty_world))
      = <[Sample.iam_url := Api.mkEntry c t]> ∅.
Proof.
  split; [|split; [|split; [|split; [|split]]]].
  - apply (proj1 (proj2 (C10_cache_unchanged_on_failure
                           (Sample.always Api.NetworkError) Sample.iam_url Sample.empty_world))).
    reflexivity.
  - apply (proj1 (proj2 (proj2 (C10_cache_unchanged_on_failure
                           (Sample.always (Api.Response 404 None))
                           Sample.iam_url Sample.empty_world))) 404%Z None);
      reflexivity.
  - apply (proj1 (proj2 (proj2 (C10_cache_unchanged_on_failure
                           (Sample.always (Api.Response 500 (Some "Internal Server Error")))
                           Sample.iam_url Sample.empty_world)))
             500%Z (Some "Internal Server Error"));
      reflexivity.
  - apply (proj1 (proj2 (proj2 (proj2 (C10_cache_unchanged_on_failure
                           (Sample.always (Api.Response 200 None))
                           Sample.iam_url Sample.empty_world)))) 200%Z).
    reflexivity.
  - apply (proj1 (proj2 (proj2 (proj2 (proj2 (C10_cache_unchanged_on_failure
                           Sample.failing_parser Sample.iam_url Sample.empty_world)))))
             200%Z Sample.iam_page);
      reflexivity.
  - apply (proj2 (proj2 (proj2 (proj2 (proj2 (C10_cache_unchanged_on_failure
                           Sample.one_page Sample.iam_url Sample.empty_world)))))).
    intros H.
    apply (f_equal (fun cache : gmap string Api.CacheEntry =>
                      match cache !! Sample.iam_url with Some _ => true | None => false end))
      in H.
    vm_compute in H. discriminate H.
Defined.

(** C2.  The only store of the cache is the one [fetchAwsDocContent] makes
    after a request that brought back a record: the record is put under its
    URL with the reading of the clock made at that moment, the last reading
    of the call, as its timestamp.  From then on, as long as the entry is
    there, a lookup whose own reading of the clock is less than the TTL of
    12 hours after that timestamp returns the stored record, makes no
    request and leaves the cache as it is.  Once the TTL has elapsed the
    entry is treated as absent: one request is made and the result is the
    one obtained with the entry deleted; the expired entry is not removed,
    the cache being either unchanged or changed only by the entry of the
    URL being overwritten with the newly parsed record. *)
Theorem C2_cache_entry_served_within_ttl :
  forall (E : Api.Env) (url : string) (w w1 : Api.World) (c : CloudProviderContent),
    Api.fetchAwsDocContent E url w = (Api.Returned (Some c), w1) ->
    Api.requests w1 = Api.requests w ++ [url] ->
    let storedAt := Api.clock E (Api.ticks w1 - 1) in
    Api.CACHE_TTL = (12 * 60 * 60 * 1000)%Z /\
    Api.ticks w + 2 <= Api.ticks w1 /\
    Api.contentCache w1 = <[url := Api.mkEntry c storedAt]> (Api.contentCache w) /\
    forall w2 : Api.World,
      Api.contentCache w2 !! url = Some (Api.mkEntry c storedAt) ->
      let now := Api.clock E (Api.ticks w2) in
      let run := Api.fetchAwsDocContent E url w2 in
      ((now - storedAt < Api.CACHE_TTL)%Z ->
       run = (Api.Returned (Some c), Spec.tick w2)) /\
      ((Api.CACHE_TTL <= now - storedAt)%Z ->
       Api.requests (snd run) = Api.requests w2 ++ [url] /\
       fst run = fst (Api.fetchAwsDocContent E url
                        (Api.mkWorld (delete url (Api.contentCache w2))
                                     (S (Api.ticks w2)) (Api.requests w2))) /\
       Api.contentCache (snd run) !! url <> None /\
       (Api.contentCache (snd run) = Api.contentCache w2 \/
        exists c' t, fst run = Api.Returned (Some c') /\
                     Api.contentCache (snd run)
                       = <[url := Api.mkEntry c' t]> (Api.contentCache w2))).
Proof.
  intros E url w w1 c Hrun Hrequest storedAt. subst storedAt.
  destruct (ApiFacts.stored_by_fetch E url w w1 c Hrun Hrequest) as [Hticks Hcache].
  split; [reflexivity|]. split; [exact Hticks|]. split; [exact Hcache|].
  intros w2 Hentry. exact (ApiFacts.lookup_cases E url _ w2 Hentry).
Qed.

(** The sample page is fetched into an empty cache, with a clock that
    advances by a second per reading and with one that advances by the TTL
    per reading: the entry is served by the next call in the first case and
    fetched again, and kept, in the second. *)
Lemma C2_samples :
  Api.fetchAwsDocContent Sample.one_page Sample.iam_url (Sample.stored_world 1000)
    = (Api.Returned (Some Sample.iam_record), Spec.tick (Sample.stored_world 1000)) /\
  Api.requests (snd (Api.fetchAwsDocContent Sample.slow_clock Sample.iam_url
                       (Sample.stored_world Api.CACHE_TTL)))
    = [Sample.iam_url; Sample.iam_url] /\
  Api.contentCache (snd (Api.fetchAwsDocContent Sample.slow_clock Sample.iam_url
                           (Sample.stored_world Api.CACHE_TTL))) !! Sample.iam_url <> None.
Proof.
  destruct (C2_cache_entry_served_within_ttl Sample.one_page Sample.iam_url
              Sample.empty_world (Sample.stored_world 1000) Sample.iam_record)
    as (_ & _ & _ & Hfresh); [vm_compute; reflexivity|reflexivity|].
  destruct (C2_cache_entry_served_within_ttl Sample.slow_clock Sample.iam_url
              Sample.empty_world (Sample.stored_world Api.CACHE_TTL) Sample.iam_record)
    as (_ & _ & _ & Hstale); [vm_compute; reflexivity|reflexivity|].
  specialize (Hfresh (Sample.stored_world 1000) (lookup_insert_eq _ _ _)).
  specialize (Hstale (Sample.stored_world Api.CACHE_TTL) (lookup_insert_eq _ _ _)).
  destruct Hfresh as [Hfresh _]. destruct Hstale as [_ Hstale].
  split.
  - apply Hfresh. vm_compute. reflexivity.
  - destruct Hstale as (Hreq & _ & Hkept & _).
    + vm_compute. discriminate.
    + split; [exact Hreq|exact Hkept].
Defined.

(** C3, as amended.  [searchAwsDocs] always returns, and [totalResults] is
    the length of the returned result list.  The list has at most
    [maxResults] entries when [maxResults] is a positive integer, and at
    most 10 when it is unspecified or 0 (a zero is taken for an unspecified
    value); it is empty when [maxResults] is negative. *)
Theorem C3_results_capped_by_effective_maxResults :
  forall (E : Api.Env) (searchRequest : CloudProviderSearchRequest)
         (startTime : Z) (w : Api.World),
  exists response,
    fst (Api.searchAwsDocs E searchRequest startTime w) = Api.Returned response /\
    totalResults response = length (results response) /\
    (req_maxResults searchRequest = None -> length (results response) <= 10) /\
    (req_maxResults searchRequest = Some 0%Z -> length (results response) <= 10) /\
    (forall n, req_maxResults searchRequest = Some n -> (0 < n)%Z ->
               (Z.of_nat (length (results response)) <= n)%Z) /\
    (forall n, req_maxResults searchRequest = Some n -> (n < 0)%Z ->
               results response = []).
Proof.
  intros E searchRequest startTime w. unfold Api.searchAwsDocs.
  destruct (ApiFacts.search_services_bound E (req_query searchRequest)
              (req_category searchRequest)
              (Api.effective_maxResults (req_maxResults searchRequest))
              (Api.servicesToSearch (req_service searchRequest)) [] w)
    as (out & w' & Hrun & Hlen); [simpl; lia|].
  unfold Api.bind at 1. rewrite Hrun. cbn.
  eexists. split; [reflexivity|]. cbn [results totalResults].
  split; [reflexivity|].
  split; [intros Hmax; rewrite Hmax in Hlen; cbn in Hlen; lia|].
  split; [intros Hmax; rewrite Hmax in Hlen; cbn in Hlen; lia|].
  split.
  - intros n Hmax Hn. rewrite Hmax in Hlen.
    destruct n as [|p|p]; [lia| |lia]. cbn [Api.effective_maxResults] in Hlen. lia.
  - intros n Hmax Hn. rewrite Hmax in Hlen.
    destruct n as [|p|p]; [lia|lia|]. cbn [Api.effective_maxResults] in Hlen.
    destruct out; [reflexivity|]. cbn [length] in Hlen. lia.
Qed.

(** A search capped at 1 over a network that serves one matching page, and
    the same search with no cap, with a zero cap and with a negative cap. *)
Lemma C3_samples :
  exists r1 r2 r3 r4,
    fst (Api.searchAwsDocs Sample.one_page
           (mkRequest "troubleshoot" AWS (Some "iam") None None (Some 1%Z)) 0
           Sample.empty_world) = Api.Returned r1 /\
    (Z.of_nat (length (results r1)) <= 1)%Z /\
    fst (Api.searchAwsDocs Sample.one_page
           (mkRequest "troubleshoot" AWS (Some "iam") None None None) 0
           Sample.empty_world) = Api.Returned r2 /\
    length (results r2) <= 10 /\
    fst (Api.searchAwsDocs Sample.one_page
           (mkRequest "troubleshoot" AWS (Some "iam") None None (Some 0%Z)) 0
           Sample.empty_world) = Api.Returned r3 /\
    length (results r3) <= 10 /\
    fst (Api.searchAwsDocs Sample.one_page
           (mkRequest "troubleshoot" AWS (Some "iam") None None (Some (-1)%Z)) 0
           Sample.empty_world) = Api.Returned r4 /\
    results r4 = [].
Proof.
  destruct (C3_results_capped_by_effective_maxResults Sample.one_page
              (mkRequest "troubleshoot" AWS (Some "iam") None None (Some 1%Z)) 0
              Sample.empty_world) as (r1 & Hr1 & _ & _ & _ & Hcap1 & _).
  destruct (C3_results_capped_by_effective_maxResults Sample.one_page
              (mkRequest "troubleshoot" AWS (Some "iam") None None None) 0
              Sample.empty_world) as (r2 & Hr2 & _ & Hcap2 & _).
  destruct (C3_results_capped_by_effective_maxResults Sample.one_page
              (mkRequest "troubleshoot" AWS (Some "iam") None None (Some 0%Z)) 0
              Sample.empty_world) as (r3 & Hr3 & _ & _ & Hcap3 & _).
  destruct (C3_results_capped_by_effective_maxResults Sample.one_page
              (mkRequest "troubleshoot" AWS (Some "iam") None None (Some (-1)%Z)) 0
              Sample.empty_world) as (r4 & Hr4 & _ & _ & _ & _ & Hcap4).
  exists r1, r2, r3, r4.
  split; [exact Hr1|]. split; [apply (Hcap1 1%Z); [reflexivity|lia]|].
  split; [exact Hr2|]. split; [apply Hcap2; reflexivity|].
  split; [exact Hr3|]. split; [apply Hcap3; reflexivity|].
  split; [exact Hr4|]. apply (Hcap4 (-1)%Z); [reflexivity|lia].
Defined.

(** C3 as stated fails: with [maxResults] 0 this search returns one
    result, more than [maxResults]. *)
Lemma C3_zero_maxResults_returns_a_result :
  let searchRequest := mkRequest "troubleshoot" AWS (Some "iam") None None (Some 0%Z) in
  exists response,
    fst (Api.searchAwsDocs Sample.one_page searchRequest 0 Sample.empty_world)
      = Api.Returned response /\
    req_maxResults searchRequest = Some 0%Z /\
    length (results response) = 1 /\
    totalResults response = 1 /\
    ~ (Z.of_nat (length (results response)) <= 0)%Z.
Proof.
  cbv zeta. eexists. split; [vm_compute; reflexivity|].
  cbn [results totalResults length req_maxResults]. repeat split. lia.
Qed.



(** The service named Constructor is not one of the eight known services,
    and it is not skipped: the table of services answers the inherited
    property [constructor], seven addresses are built from its text and
    requested, and with a server that answers each of them with the sample
    page the search returns seven records. *)
Lemma inherited_service_is_searched :
  let searchRequest := mkRequest "iam" AWS (Some "Constructor") None None None in
  let E := Sample.always (Api.Response 200 (Some Sample.iam_page)) in
  ~ In (Js.toLowerCase "Constructor") Spec.known_services /\
  length (results (Sample.returned (Api.searchAwsDocs E searchRequest 0 Sample.empty_world)))
  = 7 /\
  Api.requests (snd (Api.searchAwsDocs E searchRequest 0 Sample.empty_world))
  = map (fun page => "https://docs.aws.amazon.comfunction Object() { [native code] }" +:+ page)
        Api.troubleshootingPatterns.
Proof.
  cbv zeta. split; [vm_compute; intuition discriminate|].
  split; vm_compute; reflexivity.
Qed.


(** ** Invariants of a search *)

Module SearchFacts.
Import Api Spec Inv.

Lemma effects_refl (urls : list string) (w : World) : effects urls w w.
Proof.
  split; [exists []; split; [symmetry; apply List.app_nil_r|apply sublist_nil_l]|].
  repeat split; auto.
Qed.

Lemma effects_trans (urls1 urls2 : list string) (w w1 w2 : World) :
  effects urls1 w w1 -> effects urls2 w1 w2 -> effects (urls1 ++ urls2) w w2.
Proof.
  intros ((x1 & Hr1 & Hs1) & Hc1 & Hk1 & Hp1) ((x2 & Hr2 & Hs2) & Hc2 & Hk2 & Hp2).
  split; [|split; [|split]].
  - exists (x1 ++ x2). split; [rewrite Hr2, Hr1, List.app_assoc; reflexivity|].
    apply sublist_app; assumption.
  - intros u Hu. rewrite Hc2, Hc1; [reflexivity| |];
      intros Hin; apply Hu, in_or_app; auto.
  - intros u Hu. apply Hk2, Hk1, Hu.
  - intros Hp. apply Hp2, Hp1, Hp.
Qed.

Lemma effects_ticked (urls : list string) (w : World) : effects urls w (tick w).
Proof. apply (effects_refl urls (tick w)). Qed.

Lemma effects_checked (url : string) (urls : list string) (w : World) :
  effects urls w (checked url w).
Proof.
  unfold checked. destruct (contentCache w !! url); [apply effects_ticked|apply effects_refl].
Qed.

Lemma parsed_cache_insert (E : Env) (url html : string) (t t' : Z) (w : World) :
  parsed_cache w ->
  parsed_cache (mkWorld (<[url := mkEntry (parse_page html url t) t']> (contentCache w))
                        (ticks w) (requests w)).
Proof.
  intros Hp u entry. cbn [contentCache].
  destruct (decide (url = u)) as [<-|Hne].
  - rewrite lookup_insert_eq. intros [= <-]. cbn. eauto.
  - rewrite lookup_insert_ne by exact Hne. apply Hp.
Qed.

Lemma fetched_page_parse (E : Env) (url : string) (w : World) (c : CloudProviderContent) :
  fetched_page E url w = Some c -> exists html, c = parse_page html url (clock E (ticks w)).
Proof.
  unfold fetched_page.
  destruct (network E (requests w) url) as [|status [html|]]; try discriminate.
  destruct (response_ok status && negb (parser_fault E html url)); [|discriminate].
  intros [= <-]. eauto.
Qed.

(** One call of the fetcher: it returns, visits only its own page, and what
    it returns, if anything, is a parse of that page when the cache is made
    of parses. *)
Lemma fetch_effects (E : Env) (url : string) (w : World) :
  exists r,
    fst (fetchAwsDocContent E url w) = Returned r /\
    effects [url] w (snd (fetchAwsDocContent E url w)) /\
    (parsed_cache w -> forall c, r = Some c -> exists html t, c = parse_page html url t).
Proof.
  rewrite ApiFacts.fetchAwsDocContent_cases.
  destruct (fresh_entry E url w) as [c|] eqn:Hfresh.
  - exists (Some c). split; [reflexivity|]. split; [apply effects_checked|].
    intros Hp c' [= <-]. unfold fresh_entry in Hfresh.
    destruct (contentCache w !! url) as [entry|] eqn:Hentry; [|discriminate].
    destruct (_ <? _)%Z; [|discriminate]. injection Hfresh as <-.
    apply (Hp url entry Hentry).
  - destruct (fetched_page E url (checked url w)) as [c|] eqn:Hpage.
    + exists (Some c). split; [reflexivity|].
      destruct (fetched_page_parse _ _ _ _ Hpage) as [html ->].
      split; [|intros _ c' [= <-]; eauto].
      cbn [snd]. unfold stored.
      pose proof (effects_checked url [url] w) as ((x & Hx & Hsub) & Hc & Hk & Hp).
      split; [|split; [|split]].
      * exists [url]. cbn [requests]. rewrite ApiFacts.requests_checked. split; reflexivity.
      * intros u Hu. cbn [contentCache].
        rewrite lookup_insert_ne by (intros ->; apply Hu; left; reflexivity).
        rewrite ApiFacts.contentCache_checked. reflexivity.
      * intros u Hu. cbn [contentCache].
        destruct (decide (url = u)) as [<-|Hne].
        -- rewrite lookup_insert_eq. discriminate.
        -- rewrite lookup_insert_ne by exact Hne.
           rewrite ApiFacts.contentCache_checked. exact Hu.
      * intros Hw u entry. cbn [contentCache].
        destruct (decide (url = u)) as [<-|Hne].
        -- rewrite lookup_insert_eq. intros [= <-]. cbn. eauto.
        -- rewrite lookup_insert_ne by exact Hne.
           rewrite ApiFacts.contentCache_checked. apply Hw.
    + exists None. split; [reflexivity|]. split; [|discriminate].
      cbn [snd]. unfold requested.
      split; [|split; [|split]].
      * exists [url]. cbn [requests]. rewrite ApiFacts.requests_checked. split; reflexivity.
      * intros u _. cbn [contentCache]. rewrite ApiFacts.contentCache_checked. reflexivity.
      * intros u Hu. cbn [contentCache]. rewrite ApiFacts.contentCache_checked. exact Hu.
      * intros Hw u entry. cbn [contentCache]. rewrite ApiFacts.contentCache_checked.
        apply Hw.
Qed.

Lemma found_in_later (page : string) (pages : list string) (query : string)
  (categoryFilter : option TroubleshootingCategory) (w w1 : World) (c : CloudProviderContent) :
  (parsed_cache w -> parsed_cache w1) ->
  found_in pages query categoryFilter w1 c ->
  found_in (page :: pages) query categoryFilter w c.
Proof.
  intros Hw [Hmatch Hparse]. split; [exact Hmatch|].
  intros Hp. destruct (Hparse (Hw Hp)) as (page' & html & t & Hin & ->).
  exists page', html, t. split; [right; exact Hin|reflexivity].
Qed.

Lemma found_in_weaken (urls urls' : list string) (query : string)
  (categoryFilter : option TroubleshootingCategory) (w w1 : World) (c : CloudProviderContent) :
  (parsed_cache w -> parsed_cache w1) ->
  (forall u, In u urls -> In u urls') ->
  found_in urls query categoryFilter w1 c ->
  found_in urls' query categoryFilter w c.
Proof.
  intros Hw Hsub [Hmatch Hparse]. split; [exact Hmatch|].
  intros Hp. destruct (Hparse (Hw Hp)) as (page' & html & t & Hin & ->).
  exists page', html, t. split; [apply Hsub, Hin|reflexivity].
Qed.

(** The page loop: it returns the results it was given followed by the
    records it found, at most one per page. *)
Lemma search_pages_effects (E : Env) (query : string)
  (categoryFilter : option TroubleshootingCategory) (pages : list string) :
  forall acc w,
  exists found w',
    search_pages E pages query categoryFilter acc w = (Returned (acc ++ found), w') /\
    effects pages w w' /\
    Forall (found_in pages query categoryFilter w) found /\
    length found <= length pages.
Proof.
  induction pages as [|page pages IH]; intros acc w; cbn [search_pages].
  - exists [], w. rewrite List.app_nil_r.
    split; [reflexivity|]. split; [apply effects_refl|]. split; [constructor|reflexivity].
  - destruct (fetch_effects E page w) as (r & Hr & Heff & Hparse).
    unfold bind at 1. unfold try_catch, bind at 1.
    destruct (fetchAwsDocContent E page w) as [r0 w1]. cbn [fst snd] in Hr, Heff. subst r0.
    assert (Hnext : forall acc1 found1,
               acc1 = acc ++ found1 -> length found1 <= 1 ->
               Forall (found_in (page :: pages) query categoryFilter w) found1 ->
               exists found w',
                 search_pages E pages query categoryFilter acc1 w1
                   = (Returned (acc ++ found), w') /\
                 effects (page :: pages) w w' /\
                 Forall (found_in (page :: pages) query categoryFilter w) found /\
                 length found <= length (page :: pages)).
    { intros acc1 found1 -> Hlen1 Hfound1.
      destruct (IH (acc ++ found1) w1) as (found2 & w2 & Hrun & Heff2 & Hfound2 & Hlen2).
      exists (found1 ++ found2), w2. rewrite List.app_assoc.
      split; [exact Hrun|]. split; [apply (effects_trans [page] pages _ _ _ Heff Heff2)|].
      split.
      - apply Forall_app. split; [exact Hfound1|].
        eapply Forall_impl; [exact Hfound2|].
        intros c. apply found_in_later. apply Heff.
      - rewrite length_app. cbn [length]. lia. }
    destruct r as [c|]; cbn.
    + destruct (contentMatchesQuery c query categoryFilter) eqn:Hmatch; cbn.
      * apply (Hnext (acc ++ [c]) [c]); [reflexivity|cbn; lia|].
        constructor; [|constructor]. split; [exact Hmatch|].
        intros Hp. destruct (Hparse Hp c eq_refl) as (html & t & ->).
        exists page, html, t. split; [left; reflexivity|reflexivity].
      * apply (Hnext acc []); [symmetry; apply List.app_nil_r|cbn; lia|constructor].
    + apply (Hnext acc []); [symmetry; apply List.app_nil_r|cbn; lia|constructor].
Qed.

Lemma getTroubleshootingUrls_length (service servicePattern : string) :
  length (getTroubleshootingUrls service servicePattern) = 7.
Proof. reflexivity. Qed.

(** The service loop: it returns the results it was given followed by
    records found among the candidate pages of the services. *)
Lemma search_services_effects (E : Env) (query : string)
  (categoryFilter : option TroubleshootingCategory) (maxResults : Z)
  (services : list string) :
  forall acc w,
  exists found w',
    search_services E services query categoryFilter maxResults acc w
      = (Returned (acc ++ found), w') /\
    effects (candidate_urls services) w w' /\
    Forall (found_in (candidate_urls services) query categoryFilter w) found.
Proof.
  induction services as [|service services IH]; intros acc w; cbn [search_services].
  - exists [], w. rewrite List.app_nil_r.
    split; [reflexivity|]. split; [apply effects_refl|constructor].
  - destruct (Z.of_nat (length acc) >=? maxResults)%Z.
    { exists [], w. rewrite List.app_nil_r.
      split; [reflexivity|]. split; [apply effects_refl|constructor]. }
    unfold candidate_urls. cbn [flat_map]. fold (candidate_urls services).
    destruct (object_index AWS_SERVICE_PATTERNS service) as [servicePattern|].
    + unfold bind at 1. unfold try_catch, bind at 1, searchServiceDocs.
      destruct (search_pages_effects E query categoryFilter
                  (getTroubleshootingUrls service servicePattern) [] w)
        as (found1 & w1 & Hrun1 & Heff1 & Hfound1 & _).
      rewrite Hrun1. cbn [List.app ret].
      destruct (IH (acc ++ slice0 found1 (maxResults - Z.of_nat (length acc))) w1)
        as (found2 & w2 & Hrun2 & Heff2 & Hfound2).
      exists (slice0 found1 (maxResults - Z.of_nat (length acc)) ++ found2), w2.
      rewrite List.app_assoc. split; [exact Hrun2|].
      split; [apply (effects_trans _ _ _ _ _ Heff1 Heff2)|].
      apply Forall_app. split.
      * assert (Hsl : Forall (found_in (getTroubleshootingUrls service servicePattern)
                                       query categoryFilter w)
                             (slice0 found1 (maxResults - Z.of_nat (length acc)))).
        { unfold slice0. destruct (_ <? 0)%Z; apply Forall_take, Hfound1. }
        eapply Forall_impl; [exact Hsl|]. intros c.
        apply found_in_weaken; [auto|]. intros u Hu. apply in_or_app. auto.
      * eapply Forall_impl; [exact Hfound2|]. intros c.
        apply found_in_weaken; [apply Heff1|]. intros u Hu. apply in_or_app. auto.
    + cbn [List.app]. apply IH.
Qed.

(** A whole search, from the entry point. *)
Lemma search_summary (E : Env) (searchRequest : CloudProviderSearchRequest) (w : World) :
  exists response w',
    searchCloudProviderDocs E searchRequest w = (Returned response, w') /\
    totalResults response = length (results response) /\
    (req_provider searchRequest = AWS -> error response = None) /\
    effects (searched_urls searchRequest) w w' /\
    Forall (found_in (searched_urls searchRequest) (req_query searchRequest)
                     (req_category searchRequest) w) (results response).
Proof.
  unfold searchCloudProviderDocs, searched_urls.
  unfold bind at 1. unfold Date_now at 1. unfold try_catch.
  destruct (req_provider searchRequest) eqn:Hprovider.
  - unfold searchAwsDocs.
    destruct (search_services_effects E (req_query searchRequest)
                (req_category searchRequest)
                (effective_maxResults (req_maxResults searchRequest))
                (servicesToSearch (req_service searchRequest)) []
                (mkWorld (contentCache w) (S (ticks w)) (requests w)))
      as (found & w1 & Hrun & Heff & Hfound).
    unfold bind at 1. rewrite Hrun. cbn.
    eexists. eexists. split; [reflexivity|]. cbn [results totalResults error].
    split; [reflexivity|]. split; [reflexivity|]. split.
    + apply (effects_trans [] _ w (tick w) _ (effects_ticked [] w)).
      pose proof (effects_trans _ [] _ w1 _ Heff (effects_ticked [] w1)) as Heff'.
      rewrite List.app_nil_r in Heff'. exact Heff'.
    + exact Hfound.
  - cbn. eexists. eexists. split; [reflexivity|]. cbn.
    split; [reflexivity|]. split; [discriminate|].
    split; [|constructor].
    apply (effects_trans [] [] w (tick w) _ (effects_ticked [] w)), (effects_ticked [] (tick w)).
  - cbn. eexists. eexists. split; [reflexivity|]. cbn.
    split; [reflexivity|]. split; [discriminate|].
    split; [|constructor].
    apply (effects_trans [] [] w (tick w) _ (effects_ticked [] w)), (effects_ticked [] (tick w)).
Qed.
End SearchFacts.

Module SearchFacts2.
Import Api Spec Inv.

Lemma parsed_cache_empty : parsed_cache Sample.empty_world.
Proof. intros u entry H. cbn in H. rewrite lookup_empty in H. discriminate. Qed.

Lemma classify_assigned (u t : string) :
  In (classify u t) [ACCESS_DENIED; PERMISSIONS; AUTHENTICATION; CONFIGURATION; GENERAL].
Proof.
  unfold classify.
  repeat match goal with |- context [if ?b then _ else _] => destruct b end;
    cbn; tauto.
Qed.

Lemma getTroubleshootingUrls_NoDup (service servicePattern : string) :
  List.NoDup (getTroubleshootingUrls service servicePattern).
Proof.
  unfold getTroubleshootingUrls. cbn [fold_left troubleshootingPatterns List.app].
  repeat (constructor;
          [cbn [In]; intros Hin;
           repeat (destruct Hin as [Hin|Hin];
                   [apply (inj (String.app _)) in Hin; discriminate Hin|]);
           exact Hin|]).
  constructor.
Qed.

Lemma searched_urls_NoDup (searchRequest : CloudProviderSearchRequest) :
  List.NoDup (searched_urls searchRequest).
Proof.
  unfold searched_urls. destruct (req_provider searchRequest); try constructor.
  unfold servicesToSearch. destruct (req_service searchRequest) as [[|a name]|].
  - apply (proj1 (NoDup_ListNoDup _)), (bool_decide_unpack _). vm_compute. exact I.
  - unfold candidate_urls. cbn [flat_map]. rewrite List.app_nil_r.
    destruct (object_index _ _); [apply getTroubleshootingUrls_NoDup|constructor].
  - apply (proj1 (NoDup_ListNoDup _)), (bool_decide_unpack _). vm_compute. exact I.
Qed.

Lemma searched_urls_length (searchRequest : CloudProviderSearchRequest) :
  length (searched_urls searchRequest) <= 56 /\
  (forall name, req_service searchRequest = Some name -> name <> EmptyString ->
                length (searched_urls searchRequest) <= 7).
Proof.
  unfold searched_urls. destruct (req_provider searchRequest); cbn [length];
    [|split; intros; lia|split; intros; lia].
  unfold servicesToSearch. destruct (req_service searchRequest) as [[|a name]|].
  - split; [vm_compute; lia|]. intros name [= <-] H. contradiction.
  - unfold candidate_urls. cbn [flat_map]. rewrite List.app_nil_r.
    destruct (object_index _ _); cbn [length]; [rewrite SearchFacts.getTroubleshootingUrls_length|];
      split; intros; lia.
  - split; [vm_compute; lia|]. intros name H. discriminate H.
Qed.

Lemma results_match (E : Env) (searchRequest : CloudProviderSearchRequest) (w : World)
  (response : CloudProviderSearchResponse) (c : CloudProviderContent) :
  fst (searchCloudProviderDocs E searchRequest w) = Returned response ->
  In c (results response) ->
  contentMatchesQuery c (req_query searchRequest) (req_category searchRequest) = true /\
  (forall wanted, req_category searchRequest = Some wanted -> category c = wanted).
Proof.
  intros Hrun Hc.
  destruct (SearchFacts.search_summary E searchRequest w)
    as (response' & w' & Hrun' & _ & _ & _ & Hfound).
  rewrite Hrun' in Hrun. injection Hrun as ->.
  rewrite Forall_forall in Hfound. apply list_elem_of_In, Hfound in Hc as [Hmatch _].
  split; [exact Hmatch|]. intros wanted Hwanted. rewrite Hwanted in Hmatch.
  unfold contentMatchesQuery in Hmatch.
  destruct (category c), wanted; cbn in Hmatch; try reflexivity; discriminate.
Qed.

Lemma results_parsed (E : Env) (searchRequest : CloudProviderSearchRequest) (w : World)
  (response : CloudProviderSearchResponse) (c : CloudProviderContent) :
  parsed_cache w ->
  fst (searchCloudProviderDocs E searchRequest w) = Returned response ->
  In c (results response) ->
  exists page html t, In page (searched_urls searchRequest) /\ c = parse_page html page t.
Proof.
  intros Hcache Hrun Hc.
  destruct (SearchFacts.search_summary E searchRequest w)
    as (response' & w' & Hrun' & _ & _ & _ & Hfound).
  rewrite Hrun' in Hrun. injection Hrun as ->.
  rewrite Forall_forall in Hfound. apply list_elem_of_In, Hfound in Hc as [_ Hparse].
  apply Hparse, Hcache.
Qed.

Lemma search_effects (E : Env) (searchRequest : CloudProviderSearchRequest) (w : World) :
  effects (searched_urls searchRequest) w (snd (searchCloudProviderDocs E searchRequest w)).
Proof.
  destruct (SearchFacts.search_summary E searchRequest w)
    as (response' & w' & Hrun' & _ & _ & Heff & _).
  rewrite Hrun'. exact Heff.
Qed.
End SearchFacts2.

(** ** Further properties of the search *)

(** X1. [searchCloudProviderDocs] never throws: for every request,
    environment and world it returns a response whose [totalResults] is the
    length of its result list.  Its error field is absent for aws and the
    'not yet supported' message for any other provider: the message of the
    outer [catch] is never produced. *)
Theorem X1_search_never_throws :
  forall (E : Api.Env) (searchRequest : CloudProviderSearchRequest) (w : Api.World),
  exists response,
    fst (Api.searchCloudProviderDocs E searchRequest w) = Api.Returned response /\
    totalResults response = length (results response) /\
    error response =
      match req_provider searchRequest with
      | AWS => None
      | other => Some ("Provider " +:+ provider_value other +:+ " not yet supported")
      end.
Proof.
  intros E searchRequest w.
  destruct (SearchFacts.search_summary E searchRequest w)
    as (response & w' & Hrun & Htotal & Herror & _).
  exists response. rewrite Hrun. split; [reflexivity|]. split; [exact Htotal|].
  destruct (req_provider searchRequest) eqn:Hp; [apply Herror; reflexivity| |];
    unfold Api.searchCloudProviderDocs, Api.bind, Api.try_catch, Api.Date_now, Api.ret in Hrun;
    rewrite Hp in Hrun; cbn in Hrun; injection Hrun as <- _; reflexivity.
Qed.

(** X2. Every record returned by a search matches the query of the request
    under its category filter; in particular, with a category filter, every
    result has exactly that category. *)
Theorem X2_search_results_match_the_request :
  forall (E : Api.Env) (searchRequest : CloudProviderSearchRequest) (w : Api.World)
         (response : CloudProviderSearchResponse) (c : CloudProviderContent),
    fst (Api.searchCloudProviderDocs E searchRequest w) = Api.Returned response ->
    In c (results response) ->
    Api.contentMatchesQuery c (req_query searchRequest) (req_category searchRequest) = true /\
    (forall wanted, req_category searchRequest = Some wanted -> category c = wanted).
Proof. intros E searchRequest w response c. apply SearchFacts2.results_match. Qed.

(** A search for 'iam' among the IAM pages, filtered on the category of the
    sample page, and the record it finds. *)
Lemma X2_sample :
  Api.contentMatchesQuery (Api.parse_page Sample.iam_page Sample.iam_url 1000)
                          "iam" (Some GENERAL) = true /\
  category (Api.parse_page Sample.iam_page Sample.iam_url 1000) = GENERAL.
Proof.
  destruct (X2_search_results_match_the_request Sample.one_page
              (mkRequest "iam" AWS (Some "iam") (Some GENERAL) None None)
              Sample.empty_world
              (mkResponse [Api.parse_page Sample.iam_page Sample.iam_url 1000] 1 3000 None)
              (Api.parse_page Sample.iam_page Sample.iam_url 1000))
    as [Hmatch Hcat].
  - vm_compute. reflexivity.
  - left. reflexivity.
  - split; [exact Hmatch|]. apply Hcat. reflexivity.
Defined.

(** X3. When every record of the cache is a parse of the page it is stored
    under (as in an empty cache), every search result is the parse of one of
    the candidate pages of the request: its [url] is one of them, its
    provider is aws, its guide type is UserGuide, its breadcrumbs and
    related links are empty, and its category is one of access-denied,
    permissions, authentication, configuration and general. *)
Theorem X3_search_results_are_parsed_candidates :
  forall (E : Api.Env) (searchRequest : CloudProviderSearchRequest) (w : Api.World)
         (response : CloudProviderSearchResponse) (c : CloudProviderContent),
    Inv.parsed_cache w ->
    fst (Api.searchCloudProviderDocs E searchRequest w) = Api.Returned response ->
    In c (results response) ->
    (exists html t, c = Api.parse_page html (url c) t) /\
    In (url c) (Inv.searched_urls searchRequest) /\
    provider c = AWS /\ guideType c = USER_GUIDE /\
    breadcrumbs c = [] /\ relatedLinks c = [] /\
    In (category c) [ACCESS_DENIED; PERMISSIONS; AUTHENTICATION; CONFIGURATION; GENERAL].
Proof.
  intros E searchRequest w response c Hcache Hrun Hc.
  destruct (SearchFacts2.results_parsed E searchRequest w response c Hcache Hrun Hc)
    as (page & html & t & Hpage & ->).
  change (url (Api.parse_page html page t)) with page.
  split; [eauto|]. split; [exact Hpage|]. do 4 (split; [reflexivity|]).
  apply SearchFacts2.classify_assigned.
Qed.

(** The record found by the sample search from an empty cache. *)
Lemma X3_sample :
  In (url (Api.parse_page Sample.iam_page Sample.iam_url 1000))
     (Inv.searched_urls (mkRequest "iam" AWS (Some "iam") None None None)) /\
  provider (Api.parse_page Sample.iam_page Sample.iam_url 1000) = AWS.
Proof.
  destruct (X3_search_results_are_parsed_candidates Sample.one_page
              (mkRequest "iam" AWS (Some "iam") None None None)
              Sample.empty_world
              (mkResponse [Api.parse_page Sample.iam_page Sample.iam_url 1000] 1 3000 None)
              (Api.parse_page Sample.iam_page Sample.iam_url 1000))
    as (_ & Hurl & Hprovider & _).
  - apply SearchFacts2.parsed_cache_empty.
  - vm_compute. reflexivity.
  - left. reflexivity.
  - split; [exact Hurl|exact Hprovider].
Defined.

(** X4. From a cache made of parses, a search filtered on one of the
    categories api-errors, network and performance finds nothing: the parser
    never assigns them. *)
Theorem X4_unassigned_categories_find_nothing :
  forall (E : Api.Env) (searchRequest : CloudProviderSearchRequest) (w : Api.World)
         (response : CloudProviderSearchResponse) (wanted : TroubleshootingCategory),
    Inv.parsed_cache w ->
    req_category searchRequest = Some wanted ->
    In wanted [API_ERRORS; NETWORK; PERFORMANCE] ->
    fst (Api.searchCloudProviderDocs E searchRequest w) = Api.Returned response ->
    results response = [].
Proof.
  intros E searchRequest w response wanted Hcache Hwanted Hunassigned Hrun.
  destruct (results response) as [|c cs] eqn:Hresults; [reflexivity|]. exfalso.
  assert (Hc : In c (results response)) by (rewrite Hresults; left; reflexivity).
  destruct (SearchFacts2.results_match E searchRequest w response c Hrun Hc) as [_ Hcat].
  destruct (SearchFacts2.results_parsed E searchRequest w response c Hcache Hrun Hc)
    as (page & html & t & _ & ->).
  specialize (Hcat wanted Hwanted).
  pose proof (SearchFacts2.classify_assigned page
                (title (Api.parse_page html page t))) as Hassigned.
  change (category (Api.parse_page html page t))
    with (Api.classify page (title (Api.parse_page html page t))) in Hcat.
  rewrite Hcat in Hassigned. cbn in Hunassigned, Hassigned.
  destruct Hunassigned as [<-|[<-|[<-|[]]]]; intuition discriminate.
Qed.

(** A search filtered on the network category over a network that serves a
    matching page. *)
Lemma X4_sample :
  results (mkResponse [] 0 3000 None) = [] /\
  fst (Api.searchCloudProviderDocs Sample.one_page
         (mkRequest "iam" AWS (Some "iam") (Some NETWORK) None None) Sample.empty_world)
    = Api.Returned (mkResponse [] 0 3000 None).
Proof.
  split; [|vm_compute; reflexivity].
  apply (X4_unassigned_categories_find_nothing Sample.one_page
           (mkRequest "iam" AWS (Some "iam") (Some NETWORK) None None)
           Sample.empty_world (mkResponse [] 0 3000 None) NETWORK).
  - apply SearchFacts2.parsed_cache_empty.
  - reflexivity.
  - right. left. reflexivity.
  - vm_compute. reflexivity.
Defined.

(** X5. The requests of a search are made for candidate pages of the
    request only (the seven pages built from the entry, own or inherited,
    that the table of services has for each searched service), in the order
    in which the search visits them, and no page is requested twice: at most
    56 requests, at most 7 when the request names a service, none for a
    provider other than aws. *)
Theorem X5_search_requests_each_candidate_at_most_once :
  forall (E : Api.Env) (searchRequest : CloudProviderSearchRequest) (w : Api.World),
  exists made,
    Api.requests (snd (Api.searchCloudProviderDocs E searchRequest w))
      = Api.requests w ++ made /\
    made `sublist_of` Inv.searched_urls searchRequest /\
    List.NoDup made /\
    length made <= 56 /\
    (forall name, req_service searchRequest = Some name -> name <> EmptyString ->
                  length made <= 7) /\
    (req_provider searchRequest <> AWS -> made = []).
Proof.
  intros E searchRequest w.
  destruct (SearchFacts2.search_effects E searchRequest w) as ((made & Hmade & Hsub) & _).
  exists made. split; [exact Hmade|]. split; [exact Hsub|].
  pose proof (sublist_length _ _ Hsub) as Hlen.
  destruct (SearchFacts2.searched_urls_length searchRequest) as [Hall Hnamed].
  split.
  - apply NoDup_ListNoDup. eapply sublist_NoDup; [|exact Hsub].
    apply NoDup_ListNoDup, SearchFacts2.searched_urls_NoDup.
  - split; [lia|]. split.
    + intros name Hname Hne. specialize (Hnamed name Hname Hne). lia.
    + intros Hp. unfold Inv.searched_urls in Hsub.
      destruct (req_provider searchRequest); [contradiction| |];
        apply sublist_nil_r in Hsub; exact Hsub.
Qed.

(** The sample search for the service IAM makes its seven requests; a
    search for azure makes none. *)
Lemma X5_sample :
  (exists made,
      Api.requests (snd (Api.searchCloudProviderDocs Sample.one_page
                           (mkRequest "iam" AWS (Some "iam") None None None)
                           Sample.empty_world)) = [] ++ made /\
      length made <= 7) /\
  (exists made,
      Api.requests (snd (Api.searchCloudProviderDocs Sample.one_page
                           (mkRequest "iam" AZURE None None None None)
                           Sample.empty_world)) = [] ++ made /\
      made = []).
Proof.
  split.
  - destruct (X5_search_requests_each_candidate_at_most_once Sample.one_page
                (mkRequest "iam" AWS (Some "iam") None None None) Sample.empty_world)
      as (made & Hmade & _ & _ & _ & Hnamed & _).
    exists made. split; [exact Hmade|]. apply (Hnamed "iam"); [reflexivity|discriminate].
  - destruct (X5_search_requests_each_candidate_at_most_once Sample.one_page
                (mkRequest "iam" AZURE None None None None) Sample.empty_world)
      as (made & Hmade & _ & _ & _ & _ & Hother).
    exists made. split; [exact Hmade|]. apply Hother. discriminate.
Defined.

(** X6. A search never removes a cache entry, changes no entry outside the
    candidate pages of its request (those of a service that the table of
    services answers by an inherited property included), and keeps a cache
    made of parses. *)
Theorem X6_search_keeps_the_cache :
  forall (E : Api.Env) (searchRequest : CloudProviderSearchRequest) (w : Api.World),
    let w' := snd (Api.searchCloudProviderDocs E searchRequest w) in
    (forall u, Api.contentCache w !! u <> None -> Api.contentCache w' !! u <> None) /\
    (forall u, ~ In u (Inv.searched_urls searchRequest) ->
               Api.contentCache w' !! u = Api.contentCache w !! u) /\
    (Inv.parsed_cache w -> Inv.parsed_cache w').
Proof.
  intros E searchRequest w w'. subst w'.
  destruct (SearchFacts2.search_effects E searchRequest w) as (_ & Hother & Hkept & Hparsed).
  auto.
Qed.

(** A search for the service S3 over a world whose cache holds the IAM
    page: the entry is still there, unchanged. *)
Lemma X6_sample :
  let w' := snd (Api.searchCloudProviderDocs Sample.one_page
                   (mkRequest "s3" AWS (Some "s3") None None None) Sample.cached_world) in
  Api.contentCache w' !! Sample.iam_url <> None /\
  Api.contentCache w' !! Sample.iam_url = Some (Api.mkEntry Sample.iam_record 0) /\
  Inv.parsed_cache w'.
Proof.
  destruct (X6_search_keeps_the_cache Sample.one_page
              (mkRequest "s3" AWS (Some "s3") None None None) Sample.cached_world)
    as (Hkept & Hother & Hparsed).
  assert (Hentry : Api.contentCache Sample.cached_world !! Sample.iam_url
                   = Some (Api.mkEntry Sample.iam_record 0)) by apply lookup_insert_eq.
  split; [|split].
  - apply Hkept. rewrite Hentry. discriminate.
  - rewrite <- Hentry. apply Hother. vm_compute. intuition discriminate.
  - apply Hparsed. intros u entry. unfold Sample.cached_world. cbn [Api.contentCache].
    destruct (decide (Sample.iam_url = u)) as [<-|Hne].
    + rewrite lookup_insert_eq. intros [= <-]. exists Sample.iam_page, 0%Z. reflexivity.
    + rewrite lookup_insert_ne by exact Hne. rewrite lookup_empty. discriminate.
Defined.

(** X7. Write-through: when a call of [fetchAwsDocContent] that went to the
    network returns a record, the cache holds that record under the URL,
    stamped with the last reading of the clock made in the call; the next
    call returns the same record without a request when its own reading of
    the clock is less than the TTL after that one. *)
Theorem X7_fetched_record_is_served_from_the_cache :
  forall (E : Api.Env) (url : string) (w : Api.World) (c : CloudProviderContent),
    let w1 := snd (Api.fetchAwsDocContent E url w) in
    fst (Api.fetchAwsDocContent E url w) = Api.Returned (Some c) ->
    Api.requests w1 <> Api.requests w ->
    let storedAt := Api.clock E (Api.ticks w1 - 1) in
    Api.ticks w < Api.ticks w1 /\
    Api.contentCache w1 !! url = Some (Api.mkEntry c storedAt) /\
    ((Api.clock E (Api.ticks w1) - storedAt < Api.CACHE_TTL)%Z ->
     Api.fetchAwsDocContent E url w1 = (Api.Returned (Some c), Spec.tick w1)).
Proof.
  intros E url w c w1. subst w1.
  rewrite ApiFacts.fetchAwsDocContent_cases.
  assert (Hticks : Api.ticks w <= Api.ticks (Spec.checked url w)).
  { unfold Spec.checked. destruct (Api.contentCache w !! url); cbn; lia. }
  destruct (Spec.fresh_entry E url w) as [c0|].
  { cbn [fst snd]. rewrite ApiFacts.requests_checked. intros _ H. contradiction. }
  destruct (Spec.fetched_page E url (Spec.checked url w)) as [c0|]; [|discriminate].
  cbn [fst snd]. intros [= ->] _. cbv zeta.
  cbn [Spec.stored Api.ticks]. rewrite Nat.sub_1_r. cbn [Nat.pred].
  split; [lia|]. split; [cbn; apply lookup_insert_eq|].
  intros Hfresh. apply Z.ltb_lt in Hfresh.
  rewrite ApiFacts.fetchAwsDocContent_cases.
  generalize dependent (Spec.checked url w). intros w0 _ Hfresh.
  unfold Spec.fresh_entry, Spec.checked, Spec.stored.
  cbn [Api.contentCache Api.ticks]. rewrite lookup_insert_eq.
  cbn [Api.timestamp Api.content]. rewrite Hfresh. reflexivity.
Qed.

(** The sample page is fetched into an empty cache, stamped with the second
    reading of the clock, and served from the cache by the next call. *)
Lemma X7_sample :
  let w1 := snd (Api.fetchAwsDocContent Sample.one_page Sample.iam_url Sample.empty_world) in
  Api.contentCache w1 !! Sample.iam_url
    = Some (Api.mkEntry (Api.parse_page Sample.iam_page Sample.iam_url 0) 1000) /\
  Api.fetchAwsDocContent Sample.one_page Sample.iam_url w1
    = (Api.Returned (Some (Api.parse_page Sample.iam_page Sample.iam_url 0)), Spec.tick w1).
Proof.
  destruct (X7_fetched_record_is_served_from_the_cache Sample.one_page Sample.iam_url
              Sample.empty_world (Api.parse_page Sample.iam_page Sample.iam_url 0))
    as (_ & Hentry & Hnext).
  - vm_compute. reflexivity.
  - vm_compute. discriminate.
  - split; [exact Hentry|]. apply Hnext. vm_compute. reflexivity.
Defined.

(** X8. Failures are not cached: a call of [fetchAwsDocContent] that returns
    nothing has made one request for the URL and left the cache as it was,
    so that, when the URL has no cache entry, the next call requests it
    again. *)
Theorem X8_failed_fetch_is_retried :
  forall (E : Api.Env) (url : string) (w : Api.World),
    let w1 := snd (Api.fetchAwsDocContent E url w) in
    fst (Api.fetchAwsDocContent E url w) = Api.Returned None ->
    Api.contentCache w1 = Api.contentCache w /\
    Api.requests w1 = Api.requests w ++ [url] /\
    (Api.contentCache w !! url = None ->
     Api.requests (snd (Api.fetchAwsDocContent E url w1)) = Api.requests w ++ [url; url]).
Proof.
  intros E url w w1. subst w1.
  rewrite ApiFacts.fetchAwsDocContent_cases.
  destruct (Spec.fresh_entry E url w) as [c0|]; [discriminate|].
  destruct (Spec.fetched_page E url (Spec.checked url w)) as [c0|]; [discriminate|].
  cbn [fst snd]. intros _.
  pose proof (ApiFacts.contentCache_checked url w) as Hc0.
  pose proof (ApiFacts.requests_checked url w) as Hr0.
  generalize dependent (Spec.checked url w). intros w0 Hc0 Hr0.
  split; [exact Hc0|]. split; [cbn; rewrite Hr0; reflexivity|].
  intros Hnone. rewrite ApiFacts.fetchAwsDocContent_cases.
  unfold Spec.fresh_entry, Spec.checked. cbn [Spec.requested Api.contentCache].
  rewrite Hc0, Hnone.
  destruct (Spec.fetched_page E url _); cbn; rewrite Hr0, <- List.app_assoc; reflexivity.
Qed.

(** A page that answers 404 is requested by each of two calls in a row. *)
Lemma X8_sample :
  let E := Sample.always (Api.Response 404 None) in
  let w1 := snd (Api.fetchAwsDocContent E Sample.iam_url Sample.empty_world) in
  Api.contentCache w1 = ∅ /\
  Api.requests w1 = [Sample.iam_url] /\
  Api.requests (snd (Api.fetchAwsDocContent E Sample.iam_url w1))
    = [Sample.iam_url; Sample.iam_url].
Proof.
  destruct (X8_failed_fetch_is_retried (Sample.always (Api.Response 404 None))
              Sample.iam_url Sample.empty_world) as (Hcache & Hreq & Hnext).
  - vm_compute. reflexivity.
  - split; [exact Hcache|]. split; [exact Hreq|]. apply Hnext. apply lookup_empty.
Defined.

(** ** Shapes of what the extractors return *)

Module ShapeFacts.
Import RegExp Spec Shape Utils.

(** A match of a pattern that begins with a character test begins with a
    code unit that passes it. *)
Lemma run_first_char (r : regex) :
  forall p s c k res,
    first_test r = Some p -> run r s c k = Some res ->
    exists a s', s = String a s' /\ p a = true.
Proof.
  induction r as [|q|r1 IH1 r2 IH2|r1 IH1 r2 IH2|g r1 IH1|i r1 IH1|r1 IH1|];
    intros p s c k res Hfirst Hrun; cbn [first_test] in Hfirst; try discriminate;
    cbn [run] in Hrun.
  - injection Hfirst as <-. destruct s as [|a s']; [discriminate|].
    destruct (q a) eqn:Hq; [|discriminate]. eauto.
  - eapply IH1; eassumption.
  - eapply IH1; eassumption.
Qed.

Lemma search_no_markup (r : regex) (p : ascii -> bool) (s : string) :
  first_test r = Some p ->
  (forall a, p a = true -> Ascii.eqb a "<" = true) ->
  no_markup s = true -> search r s = None.
Proof.
  intros Hfirst Hp. unfold no_markup.
  assert (Hexec : forall t, string_forall (fun a => negb (Ascii.eqb a "<")) t = true ->
                            exec_here r t = None).
  { intros t Ht. unfold exec_here.
    destruct (run r t no_captures _) as [[s' c']|] eqn:Hrun; [|reflexivity].
    destruct (run_first_char r p t _ _ _ Hfirst Hrun) as (a & t' & -> & Ha).
    cbn in Ht. rewrite (Hp a Ha) in Ht. discriminate. }
  induction s as [|a s IH]; intros Hs; cbn [search]; rewrite (Hexec _ Hs); [reflexivity|].
  cbn in Hs. apply andb_true_iff in Hs as [_ Hs]. rewrite (IH Hs). reflexivity.
Qed.

Lemma matchAll_no_match (r : regex) (s : string) : search r s = None -> matchAll r s = [].
Proof. intros H. unfold matchAll. cbn [match_all_from]. rewrite H. reflexivity. Qed.

Lemma js_match_no_match (r : regex) (s : string) : search r s = None -> js_match r s = None.
Proof. intros H. unfold js_match. rewrite H. reflexivity. Qed.

Lemma replaceAll_no_match (r : regex) (f : Match -> string) (s : string) :
  search r s = None -> replaceAll r f s = s.
Proof. intros H. unfold replaceAll. cbn [replace_from]. rewrite H. reflexivity. Qed.

Lemma lt_only : forall a, Ascii.eqb "<" a = true -> Ascii.eqb a "<" = true.
Proof. intros a H. rewrite Ascii.eqb_sym. exact H. Qed.

Lemma lt_only_i : forall a, fold_case (Ascii.eqb "<") a = true -> Ascii.eqb a "<" = true.
Proof. UtilsFacts.ascii_cases. Qed.

(** Searching a text without [<] for one of the patterns of the
    extractors. *)
Ltac no_markup_search :=
  first [ eapply search_no_markup; [reflexivity|exact lt_only|eassumption]
        | eapply search_no_markup; [reflexivity|exact lt_only_i|eassumption] ].

Lemma no_markup_extracts (text : string) :
  no_markup text = true ->
  extractTroubleshootingSteps text = [] /\
  extractCodeExamples text = [] /\
  extractCodeFromText text = None /\
  clean_text text = Js.trim text.
Proof.
  intros Htext.
  assert (Hol : search ol_re text = None) by no_markup_search.
  assert (Hproc : search procedure_re text = None) by no_markup_search.
  assert (Hprel : search pre_lang_re text = None) by no_markup_search.
  assert (Hcode : search code_re text = None) by no_markup_search.
  assert (Hpre : search pre_re text = None) by no_markup_search.
  assert (Htag : search tag_re text = None) by no_markup_search.
  split; [|split; [|split]].
  - unfold extractTroubleshootingSteps, heading_pass, list_pass.
    rewrite (matchAll_no_match _ _ Hol), (matchAll_no_match _ _ Hproc). reflexivity.
  - unfold extractCodeExamples.
    rewrite (matchAll_no_match _ _ Hprel), (matchAll_no_match _ _ Hcode). reflexivity.
  - unfold extractCodeFromText.
    rewrite (js_match_no_match _ _ Hcode), (js_match_no_match _ _ Hpre). reflexivity.
  - unfold clean_text. rewrite (replaceAll_no_match _ _ _ Htag). reflexivity.
Qed.
End ShapeFacts.

(** X9. A text without the character [<] yields no troubleshooting step, no
    code example and no code snippet, and its clean text is the text
    trimmed. *)
Theorem X9_text_without_markup_yields_nothing :
  forall text : string,
    Shape.no_markup text = true ->
    Utils.extractTroubleshootingSteps text = [] /\
    Utils.extractCodeExamples text = [] /\
    Utils.extractCodeFromText text = None /\
    Utils.clean_text text = Js.trim text.
Proof. exact ShapeFacts.no_markup_extracts. Qed.

(** A sentence of plain text that mentions an ordered list. *)
Lemma X9_sample :
  Utils.extractTroubleshootingSteps "  1. Open the console; 2. ol > li: pick a role  " = [] /\
  Utils.clean_text "  1. Open the console; 2. ol > li: pick a role  "
    = "1. Open the console; 2. ol > li: pick a role".
Proof.
  destruct (X9_text_without_markup_yields_nothing
              "  1. Open the console; 2. ol > li: pick a role  ") as (Hsteps & _ & _ & Hclean).
  - vm_compute. reflexivity.
  - split; [exact Hsteps|]. rewrite Hclean. vm_compute. reflexivity.
Defined.

(** X10. A body without the character [<] (an error text, a JSON document)
    parses to the default record: the title 'AWS Documentation', an empty
    description, no keywords, sections, steps or code examples, and the
    category decided by the URL and the default title. *)
Theorem X10_body_without_markup_parses_to_defaults :
  forall (html url : string) (now : Z),
    Shape.no_markup html = true ->
    let page := Api.parse_page html url now in
    title page = "AWS Documentation" /\
    description page = EmptyString /\
    keywords page = [] /\
    sections page = [] /\
    troubleshootingSteps page = [] /\
    codeExamples page = [] /\
    category page = Api.classify url "AWS Documentation" /\
    lastUpdated page = now.
Proof.
  intros html pageUrl now Hhtml page. subst page.
  assert (Htitle : RegExp.search Api.title_re html = None) by ShapeFacts.no_markup_search.
  assert (Hdesc : RegExp.search (Api.meta_re "description") html = None)
    by ShapeFacts.no_markup_search.
  assert (Hkeys : RegExp.search (Api.meta_re "keywords") html = None)
    by ShapeFacts.no_markup_search.
  assert (Hmain : RegExp.search Api.main_content_re html = None)
    by ShapeFacts.no_markup_search.
  assert (Hhead : RegExp.search Api.heading_re html = None) by ShapeFacts.no_markup_search.
  destruct (ShapeFacts.no_markup_extracts html Hhtml) as (Hsteps & Hexamples & _).
  unfold Api.parse_page.
  rewrite (ShapeFacts.js_match_no_match _ _ Htitle), (ShapeFacts.js_match_no_match _ _ Hdesc),
    (ShapeFacts.js_match_no_match _ _ Hkeys), (ShapeFacts.js_match_no_match _ _ Hmain),
    (ShapeFacts.matchAll_no_match _ _ Hhead), Hsteps, Hexamples.
  cbn. repeat split.
Qed.

(** A plain-text body served with status 200. *)
Lemma X10_sample :
  title (Api.parse_page "Service Unavailable" Sample.iam_url 0) = "AWS Documentation" /\
  troubleshootingSteps (Api.parse_page "Service Unavailable" Sample.iam_url 0) = [] /\
  category (Api.parse_page "Service Unavailable" Sample.iam_url 0) = GENERAL.
Proof.
  destruct (X10_body_without_markup_parses_to_defaults "Service Unavailable"
              Sample.iam_url 0) as (Htitle & _ & _ & _ & Hsteps & _ & Hcat & _).
  - vm_compute. reflexivity.
  - split; [exact Htitle|]. split; [exact Hsteps|]. rewrite Hcat. vm_compute. reflexivity.
Defined.

Module StepShape.
Import RegExp Spec Shape Utils.

Lemma substring0_length (n : nat) (s : string) :
  String.length (Js.substring0 n s) = Nat.min n (String.length s).
Proof.
  unfold Js.substring0. revert n. induction s as [|a s IH]; intros [|n]; cbn; auto.
Qed.

Lemma ellipsis_length (n : nat) (s : string) :
  String.length (ellipsis n s) <= n + 3 /\
  (forall m, m < String.length s -> m <= n -> m < String.length (ellipsis n s)).
Proof.
  unfold ellipsis. destruct (n <? String.length s) eqn:Hn.
  - apply Nat.ltb_lt in Hn. rewrite JsFacts.length_sapp, substring0_length. cbn. split; lia.
  - apply Nat.ltb_ge in Hn. split; [lia|]. intros m Hm _. exact Hm.
Qed.

Lemma extractCodeFromText_long (html code : string) :
  extractCodeFromText html = Some code -> 5 < String.length code.
Proof.
  unfold extractCodeFromText.
  destruct (js_match code_re html) as [m|].
  - destruct (5 <? _) eqn:H; [|discriminate]. intros [= <-]. apply Nat.ltb_lt, H.
  - destruct (js_match pre_re html) as [m|]; [|discriminate].
    destruct (5 <? _) eqn:H; [|discriminate]. intros [= <-]. apply Nat.ltb_lt, H.
Qed.

Lemma errors_ok (text : string) :
  exists errors, Some (extractErrorsFromText text) = Some errors /\ List.NoDup errors.
Proof.
  eexists. split; [reflexivity|].
  rewrite UtilsFacts.extractErrors_first_seen. apply UtilsFacts.first_seen_NoDup.
Qed.

Lemma item_step_ok (n : nat) (item : string) :
  1 <= n -> item_kept item = true -> step_ok (item_step n item).
Proof.
  intros Hn Hkept. unfold item_kept in Hkept. apply Nat.ltb_lt in Hkept.
  destruct (ellipsis_length 100 (clean_text item)) as [Hup Hlow].
  unfold step_ok, item_step. cbn.
  split; [exact Hn|]. split; [split; [apply (Hlow 0); lia|exact Hup]|].
  split; [exact Hkept|]. split; [apply errors_ok|apply extractCodeFromText_long].
Qed.

Lemma number_from_ok (items : list string) :
  forall n, 1 <= n -> List.Forall (fun item => item_kept item = true) items ->
            List.Forall step_ok (number_from n items).
Proof.
  induction items as [|item items IH]; intros n Hn Hitems; cbn; constructor.
  - apply item_step_ok; [exact Hn|]. inversion Hitems; assumption.
  - apply IH; [lia|]. inversion Hitems; assumption.
Qed.

Lemma list_pass_ok (html : string) : List.Forall step_ok (list_pass html []).
Proof.
  rewrite StepFacts.list_pass_blocks. apply List.Forall_flat_map.
  apply List.Forall_forall. intros listContent _.
  apply number_from_ok; [lia|]. apply List.Forall_forall.
  intros item Hitem. apply filter_In in Hitem. apply Hitem.
Qed.

Lemma procedure_step_ok (steps : list TroubleshootingStep) (m : Match) :
  List.Forall step_ok steps -> List.Forall step_ok (procedure_step steps m).
Proof.
  intros Hsteps. unfold procedure_step.
  destruct (20 <? String.length (clean_text (group_text m 1))) eqn:Hlong; [|exact Hsteps].
  apply Nat.ltb_lt in Hlong. apply List.Forall_app. split; [exact Hsteps|].
  constructor; [|constructor].
  destruct (ellipsis_length 500 (clean_text (group_text m 1))) as [Hup Hlow].
  unfold step_ok. cbn.
  split; [lia|]. split; [lia|]. split; [apply Hlow; lia|].
  split; [apply errors_ok|apply extractCodeFromText_long].
Qed.

Lemma steps_ok (html : string) : List.Forall step_ok (extractTroubleshootingSteps html).
Proof.
  unfold extractTroubleshootingSteps, heading_pass.
  generalize (list_pass_ok html). generalize (list_pass html []).
  induction (matchAll procedure_re html) as [|m ms IH]; intros steps Hsteps; cbn.
  - exact Hsteps.
  - apply IH, procedure_step_ok, Hsteps.
Qed.

(** The steps of the heading pass are numbered by their position in the
    whole array. *)
Lemma fold_procedure_step_numbers (ms : list Match) :
  forall steps,
  exists more,
    fold_left procedure_step ms steps = steps ++ more /\
    forall i st, nth_error more i = Some st ->
                 step st = length steps + i + 1 /\
                 step_title st = "Troubleshooting Procedure".
Proof.
  induction ms as [|m ms IH]; intros steps; cbn [fold_left].
  - exists []. split; [symmetry; apply List.app_nil_r|].
    intros [|i] st H; discriminate H.
  - unfold procedure_step at 2.
    destruct (20 <? String.length (clean_text (group_text m 1))); [|apply IH].
    match goal with |- context [steps ++ [?new]] =>
      destruct (IH (steps ++ [new])) as (more & Hrun & Hnum); exists (new :: more) end.
    split; [rewrite Hrun, <- List.app_assoc; reflexivity|].
    intros [|i] st Hst; cbn in Hst.
    + injection Hst as <-. cbn. split; [lia|reflexivity].
    + destruct (Hnum i st Hst) as [Hstep Htitle]. split; [|exact Htitle].
      rewrite Hstep, length_app. cbn. lia.
Qed.
End StepShape.

(** X11. Every step returned by [extractTroubleshootingSteps] has a number of
    at least 1, a non-empty title of at most 103 characters, a description
    longer than 10 characters, a list of related errors without
    repetitions, and a code example, when it has one, longer than 5
    characters. *)
Theorem X11_steps_keep_their_bounds :
  forall (html : string) (st : TroubleshootingStep),
    In st (Utils.extractTroubleshootingSteps html) ->
    1 <= step st /\
    1 <= String.length (step_title st) <= 103 /\
    10 < String.length (step_description st) /\
    (exists errors, relatedErrors st = Some errors /\ List.NoDup errors) /\
    (forall code, codeExample st = Some code -> 5 < String.length code).
Proof.
  intros html st Hst.
  pose proof (StepShape.steps_ok html) as Hall.
  rewrite List.Forall_forall in Hall. apply (Hall st Hst).
Qed.

(** The step of the specification's two-item list. *)
Lemma X11_sample :
  1 <= String.length "A very long item text..." <= 103 /\
  10 < String.length "A very long item text...".
Proof.
  destruct (X11_steps_keep_their_bounds
              "<ol><li>A very long item text...</li><li>x</li></ol>"
              (mkStep 1 "A very long item text..." "A very long item text..." None (Some [])))
    as (_ & Htitle & Hdescription & _).
  - vm_compute. left. reflexivity.
  - split; [exact Htitle|exact Hdescription].
Defined.

(** X12. The steps of the heading pass follow those of the list pass, each
    numbered by its position in the whole result (the step at index j has
    number j + 1) and titled 'Troubleshooting Procedure'. *)
Theorem X12_heading_steps_are_numbered_by_position :
  forall html : string,
  exists more,
    Utils.extractTroubleshootingSteps html = Utils.list_pass html [] ++ more /\
    forall i st, nth_error more i = Some st ->
                 step st = length (Utils.list_pass html []) + i + 1 /\
                 step_title st = "Troubleshooting Procedure".
Proof.
  intros html. unfold Utils.extractTroubleshootingSteps, Utils.heading_pass.
  apply StepShape.fold_procedure_step_numbers.
Qed.

(** A page with two lists of one item and a procedure section: the list
    steps are both numbered 1 and the procedure step is numbered 3. *)
Lemma X12_sample :
  map step (Utils.extractTroubleshootingSteps
              "<ol><li>Open the IAM console</li></ol><ol><li>Attach the policy</li></ol><h3>Solution</h3><p>Sign out and sign in again.</p>")
  = [1; 1; 3].
Proof.
  destruct (X12_heading_steps_are_numbered_by_position
              "<ol><li>Open the IAM console</li></ol><ol><li>Attach the policy</li></ol><h3>Solution</h3><p>Sign out and sign in again.</p>")
    as (more & Hrun & Hnum).
  rewrite Hrun. vm_compute in Hrun.
  change (Utils.list_pass _ []) with
    [mkStep 1 "Open the IAM console" "Open the IAM console" None (Some []);
     mkStep 1 "Attach the policy" "Attach the policy" None (Some [])] in *.
  destruct more as [|st [|st' more]]; try discriminate Hrun.
  destruct (Hnum 0 st eq_refl) as [Hstep _]. cbn in Hstep |- *. rewrite Hstep. reflexivity.
Defined.

Module PreFacts.
Import RegExp Spec Shape Utils JsFacts RegExpFacts.

(** A greedy [[^>]*] hands the text from the first [>] on to its
    continuation before anything else. *)
Lemma greedy_first (k : cont) (r : string * captures) :
  forall t c fuel,
    String.length t < fuel -> k (from_gt t) c = Some r ->
    star_loop (run (none_of ">")) true fuel t c k = Some r.
Proof.
  induction t as [|a t IH]; intros c [|n] Hfuel Hk; cbn [String.length] in Hfuel; try lia.
  - cbn. cbn in Hk. rewrite Hk. reflexivity.
  - cbn [star_loop]. unfold none_of at 1. cbn [run]. cbn [from_gt] in Hk.
    destruct (Ascii.eqb ">" a) eqn:Ha; cbn [negb].
    + exact Hk.
    + cbn [String.length].
      replace (String.length t <? S (String.length t)) with true
        by (symmetry; apply Nat.ltb_lt; lia).
      rewrite (IH c n) by (try lia; exact Hk). reflexivity.
Qed.

(** A lazy [.*?] reaches every later position unless its continuation
    succeeds before. *)
Lemma lazy_any_finds (k : cont) (c : captures) (y : string) :
  k y c <> None ->
  forall x fuel,
    String.length x < fuel ->
    exists s', star_loop (run any) false fuel (x +:+ y) c k = k s' c /\ k s' c <> None.
Proof.
  intros Hy. induction x as [|a x IH]; intros [|n] Hfuel; cbn [String.length] in Hfuel; try lia.
  - rewrite sapp_nil_l. cbn [star_loop]. exists y. split; [|exact Hy].
    destruct (k y c); [reflexivity|congruence].
  - rewrite sapp_cons. cbn [star_loop].
    destruct (k (String a (x +:+ y)) c) eqn:Hk.
    + exists (String a (x +:+ y)). rewrite Hk. split; [reflexivity|discriminate].
    + unfold any at 1. cbn [run]. cbn [String.length].
      replace (String.length (x +:+ y) <? S (String.length (x +:+ y))) with true
        by (symmetry; apply Nat.ltb_lt; lia).
      apply IH. lia.
Qed.

Lemma run_lit (w : string) :
  forall s c (k : cont) res,
    run (lit w) s c k = Some res -> exists s', s = w +:+ s' /\ k s' c = Some res.
Proof.
  induction w as [|a w IH]; intros s c k res Hrun; cbn [lit run] in Hrun.
  - exists s. auto.
  - unfold chr in Hrun. cbn [run] in Hrun.
    destruct s as [|b s]; [discriminate|].
    destruct (Ascii.eqb a b) eqn:Hab; [|discriminate].
    apply Ascii.eqb_eq in Hab as <-.
    destruct (IH _ _ _ _ Hrun) as (s' & -> & Hk). exists s'. auto.
Qed.

Lemma run_lit_here (w s : string) (c : captures) (k : cont) :
  run (lit w) (w +:+ s) c k = k s c.
Proof.
  induction w as [|a w IH]; [reflexivity|].
  rewrite sapp_cons. cbn [lit run]. unfold chr. cbn [run].
  rewrite Ascii.eqb_refl. exact IH.
Qed.

(** A match of a sequence goes through each of its suffixes. *)
Lemma run_cat_suffix (pres posts : list regex) :
  forall s c res,
    run (cat (pres ++ posts)) s c done = Some res ->
    exists w s' c', s = w +:+ s' /\ run (cat posts) s' c' done = Some res.
Proof.
  induction pres as [|a pres IH]; intros s c res Hrun.
  - exists EmptyString, s, c. auto.
  - change (run a s c (fun s' c' => run (cat (pres ++ posts)) s' c' done) = Some res) in Hrun.
    apply (run_sound _ _ (accepts_anything a)) in Hrun.
    destruct Hrun as (w & s' & c' & -> & _ & _ & _ & Hk).
    destruct (IH _ _ _ Hk) as (w2 & s2 & c2 & -> & Hk2).
    exists (w +:+ w2), s2, c2. split; [symmetry; apply sapp_assoc|exact Hk2].
Qed.

Lemma holds_later (w x s : string) : holds w s -> holds w (x +:+ s).
Proof.
  intros (x' & y & ->). exists (x +:+ x'), y. symmetry. apply sapp_assoc.
Qed.

Lemma from_gt_holds (z : string) (w : string) :
  forall t s, t = w +:+ String ">" s -> holds z s ->
              exists v, from_gt t = String ">" v /\ holds z v.
Proof.
  induction w as [|a w IH]; intros t s -> Hs.
  - rewrite sapp_nil_l. cbn. eauto.
  - rewrite sapp_cons. cbn [from_gt]. destruct (Ascii.eqb ">" a) eqn:Ha.
    + apply Ascii.eqb_eq in Ha as <-. eexists. split; [reflexivity|].
      apply holds_later. change (String ">" s) with (String ">" EmptyString +:+ s).
      apply holds_later, Hs.
    + eapply IH; [reflexivity|exact Hs].
Qed.

(** The part of [pre_lang_re] behind the attributes. *)
Lemma tail_needs (s : string) (c : captures) (res : string * captures) :
  run (cat [chr ">"; Group 2 (lazy_star any); lit "</pre>"]) s c done = Some res ->
  exists v, s = String ">" v /\ holds "</pre>" v.
Proof.
  intros Hrun.
  change (run (chr ">") s c
              (fun s1 c1 => run (Group 2 (lazy_star any)) s1 c1
                 (fun s2 c2 => run (lit "</pre>") s2 c2
                    (fun s3 c3 => done s3 c3))) = Some res) in Hrun.
  unfold chr in Hrun. cbn [run] in Hrun.
  destruct s as [|a v]; [discriminate|].
  destruct (Ascii.eqb ">" a) eqn:Ha; [|discriminate].
  apply Ascii.eqb_eq in Ha as <-. exists v. split; [reflexivity|].
  pose proof (run_sound (Group 2 (lazy_star any)) _ (accepts_anything _) v c
                (fun s2 c2 => run (lit "</pre>") s2 c2 (fun s3 c3 => done s3 c3)) res Hrun)
    as (w & s2 & c2 & -> & _ & _ & _ & Hk).
  apply run_lit in Hk as (s3 & -> & _). exists w, s3. reflexivity.
Qed.

Lemma tail_found (v : string) (c : captures) :
  holds "</pre>" v ->
  exists r, run (cat [chr ">"; Group 2 (lazy_star any); lit "</pre>"])
                (String ">" v) c done = Some r /\ snd r 1 = c 1.
Proof.
  intros (x & y & ->).
  change (run (cat [chr ">"; Group 2 (lazy_star any); lit "</pre>"])
              (String ">" (x +:+ "</pre>" +:+ y)) c done)
    with (star_loop (run any) false (S (String.length (x +:+ "</pre>" +:+ y)))
            (x +:+ "</pre>" +:+ y) c
            (fun s' c' => run (lit "</pre>") s'
                            (set_capture 2 (consumed (x +:+ "</pre>" +:+ y) s') c')
                            (fun s3 c3 => done s3 c3))).
  match goal with |- context [star_loop _ _ _ _ _ ?k] =>
    destruct (lazy_any_finds k c ("</pre>" +:+ y)) with (x := x)
      (fuel := S (String.length (x +:+ "</pre>" +:+ y))) as (s' & Hrun & Hsome) end.
  - rewrite run_lit_here. discriminate.
  - rewrite length_sapp. lia.
  - rewrite Hrun. cbv beta in Hsome |- *.
    destruct (run (lit "</pre>") s' _ _) as [r|] eqn:Hr; [|congruence].
    exists r. split; [reflexivity|].
    apply run_lit in Hr as (s3 & _ & [= <-]). reflexivity.
Qed.

(** No match of [pre_lang_re] sets its language group: the attributes are
    taken by the greedy [[^>]*] in front of it. *)
Lemma pre_lang_run (s : string) (c : captures) (res : string * captures) :
  run pre_lang_re s c done = Some res -> snd res 1 = c 1.
Proof.
  intros Hrun. unfold pre_lang_re in Hrun.
  change (cat (lit "<pre" :: ?rs)) with (Seq (lit "<pre") (cat rs)) in Hrun.
  cbn [run] in Hrun.
  apply run_lit in Hrun as (t & -> & Hrun).
  set (cls := cat [lit "class="; chr quot; star (none_of quot); lit "lang-";
                   Group 1 (star (none_of quot)); star (none_of quot); chr quot]) in *.
  set (tail := [chr ">"; Group 2 (lazy_star any); lit "</pre>"]).
  assert (Hneeds : exists v, from_gt t = String ">" v /\ holds "</pre>" v).
  { change (run (cat ([star (none_of ">"); opt cls; star (none_of ">")] ++ tail)) t c done
            = Some res) in Hrun.
    apply run_cat_suffix in Hrun as (w & s' & c' & -> & Hk).
    apply tail_needs in Hk as (v & -> & Hv).
    eapply from_gt_holds; [reflexivity|exact Hv]. }
  destruct Hneeds as (v & Hv & Hclose).
  destruct (tail_found v c Hclose) as (r & Hr & Hr1).
  change (star_loop (run (none_of ">")) true (S (String.length t)) t c
            (fun s1 c1 => run (opt cls) s1 c1
               (fun s2 c2 => run (star (none_of ">")) s2 c2
                  (fun s3 c3 => run (cat tail) s3 c3 done))) = Some res) in Hrun.
  rewrite (greedy_first _ r) in Hrun.
  - injection Hrun as <-. exact Hr1.
  - lia.
  - rewrite Hv. unfold opt. cbn [run].
    replace (run cls (String ">" v) c _) with (@None (string * captures)) by reflexivity.
    unfold star, none_of. cbn [run star_loop String.length]. cbn [Ascii.eqb Bool.eqb negb].
    exact Hr.
Qed.

Lemma pre_lang_exec (s : string) (m : Match) :
  exec_here pre_lang_re s = Some m -> group m 1 = None.
Proof.
  unfold exec_here.
  destruct (run pre_lang_re s no_captures _) as [[s1 c1]|] eqn:Hrun; [|discriminate].
  intros [= <-]. apply pre_lang_run in Hrun. exact Hrun.
Qed.

Lemma push_pre_example_text (examples : list CodeExample) (m : Match) :
  group m 1 = None ->
  push_pre_example examples m =
  if 5 <? String.length (clean_text (group_text m 2))
  then examples ++ [text_example (clean_text (group_text m 2))] else examples.
Proof.
  intros Hm. unfold push_pre_example. rewrite Hm. reflexivity.
Qed.

Lemma fold_push_pre_example (ms : list Match) :
  List.Forall (fun m => group m 1 = None) ms ->
  forall examples,
    fold_left push_pre_example ms examples =
    examples ++
    map text_example
        (List.filter (fun code => 5 <? String.length code)
                     (map (fun m => clean_text (group_text m 2)) ms)).
Proof.
  induction 1 as [|m ms Hm Hms IH]; intros examples; cbn [fold_left map List.filter].
  - cbn. rewrite List.app_nil_r. reflexivity.
  - rewrite (push_pre_example_text _ _ Hm).
    destruct (5 <? String.length (clean_text (group_text m 2))).
    + rewrite IH. cbn [map]. rewrite <- List.app_assoc. reflexivity.
    + apply IH.
Qed.

Lemma pre_examples_text (html : string) :
  pre_examples html =
  map text_example (List.filter (fun code => 5 <? String.length code) (pre_blocks html)).
Proof.
  unfold pre_examples, pre_blocks.
  rewrite fold_push_pre_example; [reflexivity|].
  apply List.Forall_forall. intros m Hm.
  apply matchAll_exec in Hm as (s0 & Hs0). eapply pre_lang_exec, Hs0.
Qed.
End PreFacts.

Module ExampleFacts.
Import RegExp Spec Shape Utils.

Lemma extractCodeExamples_eq (html : string) :
  extractCodeExamples html =
  map text_example (List.filter (fun code => 5 <? String.length code) (pre_blocks html)) ++
  map inline_example
      (List.filter (fun code => (20 <? String.length code) && Js.includes code " ")
                   (code_elements html)).
Proof.
  unfold extractCodeExamples. cbv zeta.
  rewrite CodeFacts.fold_push_code_example.
  change (fold_left push_pre_example (matchAll pre_lang_re html) []) with (pre_examples html).
  rewrite PreFacts.pre_examples_text. reflexivity.
Qed.

Lemma detectLanguageFromCode_range (code : string) :
  In (detectLanguageFromCode code) ["text"; "python"; "javascript"; "bash"; "json"].
Proof.
  unfold detectLanguageFromCode.
  repeat match goal with |- context [if ?b then _ else _] => destruct b end;
    cbn; auto 10.
Qed.

Lemma detectLanguageFromCode_bash (code : string) :
  detectLanguageFromCode code = "bash" ->
  Js.includes code "aws " = false /\
  Js.includes code "#!/bin/bash" || Js.includes code "curl " = true.
Proof.
  unfold detectLanguageFromCode.
  destruct (Js.includes code "aws "); cbn [orb]; [discriminate|].
  destruct (Js.includes code "boto3" || Js.includes code "import boto"); [discriminate|].
  destruct (Js.includes code "AWS." || Js.includes code "aws-sdk"); [discriminate|].
  rewrite orb_false_r.
  destruct (Js.includes code "#!/bin/bash" || Js.includes code "curl "); [auto|].
  repeat match goal with |- context [if ?b then _ else _] => destruct b end; discriminate.
Qed.
End ExampleFacts.

(** X13. The language group of the [<pre>] pattern is never set, because
    the greedy attribute class in front of it takes the class attribute:
    [extractCodeExamples] labels every [<pre>] example with the language
    'text' and the description 'Code example in text', whatever its class
    says.  Its result is these examples, one for every [<pre>] block whose
    tag-stripped trimmed text is longer than 5 characters, followed by the
    inline examples. *)
Theorem X13_pre_examples_are_labelled_text :
  forall html : string,
    Utils.extractCodeExamples html =
    map Shape.text_example
        (List.filter (fun code => 5 <? String.length code) (Shape.pre_blocks html)) ++
    map Spec.inline_example
        (List.filter (fun code => (20 <? String.length code) && Js.includes code " ")
                     (Spec.code_elements html)).
Proof. exact ExampleFacts.extractCodeExamples_eq. Qed.

(** X14. Every example returned by [extractCodeExamples] has no file
    name, a code longer than 5 characters and one of the languages text,
    python, javascript, bash and json; it is either a [<pre>] example
    labelled text, or an inline snippet longer than 20 characters that
    holds a space, with the language guessed from its code. *)
Theorem X14_examples_keep_their_shape :
  forall (html : string) (example : CodeExample),
    In example (Utils.extractCodeExamples html) ->
    filename example = None /\
    5 < String.length (code example) /\
    In (language example) ["text"; "python"; "javascript"; "bash"; "json"] /\
    (language example = "text" /\ example_description example = "Code example in text" \/
     language example = Utils.detectLanguageFromCode (code example) /\
     example_description example = "Inline code snippet" /\
     20 < String.length (code example) /\ Js.includes (code example) " " = true).
Proof.
  intros html example. rewrite ExampleFacts.extractCodeExamples_eq.
  intros [Hin|Hin]%in_app_or; apply in_map_iff in Hin as (c & <- & Hc);
    apply filter_In in Hc as [_ Hc]; cbn.
  - apply Nat.ltb_lt in Hc. split; [reflexivity|]. split; [exact Hc|]. auto.
  - apply andb_true_iff in Hc as [Hlong Hspace]. apply Nat.ltb_lt in Hlong.
    split; [reflexivity|]. split; [lia|].
    split; [apply ExampleFacts.detectLanguageFromCode_range|]. right. auto.
Qed.

(** An inline command line. *)
Lemma X14_sample :
  In "python" ["text"; "python"; "javascript"; "bash"; "json"] /\
  20 < String.length "aws s3 ls s3://bucket --recursive".
Proof.
  destruct (X14_examples_keep_their_shape
              "<p>Run <code>aws s3 ls s3://bucket --recursive</code></p>"
              (mkExample "python" "aws s3 ls s3://bucket --recursive"
                         "Inline code snippet" None))
    as (_ & _ & Hlanguage & [[Htext _]|(_ & _ & Hlong & _)]).
  - vm_compute. left. reflexivity.
  - discriminate Htext.
  - split; [exact Hlanguage|exact Hlong].
Defined.

(** X15. [detectLanguageFromCode] answers bash only for a code that holds
    a shebang line or a curl command and does not hold 'aws ': a code
    with 'aws ' in it is python, so that the third test of the bash rule
    never decides. *)
Theorem X15_aws_commands_are_never_bash :
  forall code : string,
    (Js.includes code "aws " = true -> Utils.detectLanguageFromCode code = "python") /\
    (Utils.detectLanguageFromCode code = "bash" ->
     Js.includes code "aws " = false /\
     Js.includes code "#!/bin/bash" || Js.includes code "curl " = true).
Proof.
  intros code. split; [|apply ExampleFacts.detectLanguageFromCode_bash].
  intros Haws. unfold Utils.detectLanguageFromCode. rewrite Haws. reflexivity.
Qed.

(** An AWS command line and a curl command line. *)
Lemma X15_sample :
  Utils.detectLanguageFromCode "aws s3 ls" = "python" /\
  Js.includes "curl https://example.com" "aws " = false.
Proof.
  split.
  - apply (X15_aws_commands_are_never_bash "aws s3 ls"). vm_compute. reflexivity.
  - apply (X15_aws_commands_are_never_bash "curl https://example.com").
    vm_compute. reflexivity.
Defined.

Module SpaceFacts.
Import RegExp Spec Shape Utils JsFacts RegExpFacts.

(** A star in front of the end of the pattern never fails. *)
Lemma star_done (body : string -> captures -> cont -> outcome) (g : bool) (fuel : nat)
  (s : string) (c : captures) :
  star_loop body g fuel s c done <> None.
Proof.
  destruct fuel as [|n]; cbn [star_loop]; [discriminate|].
  destruct g; [destruct (body s c _)|]; discriminate.
Qed.

(** A greedy class star hands the text past its longest run to the
    continuation before anything else. *)
Lemma greedy_chr (p : ascii -> bool) (k : cont) (r : string * captures) :
  forall t c fuel,
    String.length t < fuel -> k (skip p t) c = Some r ->
    star_loop (run (Chr p)) true fuel t c k = Some r.
Proof.
  induction t as [|a t IH]; intros c [|n] Hfuel Hk; cbn [String.length] in Hfuel; try lia.
  - cbn. cbn in Hk. rewrite Hk. reflexivity.
  - cbn [star_loop].
    change (run (Chr p) (String a t) c ?k') with (if p a then k' t c else None).
    cbn [skip] in Hk. destruct (p a).
    + cbn [String.length].
      replace (String.length t <? S (String.length t)) with true
        by (symmetry; apply Nat.ltb_lt; lia).
      rewrite (IH c n) by (try lia; exact Hk). reflexivity.
    + exact Hk.
Qed.

Lemma skip_length (p : ascii -> bool) (s : string) :
  String.length (skip p s) <= String.length s.
Proof. induction s as [|a s IH]; cbn; [lia|]. destruct (p a); cbn; lia. Qed.

Lemma skip_starts (s : string) : starts_with_text (skip Js.is_space s) = true.
Proof.
  induction s as [|a s IH]; cbn; [reflexivity|].
  destruct (Js.is_space a) eqn:Ha; [exact IH|]. cbn. rewrite Ha. reflexivity.
Qed.

(** One or more code units of a class, at the front of a text. *)
Lemma exec_plus (p : ascii -> bool) (s : string) :
  exec_here (plus (Chr p)) s =
  match s with
  | String a s' =>
      if p a then Some (mkMatch (consumed s (skip p s')) no_captures (skip p s')) else None
  | EmptyString => None
  end.
Proof.
  unfold exec_here, plus. cbn [run]. destruct s as [|a s']; [reflexivity|].
  destruct (p a); [|reflexivity].
  rewrite (greedy_chr p _ (skip p s', no_captures)); [reflexivity|lia|reflexivity].
Qed.

Lemma search_plus_none (p : ascii -> bool) (s : string) :
  search (plus (Chr p)) s = None -> string_forall (fun a => negb (p a)) s = true.
Proof.
  induction s as [|a s IH]; cbn [search string_forall]; [reflexivity|].
  rewrite exec_plus. destruct (p a); [discriminate|].
  destruct (search (plus (Chr p)) s) as [[pre m]|]; [discriminate|].
  intros _. apply IH. reflexivity.
Qed.

Lemma search_plus_some (p : ascii -> bool) (s pre : string) (m : Match) :
  search (plus (Chr p)) s = Some (pre, m) ->
  string_forall (fun a => negb (p a)) pre = true /\
  exists a s', s = pre +:+ String a s' /\ p a = true /\
               rest m = skip p s' /\ m0 m <> EmptyString.
Proof.
  revert pre. induction s as [|a s IH]; intros pre; cbn [search]; rewrite exec_plus.
  - discriminate.
  - destruct (p a) eqn:Ha.
    + intros [= <- <-]. split; [reflexivity|]. exists a, s.
      split; [reflexivity|]. split; [exact Ha|]. split; [reflexivity|]. cbn [m0].
      assert (Hlen : String.length (skip p s) <= String.length s) by apply skip_length.
      unfold consumed. cbn [String.length].
      destruct (S (String.length s) - String.length (skip p s)) eqn:Hd; [lia|].
      cbn. discriminate.
    + destruct (search (plus (Chr p)) s) as [[pre' m']|]; [|discriminate].
      intros [= <- <-].
      destruct (IH pre' eq_refl) as (Hpre & b & s' & -> & Hb & Hrest & Hm0).
      split; [cbn; rewrite Ha; exact Hpre|]. exists b, s'. auto.
Qed.

Lemma squeezed_text (s : string) :
  string_forall (fun a => negb (Js.is_space a)) s = true -> squeezed s = true.
Proof.
  induction s as [|a s IH]; cbn; [reflexivity|].
  intros [Ha Hs]%andb_true_iff. rewrite Ha, (IH Hs). reflexivity.
Qed.

Lemma squeezed_after_text (pre s : string) :
  string_forall (fun a => negb (Js.is_space a)) pre = true ->
  squeezed s = true -> squeezed (pre +:+ s) = true.
Proof.
  induction pre as [|a pre IH]; [intros _ Hs; exact Hs|].
  rewrite sapp_cons. cbn. intros [Ha Hpre]%andb_true_iff Hs.
  rewrite Ha, (IH Hpre Hs). reflexivity.
Qed.

(** [x.replace(/\s+/g, " ")]: every run of white space becomes one
    space. *)
Lemma squeeze_spaces (n : nat) :
  forall s, String.length s < n ->
    squeezed (replace_from n (plus (Chr Js.is_space)) (fun _ => " ") s) = true /\
    (starts_with_text s = true ->
     starts_with_text (replace_from n (plus (Chr Js.is_space)) (fun _ => " ") s) = true).
Proof.
  induction n as [|n IH]; intros s Hlen; [lia|]. cbn [replace_from].
  destruct (search (plus (Chr Js.is_space)) s) as [[pre m]|] eqn:Hsearch.
  - apply search_plus_some in Hsearch as (Hpre & a & s' & -> & Ha & Hrest & Hm0).
    rewrite length_sapp in Hlen. cbn [String.length] in Hlen.
    destruct (m0 m) as [|b w]; [congruence|].
    assert (Hshort : String.length (rest m) < n).
    { rewrite Hrest. pose proof (skip_length Js.is_space s'). lia. }
    destruct (IH (rest m) Hshort) as [Hsq Hst].
    rewrite Hrest in Hst at 1. specialize (Hst (skip_starts s')).
    change (" " +:+ ?x) with (String " " x).
    split.
    + apply squeezed_after_text; [exact Hpre|]. cbn.
      rewrite Hsq, Hst. reflexivity.
    + intros Hs. destruct pre as [|c pre].
      * rewrite sapp_nil_l in Hs. cbn in Hs. rewrite Ha in Hs. discriminate.
      * rewrite sapp_cons. exact Hs.
  - split; [|auto]. apply squeezed_text, search_plus_none, Hsearch.
Qed.

Lemma squeezed_no_newline :
  forall a, negb (Js.is_space a) || Ascii.eqb a " " = true -> negb (Ascii.eqb "010" a) = true.
Proof. UtilsFacts.ascii_cases. Qed.

Lemma squeezed_lines (s : string) :
  squeezed s = true -> string_forall (fun a => negb (Ascii.eqb "010" a)) s = true.
Proof.
  induction s as [|a s IH]; cbn [squeezed string_forall]; [reflexivity|].
  intros [Ha Hs]%andb_true_iff. rewrite (IH Hs), andb_true_r.
  apply squeezed_no_newline. destruct (Js.is_space a); cbn [negb orb] in *; [|reflexivity].
  apply andb_true_iff in Ha as [Ha _]. exact Ha.
Qed.

Lemma search_none (r : regex) (p : ascii -> bool) (s : string) :
  first_test r = Some p ->
  string_forall (fun a => negb (p a)) s = true -> search r s = None.
Proof.
  intros Hfirst.
  assert (Hexec : forall t, string_forall (fun a => negb (p a)) t = true -> exec_here r t = None).
  { intros t Ht. unfold exec_here.
    destruct (run r t no_captures _) as [[s' c']|] eqn:Hrun; [|reflexivity].
    destruct (ShapeFacts.run_first_char r p t _ _ _ Hfirst Hrun) as (a & t' & -> & Ha).
    cbn in Ht. rewrite Ha in Ht. discriminate. }
  induction s as [|a s IH]; intros Hs; cbn [search]; rewrite (Hexec _ Hs); [reflexivity|].
  cbn in Hs. apply andb_true_iff in Hs as [_ Hs]. rewrite (IH Hs). reflexivity.
Qed.

Lemma trimStart_squeezed (s : string) :
  squeezed s = true ->
  squeezed (Js.trimStart s) = true /\ starts_with_text (Js.trimStart s) = true.
Proof.
  induction s as [|a s IH]; cbn [Js.trimStart]; [auto|].
  intros Hs. destruct (Js.is_space a) eqn:Ha.
  - apply IH. cbn in Hs. apply andb_true_iff in Hs as [_ Hs]. exact Hs.
  - split; [exact Hs|]. cbn. rewrite Ha. reflexivity.
Qed.

Lemma trimEnd_head (s : string) :
  starts_with_text s = true -> starts_with_text (Js.trimEnd s) = true.
Proof.
  destruct s as [|a s]; cbn; [reflexivity|]. intros Ha.
  destruct (Js.trimEnd s); [|exact Ha].
  apply negb_true_iff in Ha. rewrite Ha. cbn. rewrite Ha. reflexivity.
Qed.

Lemma trimEnd_squeezed (s : string) :
  squeezed s = true ->
  squeezed (Js.trimEnd s) = true /\ ends_with_text (Js.trimEnd s) = true.
Proof.
  induction s as [|a s IH]; cbn [Js.trimEnd]; [auto|].
  intros Hs. cbn in Hs. apply andb_true_iff in Hs as [Ha Hs].
  destruct (IH Hs) as [Hsq Hend].
  destruct (Js.trimEnd s) as [|b t] eqn:Ht.
  - destruct (Js.is_space a) eqn:Hsp; [auto|]. cbn. rewrite Hsp. auto.
  - split; [|exact Hend].
    change (squeezed (String a (String b t)))
      with ((negb (Js.is_space a) || (Ascii.eqb a " " && starts_with_text (String b t)))
            && squeezed (String b t)).
    rewrite Hsq, andb_true_r.
    destruct (Js.is_space a); cbn [negb orb] in Ha |- *; [|reflexivity].
    apply andb_true_iff in Ha as [Ha Hst]. rewrite Ha. cbn [andb].
    apply trimEnd_head in Hst. rewrite Ht in Hst. exact Hst.
Qed.

Lemma cleanHtmlContent_spaces (html : string) :
  starts_with_text (cleanHtmlContent html) = true /\
  ends_with_text (cleanHtmlContent html) = true /\
  squeezed (cleanHtmlContent html) = true.
Proof.
  unfold cleanHtmlContent. cbv zeta.
  match goal with |- context [replaceAll (plus (Chr Js.is_space)) ?f ?x] =>
    generalize x; intros s3 end.
  destruct (squeeze_spaces (S (String.length s3)) s3) as [Hsq _]; [lia|].
  fold (replaceAll (plus (Chr Js.is_space)) (fun _ => " ") s3) in Hsq.
  rewrite ShapeFacts.replaceAll_no_match
    by (eapply search_none; [reflexivity|apply squeezed_lines, Hsq]).
  unfold Js.trim.
  destruct (trimStart_squeezed _ Hsq) as [Hsq1 Hst1].
  destruct (trimEnd_squeezed _ Hsq1) as [Hsq2 Hend].
  split; [apply trimEnd_head, Hst1|]. split; [exact Hend|exact Hsq2].
Qed.
End SpaceFacts.

(** X16. The text returned by [cleanHtmlContent] is normalised: it neither
    starts nor ends with white space, and every white-space code unit in
    it is a single space between two other characters, so that it holds
    no line break and no tab. *)
Theorem X16_clean_content_is_single_spaced :
  forall html : string,
    Shape.starts_with_text (Utils.cleanHtmlContent html) = true /\
    Shape.ends_with_text (Utils.cleanHtmlContent html) = true /\
    Shape.squeezed (Utils.cleanHtmlContent html) = true.
Proof. exact SpaceFacts.cleanHtmlContent_spaces. Qed.

Module QueryFacts.
Import Spec Shape Api JsFacts.

Lemma prefix_sapp (t s : string) : String.prefix t s = true <-> exists y, s = t +:+ y.
Proof.
  revert s. induction t as [|a t IH]; intros s.
  - split; [intros _; exists s; reflexivity|destruct s; reflexivity].
  - destruct s as [|b s]; cbn [String.prefix].
    + split; [discriminate|]. intros (y & Hy). rewrite sapp_cons in Hy. discriminate.
    + destruct (ascii_dec a b) as [<-|Hab].
      * rewrite IH. split; intros (y & Hy); exists y.
        -- rewrite sapp_cons, Hy. reflexivity.
        -- rewrite sapp_cons in Hy. injection Hy as ->. reflexivity.
      * split; [discriminate|]. intros (y & Hy). rewrite sapp_cons in Hy.
        injection Hy as <- _. congruence.
Qed.

Lemma includes_holds (s t : string) : Js.includes s t = true <-> holds t s.
Proof.
  split.
  - induction s as [|a s IH]; cbn [Js.includes]; intros [Hp|Hs]%orb_true_iff.
    + apply prefix_sapp in Hp as (y & ->). exists EmptyString, y. reflexivity.
    + discriminate.
    + apply prefix_sapp in Hp as (y & ->). exists EmptyString, y. reflexivity.
    + destruct (IH Hs) as (x & y & ->). exists (String a x), y. reflexivity.
  - intros (x & y & ->). induction x as [|a x IH].
    + rewrite sapp_nil_l.
      assert (Hp : String.prefix t (t +:+ y) = true) by (apply prefix_sapp; eauto).
      destruct (t +:+ y); cbn [Js.includes]; rewrite Hp; reflexivity.
    + rewrite sapp_cons. cbn [Js.includes]. rewrite IH. apply orb_true_r.
Qed.

Lemma holds_trans (u t s : string) : holds t s -> holds u t -> holds u s.
Proof.
  intros (x & y & ->) (x' & y' & ->). exists (x +:+ x'), (y' +:+ y).
  rewrite !sapp_assoc. reflexivity.
Qed.

(** A text that holds a string holds every part of that string. *)
Lemma includes_part (text part whole : string) :
  Js.includes whole part = true ->
  Js.includes text whole = true ->
  Js.includes text part = true.
Proof.
  intros Hpart%includes_holds Htext%includes_holds.
  apply includes_holds. eapply holds_trans; [exact Htext|exact Hpart].
Qed.

Lemma includes_empty (s : string) : Js.includes s EmptyString = true.
Proof. apply includes_holds. exists EmptyString, s. reflexivity. Qed.

Lemma match_part (c : CloudProviderContent) (q1 q2 : string)
  (categoryFilter : option TroubleshootingCategory) :
  Js.includes (Js.toLowerCase q2) (Js.toLowerCase q1) = true ->
  contentMatchesQuery c q2 categoryFilter = true ->
  contentMatchesQuery c q1 categoryFilter = true.
Proof.
  intros Hpart. unfold contentMatchesQuery. cbv zeta.
  destruct (match categoryFilter with Some _ => _ | None => _ end); [discriminate|].
  intros [[Ht|Hd]%orb_true_iff|Hk]%orb_true_iff.
  - rewrite (includes_part _ _ _ Hpart Ht). reflexivity.
  - rewrite (includes_part _ _ _ Hpart Hd). apply orb_true_iff. left. apply orb_true_r.
  - apply orb_true_iff. right. apply existsb_exists.
    apply existsb_exists in Hk as (keyword & Hin & Hk).
    exists keyword. split; [exact Hin|]. exact (includes_part _ _ _ Hpart Hk).
Qed.

Lemma match_empty (c : CloudProviderContent) (categoryFilter : option TroubleshootingCategory) :
  contentMatchesQuery c EmptyString categoryFilter =
  match categoryFilter with
  | Some wanted => category_eqb (category c) wanted
  | None => true
  end.
Proof.
  unfold contentMatchesQuery. cbv zeta. cbn [Js.toLowerCase].
  rewrite includes_empty.
  destruct categoryFilter as [wanted|]; [|reflexivity].
  destruct (category_eqb (category c) wanted); reflexivity.
Qed.
End QueryFacts.

(** X17. [contentMatchesQuery] is monotone in the lower-cased query: a
    record that matches a query matches, under the same category filter,
    every query whose lower-cased form is a part of the lower-cased form of
    the first; the empty query matches every record of the wanted
    category. *)
Theorem X17_shorter_queries_match_more :
  forall (c : CloudProviderContent) (categoryFilter : option TroubleshootingCategory),
    (forall q1 q2,
        Js.includes (Js.toLowerCase q2) (Js.toLowerCase q1) = true ->
        Api.contentMatchesQuery c q2 categoryFilter = true ->
        Api.contentMatchesQuery c q1 categoryFilter = true) /\
    Api.contentMatchesQuery c EmptyString categoryFilter =
    match categoryFilter with
    | Some wanted => category_eqb (category c) wanted
    | None => true
    end.
Proof.
  intros c categoryFilter. split.
  - intros q1 q2. apply QueryFacts.match_part.
  - apply QueryFacts.match_empty.
Qed.

(** The sample record matches 'Troubleshooting IAM', hence also 'SHOOT'. *)
Lemma X17_sample :
  Api.contentMatchesQuery Sample.iam_record "SHOOT" None = true.
Proof.
  apply (X17_shorter_queries_match_more Sample.iam_record None)
    with (q2 := "Troubleshooting IAM").
  - vm_compute. reflexivity.
  - vm_compute. reflexivity.
Defined.

Module ServiceFacts.
Import Api.

Lemma service_of_url (html page : string) (now : Z) :
  service (parse_page html page now) = service (parse_page EmptyString page 0).
Proof. reflexivity. Qed.

Lemma object_get_value (o : list (string * string)) (key v : string) :
  object_get o key = Some v -> In v (map snd o).
Proof.
  induction o as [|[k v0] o IH]; cbn; [discriminate|].
  destruct (String.eqb k key); [intros [= ->]; auto|auto].
Qed.

(** The parser is only given candidate pages, and the key it looks up in
    [serviceMapping] for a candidate page is never the name of an inherited
    property: the lookup of the own properties decides. *)
Lemma candidate_service_key (name servicePattern page html : string) (now : Z) :
  object_index AWS_SERVICE_PATTERNS name = Some servicePattern ->
  In page (getTroubleshootingUrls name servicePattern) ->
  object_get Object_prototype (Inv.service_key page) = None /\
  service (parse_page html page now)
  = Utils.or_else (object_get serviceMapping (Inv.service_key page))
                  (Js.toLowerCase (Inv.service_key page)).
Proof.
  intros Hpattern Hpage. split; [|reflexivity].
  assert (Hvalue : In servicePattern
                      (map snd AWS_SERVICE_PATTERNS ++ map snd Object_prototype)).
  { unfold object_index in Hpattern. apply in_or_app.
    destruct (object_get AWS_SERVICE_PATTERNS name) as [v|] eqn:Hown.
    - injection Hpattern as <-. left. exact (object_get_value _ _ _ Hown).
    - right. exact (object_get_value _ _ _ Hpattern). }
  clear Hpattern. cbn in Hvalue.
  repeat (destruct Hvalue as [<-|Hvalue];
          [vm_compute in Hpage;
           repeat (destruct Hpage as [<-|Hpage]; [vm_compute; reflexivity|]);
           destruct Hpage|]).
  destruct Hvalue.
Qed.

Lemma candidate_service (serviceKey label servicePattern page : string) :
  In (serviceKey, label)
     [("iam", "iam"); ("s3", "s3"); ("lambda", "lambda"); ("apigateway", "api-gateway");
      ("cloudwatch", "cloudwatch"); ("ec2", "awsec2"); ("rds", "amazonrds");
      ("dynamodb", "amazondynamodb")] ->
  object_get AWS_SERVICE_PATTERNS serviceKey = Some servicePattern ->
  In page (getTroubleshootingUrls serviceKey servicePattern) ->
  service (parse_page EmptyString page 0) = label.
Proof.
  intros Hkey Hpattern Hpage.
  repeat (destruct Hkey as [[= <- <-]|Hkey];
          [vm_compute in Hpattern; injection Hpattern as <-;
           vm_compute in Hpage;
           repeat (destruct Hpage as [<-|Hpage]; [vm_compute; reflexivity|]);
           destruct Hpage|]).
  destruct Hkey.
Qed.
End ServiceFacts.

(** X18. The service field of a record parsed from a candidate URL depends
    on the URL alone, and is the requested service key for iam, s3, lambda
    and cloudwatch only: the pages of apigateway are labelled api-gateway,
    and those of ec2, rds and dynamodb carry the lower-cased first path
    segment (awsec2, amazonrds, amazondynamodb). *)
Theorem X18_candidate_pages_carry_the_mapped_service :
  forall (html page serviceKey label servicePattern : string) (now : Z),
    In (serviceKey, label)
       [("iam", "iam"); ("s3", "s3"); ("lambda", "lambda"); ("apigateway", "api-gateway");
        ("cloudwatch", "cloudwatch"); ("ec2", "awsec2"); ("rds", "amazonrds");
        ("dynamodb", "amazondynamodb")] ->
    Api.object_get Api.AWS_SERVICE_PATTERNS serviceKey = Some servicePattern ->
    In page (Api.getTroubleshootingUrls serviceKey servicePattern) ->
    service (Api.parse_page html page now) = label.
Proof.
  intros html page serviceKey label servicePattern now Hkey Hpattern Hpage.
  rewrite ServiceFacts.service_of_url.
  exact (ServiceFacts.candidate_service _ _ _ _ Hkey Hpattern Hpage).
Qed.

(** The access-denied page of EC2. *)
Lemma X18_sample :
  service (Api.parse_page Sample.iam_page
             "https://docs.aws.amazon.com/AWSEC2/latest/UserGuide/troubleshoot-access-denied.html"
             7) = "awsec2".
Proof.
  apply (X18_candidate_pages_carry_the_mapped_service _ _ "ec2" "awsec2"
           "/AWSEC2/latest/UserGuide/").
  - vm_compute. tauto.
  - vm_compute. reflexivity.
  - vm_compute. tauto.
Defined.

Module PageFacts.
Import RegExp Spec Shape Utils Api JsFacts RegExpFacts.

Lemma trimStart_forall (P : ascii -> bool) (s : string) :
  string_forall P s = true -> string_forall P (Js.trimStart s) = true.
Proof.
  induction s as [|a s IH]; cbn [Js.trimStart]; [auto|]. intros Hs.
  destruct (Js.is_space a); [|exact Hs].
  cbn in Hs. apply andb_true_iff in Hs as [_ Hs]. exact (IH Hs).
Qed.

Lemma trimEnd_forall (P : ascii -> bool) (s : string) :
  string_forall P s = true -> string_forall P (Js.trimEnd s) = true.
Proof.
  induction s as [|a s IH]; cbn [Js.trimEnd string_forall]; [auto|].
  intros [Ha Hs]%andb_true_iff. specialize (IH Hs).
  destruct (Js.trimEnd s) as [|b t].
  - destruct (Js.is_space a); [reflexivity|]. cbn. rewrite Ha. reflexivity.
  - cbn [string_forall] in IH |- *. rewrite Ha, IH. reflexivity.
Qed.

Lemma trim_forall (P : ascii -> bool) (s : string) :
  string_forall P s = true -> string_forall P (Js.trim s) = true.
Proof. intros Hs. apply trimEnd_forall, trimStart_forall, Hs. Qed.

Lemma trimStart_starts (s : string) : starts_with_text (Js.trimStart s) = true.
Proof.
  induction s as [|a s IH]; cbn [Js.trimStart]; [reflexivity|].
  destruct (Js.is_space a) eqn:Ha; [exact IH|]. cbn. rewrite Ha. reflexivity.
Qed.

Lemma trimEnd_ends (s : string) : ends_with_text (Js.trimEnd s) = true.
Proof.
  induction s as [|a s IH]; cbn [Js.trimEnd]; [reflexivity|].
  destruct (Js.trimEnd s) as [|b t].
  - destruct (Js.is_space a) eqn:Ha; [reflexivity|]. cbn. rewrite Ha. reflexivity.
  - exact IH.
Qed.

(** A trimmed text has no white space at either end. *)
Lemma trim_ends (s : string) :
  starts_with_text (Js.trim s) = true /\ ends_with_text (Js.trim s) = true.
Proof.
  split; [apply SpaceFacts.trimEnd_head, trimStart_starts|apply trimEnd_ends].
Qed.

Lemma substring_forall (P : ascii -> bool) (s : string) :
  string_forall P s = true ->
  forall n m, string_forall P (String.substring n m s) = true.
Proof.
  induction s as [|a s IH]; intros Hs n m.
  - destruct n, m; reflexivity.
  - cbn in Hs. apply andb_true_iff in Hs as [Ha Hs].
    destruct n as [|n]; [destruct m as [|m]|]; cbn [String.substring string_forall].
    + reflexivity.
    + rewrite Ha, (IH Hs). reflexivity.
    + apply (IH Hs).
Qed.

Lemma replace_first_forall (P : ascii -> bool) (pat s : string) :
  string_forall P s = true ->
  string_forall P (Js.replace_first pat EmptyString s) = true.
Proof.
  induction s as [|a s IH]; intros Hs; cbn [Js.replace_first].
  - destruct (String.prefix pat EmptyString); [|reflexivity].
    rewrite sapp_nil_l. apply substring_forall. reflexivity.
  - destruct (String.prefix pat (String a s)).
    + rewrite sapp_nil_l. apply substring_forall, Hs.
    + cbn in Hs |- *. apply andb_true_iff in Hs as [Ha Hs]. rewrite Ha, (IH Hs). reflexivity.
Qed.

Lemma split_comma_forall (P : ascii -> bool) (s : string) :
  string_forall P s = true ->
  List.Forall (fun w => string_forall P w = true) (Js.split_comma s).
Proof.
  induction s as [|a s IH]; cbn [Js.split_comma]; [repeat constructor|].
  intros Hs. cbn in Hs. apply andb_true_iff in Hs as [Ha Hs]. specialize (IH Hs).
  destruct (Ascii.eqb a ","); [constructor; [reflexivity|exact IH]|].
  destruct (Js.split_comma s) as [|w ws].
  - repeat constructor. cbn. rewrite Ha. reflexivity.
  - inversion IH as [|w' ws' Hw Hws]; subst. constructor; [|exact Hws].
    cbn. rewrite Ha, Hw. reflexivity.
Qed.

Lemma not_lt : forall a, negb (Ascii.eqb "<" a) = true -> negb (Ascii.eqb a "<") = true.
Proof. intros a. rewrite Ascii.eqb_sym. auto. Qed.

(** The text captured by a group of a match found by [match] or
    [matchAll], for a group that stands between [pres] and [posts]. *)
Lemma found_group (P : ascii -> bool) (i : nat) (g : regex) (pres posts : list regex)
  (s : string) (m : Match) :
  accepts_only P g -> ~ In i (groups_of (cat posts)) ->
  In m (matchAll (cat (pres ++ Group i g :: posts)) s) \/
  js_match (cat (pres ++ Group i g :: posts)) s = Some m ->
  string_forall P (group_text m i) = true.
Proof.
  intros HP Hposts Hm.
  assert (He : exists s0, exec_here (cat (pres ++ Group i g :: posts)) s0 = Some m).
  { destruct Hm as [Hm|Hm]; [eapply matchAll_exec, Hm|eapply js_match_exec, Hm]. }
  destruct He as [s0 He]. unfold exec_here in He.
  destruct (run _ s0 no_captures _) as [[s1 c1]|] eqn:Hrun; [|discriminate].
  injection He as <-.
  apply (run_cat_group P i g posts HP Hposts) in Hrun as (w & Hw & _ & HPw).
  unfold group_text, group. cbn [groups]. cbn [snd] in Hw. rewrite Hw. exact HPw.
Qed.

Lemma title_text (html : string) (m : Match) :
  js_match title_re html = Some m -> no_markup (group_text m 1) = true.
Proof.
  intros Hm. unfold no_markup.
  apply (found_group _ 1 (plus (none_of "<")) [lit_i "<title>"] [lit_i "</title>"] html).
  - split; exact not_lt.
  - vm_compute. tauto.
  - right. exact Hm.
Qed.

Lemma meta_text (name html : string) (m : Match) :
  js_match (meta_re name) html = Some m ->
  string_forall (fun a => negb (Ascii.eqb quot a)) (group_text m 1) = true.
Proof.
  intros Hm.
  apply (found_group _ 1 (plus (none_of quot))
           [lit_i "<meta name="; chr quot; lit_i name; chr quot; lit_i " content="; chr quot]
           [chr quot] html).
  - split; intros a Ha; exact Ha.
  - vm_compute. tauto.
  - right. exact Hm.
Qed.

Lemma heading_text (s : string) (m : Match) :
  In m (matchAll heading_re s) -> no_markup (group_text m 2) = true.
Proof.
  intros Hm. unfold no_markup.
  apply (found_group _ 2 (plus (none_of "<"))
           [lit "<h"; Group 1 (Chr (Js.in_range "1" "6")); star (none_of ">");
            star (none_of ">"); chr ">"]
           [lit "</h"; Chr (Js.in_range "1" "6"); chr ">"] s).
  - split; exact not_lt.
  - vm_compute. tauto.
  - left. exact Hm.
Qed.

Lemma level_digit :
  forall a, Js.in_range "1" "6" a = true ->
            (1 <=? parseInt (String a EmptyString)) && (parseInt (String a EmptyString) <=? 6)
            = true.
Proof. UtilsFacts.ascii_cases. Qed.

(** The level group of a heading match is one digit from 1 to 6. *)
Lemma heading_level (s : string) (m : Match) :
  In m (matchAll heading_re s) -> 1 <= parseInt (group_text m 1) <= 6.
Proof.
  intros Hm. apply matchAll_exec in Hm as (s0 & He). unfold exec_here in He.
  destruct (run heading_re s0 no_captures _) as [[s1 c1]|] eqn:Hrun; [|discriminate].
  injection He as <-. unfold group_text, group. cbn [groups].
  unfold heading_re in Hrun.
  change (cat (lit "<h" :: ?rs)) with (Seq (lit "<h") (cat rs)) in Hrun.
  cbn [run] in Hrun. apply PreFacts.run_lit in Hrun as (t & -> & Hrun).
  change (cat (Group 1 ?g :: ?rs)) with (Seq (Group 1 g) (cat rs)) in Hrun.
  cbn [run] in Hrun.
  destruct t as [|a t]; [discriminate|].
  destruct (Js.in_range "1" "6" a) eqn:Ha; [|discriminate].
  change (consumed (String a t) t) with (consumed (String a EmptyString +:+ t) t) in Hrun.
  rewrite consumed_app in Hrun.
  apply (run_sound _ _ (accepts_anything _)) in Hrun.
  destruct Hrun as (_ & s2 & c2 & _ & _ & _ & Hc & [= <- <-]).
  rewrite Hc by (vm_compute; intros [H|H]; [discriminate|exact H]).
  unfold set_capture. cbn [Nat.eqb].
  pose proof (level_digit a Ha) as [H1 H6]%andb_true_iff.
  apply Nat.leb_le in H1, H6. lia.
Qed.

(** What holds of every section. *)
Lemma push_section_shape (mainContent : string) (ms : list Match) :
  (forall m, In m ms -> In m (matchAll heading_re mainContent)) ->
  forall st,
  exists more,
    fold_left (push_section mainContent) ms st = (fst st ++ more, snd st + length ms) /\
    forall i sec, nth_error more i = Some sec ->
      section_id sec = "section-" +:+ Js.nat_to_string (snd st + i) /\
      1 <= level sec <= 6 /\
      no_markup (heading sec) = true /\
      starts_with_text (heading sec) = true /\ ends_with_text (heading sec) = true /\
      starts_with_text (section_content sec) = true /\
      ends_with_text (section_content sec) = true /\
      squeezed (section_content sec) = true.
Proof.
  induction ms as [|m ms IH]; intros Hms [sections0 index]; cbn [fold_left fst snd length].
  - exists []. rewrite List.app_nil_r, Nat.add_0_r. split; [reflexivity|].
    intros [|i] sec H; discriminate H.
  - cbn [push_section].
    match goal with |- context [fold_left _ ms (sections0 ++ [?new], S index)] =>
      destruct (IH (fun m' H => Hms m' (or_intror H)) (sections0 ++ [new], S index))
        as (more & Hrun & Hshape); exists (new :: more) end.
    cbn [fst snd] in Hrun, Hshape. rewrite Hrun, <- List.app_assoc.
    split; [f_equal; lia|].
    intros [|i] sec Hsec; cbn [nth_error] in Hsec.
    + injection Hsec as <-. cbn [section_id level heading section_content].
      rewrite Nat.add_0_r. split; [reflexivity|].
      split; [apply (heading_level mainContent), Hms; left; reflexivity|].
      split; [apply trim_forall, (heading_text mainContent), Hms; left; reflexivity|].
      destruct (trim_ends (group_text m 2)) as [Hs He].
      split; [exact Hs|]. split; [exact He|].
      destruct (js_match _ mainContent); [|repeat split].
      apply SpaceFacts.cleanHtmlContent_spaces.
    + destruct (Hshape i sec Hsec) as [Hid Hrest]. split; [|exact Hrest].
      rewrite Hid. do 2 f_equal. lia.
Qed.

Lemma sections_shape (html url : string) (now : Z) :
  forall i sec, nth_error (sections (parse_page html url now)) i = Some sec ->
    section_id sec = "section-" +:+ Js.nat_to_string i /\
    1 <= level sec <= 6 /\
    no_markup (heading sec) = true /\
    starts_with_text (heading sec) = true /\ ends_with_text (heading sec) = true /\
    starts_with_text (section_content sec) = true /\
    ends_with_text (section_content sec) = true /\
    squeezed (section_content sec) = true.
Proof.
  unfold parse_page. cbv zeta. cbn [sections].
  match goal with |- context [fold_left (push_section ?mc) (matchAll heading_re ?mc) _] =>
    destruct (push_section_shape mc (matchAll heading_re mc) (fun m H => H) ([], 0))
      as (more & Hrun & Hshape); rewrite Hrun end.
  cbn [fst snd List.app] in *. exact Hshape.
Qed.

Lemma header_shape (html url : string) (now : Z) :
  let page := parse_page html url now in
  no_markup (title page) = true /\
  starts_with_text (title page) = true /\ ends_with_text (title page) = true /\
  string_forall (fun a => negb (Ascii.eqb quot a)) (description page) = true /\
  List.Forall (fun keyword =>
                 starts_with_text keyword = true /\ ends_with_text keyword = true /\
                 string_forall (fun a => negb (Ascii.eqb quot a)) keyword = true)
              (keywords page).
Proof.
  unfold parse_page. cbv zeta. cbn [title description keywords].
  split; [|split; [|split; [|split]]].
  - destruct (js_match title_re html) as [m|] eqn:Hm; [|reflexivity].
    apply trim_forall, replace_first_forall, (title_text html), Hm.
  - destruct (js_match title_re html); [apply trim_ends|reflexivity].
  - destruct (js_match title_re html); [apply trim_ends|reflexivity].
  - destruct (js_match (meta_re "description") html) as [m|] eqn:Hm; [|reflexivity].
    apply (meta_text "description" html), Hm.
  - destruct (js_match (meta_re "keywords") html) as [m|] eqn:Hm; [|constructor].
    apply List.Forall_map.
    eapply List.Forall_impl; [|apply split_comma_forall, (meta_text "keywords" html), Hm].
    intros w Hw. destruct (trim_ends w) as [Hs He].
    split; [exact Hs|]. split; [exact He|]. apply trim_forall, Hw.
Qed.
End PageFacts.

(** X19. The sections of a parsed page are numbered in document order from
    'section-0'; each has a level from 1 to 6, a heading without [<] and
    without white space at either end, and a content that is empty or
    normalised text (no white space at either end, single spaces only). *)
Theorem X19_sections_are_numbered_and_clean :
  forall (html url : string) (now : Z) (i : nat) (sec : ContentSection),
    nth_error (sections (Api.parse_page html url now)) i = Some sec ->
    section_id sec = "section-" +:+ Js.nat_to_string i /\
    1 <= level sec <= 6 /\
    Shape.no_markup (heading sec) = true /\
    Shape.starts_with_text (heading sec) = true /\
    Shape.ends_with_text (heading sec) = true /\
    Shape.starts_with_text (section_content sec) = true /\
    Shape.ends_with_text (section_content sec) = true /\
    Shape.squeezed (section_content sec) = true.
Proof. exact PageFacts.sections_shape. Qed.

(** The heading of the sample page. *)
Lemma X19_sample :
  section_id (mkSection "section-0" "Troubleshooting IAM" "Check the policy attached to the role Retry" 1)
  = "section-" +:+ Js.nat_to_string 0.
Proof.
  apply (X19_sections_are_numbered_and_clean Sample.iam_page Sample.iam_url 0 0).
  vm_compute. reflexivity.
Defined.

(** X20. The header fields of a parsed page: the title holds no [<] and no
    white space at either end; the description holds no double quote; every
    keyword holds no double quote and no white space at either end. *)
Theorem X20_header_fields_are_clean :
  forall (html url : string) (now : Z),
    let page := Api.parse_page html url now in
    Shape.no_markup (title page) = true /\
    Shape.starts_with_text (title page) = true /\
    Shape.ends_with_text (title page) = true /\
    Spec.string_forall (fun a => negb (Ascii.eqb Utils.quot a)) (description page) = true /\
    List.Forall (fun keyword =>
                   Shape.starts_with_text keyword = true /\
                   Shape.ends_with_text keyword = true /\
                   Spec.string_forall (fun a => negb (Ascii.eqb Utils.quot a)) keyword = true)
                (keywords page).
Proof. exact PageFacts.header_shape. Qed.

Module ClockFacts.
Import Api Spec Inv.

Lemma reads_trans (n m : nat) (w w1 w2 : World) :
  reads n w w1 -> reads m w1 w2 -> reads (n + m) w w2.
Proof. unfold reads. lia. Qed.

(** One call of the fetcher reads the clock at most three times: for the
    age of the entry, in the parser and for the timestamp. *)
Lemma fetch_reads (E : Env) (url : string) (w : World) :
  reads 3 w (snd (fetchAwsDocContent E url w)).
Proof.
  rewrite ApiFacts.fetchAwsDocContent_cases.
  assert (Hc : reads 1 w (checked url w)).
  { unfold reads, checked. destruct (contentCache w !! url); cbn; lia. }
  unfold reads in *.
  destruct (fresh_entry E url w); [cbn [snd]; lia|].
  destruct (fetched_page E url (checked url w)); cbn; lia.
Qed.

Lemma search_pages_reads (E : Env) (query : string)
  (categoryFilter : option TroubleshootingCategory) (pages : list string) :
  forall acc w,
    reads (3 * length pages) w (snd (search_pages E pages query categoryFilter acc w)).
Proof.
  induction pages as [|page pages IH]; intros acc w; cbn [search_pages].
  - unfold reads. cbn. lia.
  - pose proof (fetch_reads E page w) as Hfetch.
    unfold bind at 1. unfold try_catch, bind at 1.
    destruct (fetchAwsDocContent E page w) as [[r|e] w1]; cbn [snd] in Hfetch.
    + assert (Hnext : forall acc1,
                 reads (3 * length (page :: pages)) w
                       (snd (search_pages E pages query categoryFilter acc1 w1))).
      { intros acc1. specialize (IH acc1 w1). unfold reads in *. cbn [length]. lia. }
      destruct r as [c|]; [destruct (contentMatchesQuery c query categoryFilter)|];
        cbn; apply Hnext.
    + cbn. specialize (IH acc w1). unfold reads in *. cbn [length]. lia.
Qed.

Lemma search_services_reads (E : Env) (query : string)
  (categoryFilter : option TroubleshootingCategory) (maxResults : Z)
  (services : list string) :
  forall acc w,
    reads (3 * length (candidate_urls services)) w
          (snd (search_services E services query categoryFilter maxResults acc w)).
Proof.
  induction services as [|service services IH]; intros acc w; cbn [search_services].
  - unfold reads. cbn. lia.
  - destruct (Z.of_nat (length acc) >=? maxResults)%Z; [unfold reads; cbn [snd ret]; lia|].
    unfold candidate_urls. cbn [flat_map]. fold (candidate_urls services).
    rewrite length_app.
    destruct (object_index AWS_SERVICE_PATTERNS service) as [servicePattern|].
    + unfold bind at 1. unfold try_catch, bind at 1, searchServiceDocs.
      pose proof (search_pages_reads E query categoryFilter
                    (getTroubleshootingUrls service servicePattern) [] w) as Hpages.
      destruct (search_pages E _ query categoryFilter [] w) as [[found|e] w1];
        cbn [snd] in Hpages; cbn [ret].
      * match goal with |- context [search_services E services _ _ _ ?acc1 w1] =>
          specialize (IH acc1 w1) end.
        unfold reads in *. lia.
      * specialize (IH acc w1). unfold reads in *. lia.
    + specialize (IH acc w). unfold reads in *. cbn [length]. lia.
Qed.

(** A whole search: the response, the readings of the clock and the search
    time. *)
Lemma search_clock (E : Env) (searchRequest : CloudProviderSearchRequest) (w : World) :
  exists response w',
    searchCloudProviderDocs E searchRequest w = (Returned response, w') /\
    ticks w + 2 <= ticks w' <= ticks w + 2 + 3 * length (searched_urls searchRequest) /\
    searchTime response = (clock E (ticks w' - 1) - clock E (ticks w))%Z.
Proof.
  unfold searchCloudProviderDocs, searched_urls.
  unfold bind at 1. unfold Date_now at 1. unfold try_catch.
  destruct (req_provider searchRequest) eqn:Hprovider.
  - unfold searchAwsDocs.
    pose proof (search_services_reads E (req_query searchRequest)
                  (req_category searchRequest)
                  (effective_maxResults (req_maxResults searchRequest))
                  (servicesToSearch (req_service searchRequest)) []
                  (mkWorld (contentCache w) (S (ticks w)) (requests w))) as Hreads.
    destruct (SearchFacts.search_services_effects E (req_query searchRequest)
                (req_category searchRequest)
                (effective_maxResults (req_maxResults searchRequest))
                (servicesToSearch (req_service searchRequest)) []
                (mkWorld (contentCache w) (S (ticks w)) (requests w)))
      as (found & w1 & Hrun & _).
    rewrite Hrun in Hreads. unfold bind at 1. rewrite Hrun. cbn.
    eexists. eexists. split; [reflexivity|]. cbn [searchTime ticks].
    unfold reads in Hreads. cbn [snd ticks] in Hreads.
    split; [lia|]. cbn [Nat.sub]. rewrite ?Nat.sub_0_r. reflexivity.
  - cbn. eexists. eexists. split; [reflexivity|]. cbn. split; [lia|].
    rewrite ?Nat.sub_0_r. reflexivity.
  - cbn. eexists. eexists. split; [reflexivity|]. cbn. split; [lia|].
    rewrite ?Nat.sub_0_r. reflexivity.
Qed.
End ClockFacts.

(** X21. A search reads the clock at least twice and at most twice plus
    three times per candidate page (at most 170 times), and its search time
    is the last reading minus the first; with a clock that never goes back
    the search time is not negative. *)
Theorem X21_search_time_spans_the_search :
  forall (E : Api.Env) (searchRequest : CloudProviderSearchRequest) (w : Api.World),
  exists response w',
    Api.searchCloudProviderDocs E searchRequest w = (Api.Returned response, w') /\
    Api.ticks w + 2 <= Api.ticks w' <= Api.ticks w + 170 /\
    searchTime response = (Api.clock E (Api.ticks w' - 1) - Api.clock E (Api.ticks w))%Z /\
    ((forall i j, i <= j -> (Api.clock E i <= Api.clock E j)%Z) ->
     (0 <= searchTime response)%Z).
Proof.
  intros E searchRequest w.
  destruct (ClockFacts.search_clock E searchRequest w) as (response & w' & Hrun & Hticks & Htime).
  pose proof (SearchFacts2.searched_urls_length searchRequest) as [Hlen _].
  exists response, w'. split; [exact Hrun|]. split; [lia|]. split; [exact Htime|].
  intros Hclock. rewrite Htime.
  specialize (Hclock (Api.ticks w) (Api.ticks w' - 1)). lia.
Qed.

(** A search of the sample page with a clock that advances by a second
    per reading. *)
Lemma X21_sample :
  exists response w',
    Api.searchCloudProviderDocs Sample.one_page
      (mkRequest "iam" AWS (Some "iam") None None None) Sample.empty_world
    = (Api.Returned response, w') /\
    (0 <= searchTime response)%Z.
Proof.
  destruct (X21_search_time_spans_the_search Sample.one_page
              (mkRequest "iam" AWS (Some "iam") None None None) Sample.empty_world)
    as (response & w' & Hrun & _ & _ & Hclock).
  exists response, w'. split; [exact Hrun|]. apply Hclock.
  intros i j Hij. unfold Sample.one_page, Sample.sample_clock. cbn [Api.clock]. lia.
Defined.

Module LibraryFacts.
Import Api Library JsFacts.

Lemma sapp_not_empty (a : ascii) (s t : string) : String a s +:+ t <> EmptyString.
Proof. rewrite sapp_cons. discriminate. Qed.

(** The request that [fetchLibraryDocumentation] hands to [fetch]. *)
Lemma documentation_request_built {number} `{JsNumber number} (path : string)
  (options : DocOptions number) :
  with_headers
    (searchParams_set
       (match topic options with
        | Some (String _ _ as t) =>
            searchParams_set
              (match tokens options with
               | Some n =>
                   if truthy n
                   then searchParams_set (mkFetch (CONTEXT7_API_BASE_URL +:+ "/v1/" +:+ path) [] [])
                                         "tokens" (Number_toString n)
                   else mkFetch (CONTEXT7_API_BASE_URL +:+ "/v1/" +:+ path) [] []
               | None => mkFetch (CONTEXT7_API_BASE_URL +:+ "/v1/" +:+ path) [] []
               end) "topic" t
        | _ =>
            match tokens options with
            | Some n =>
                if truthy n
                then searchParams_set (mkFetch (CONTEXT7_API_BASE_URL +:+ "/v1/" +:+ path) [] [])
                                      "tokens" (Number_toString n)
                else mkFetch (CONTEXT7_API_BASE_URL +:+ "/v1/" +:+ path) [] []
            | None => mkFetch (CONTEXT7_API_BASE_URL +:+ "/v1/" +:+ path) [] []
            end
        end) "type" DEFAULT_TYPE)
    [("X-Context7-Source", "mcp-server")]
  = documentation_request path options.
Proof.
  unfold documentation_request, documentation_params.
  destruct (tokens options) as [n|]; [destruct (truthy n)|];
    destruct (topic options) as [[|a t]|]; reflexivity.
Qed.

(** [fetchLibraryDocumentation], with its request named. *)
Lemma fetchLibraryDocumentation_eq {number} `{JsNumber number} (E : LibEnv number)
  (libraryId : string) (options : DocOptions number) :
  fetchLibraryDocumentation E libraryId options =
  caught
    match invalid_url E (target (documentation_request (strip_slash libraryId) options)) with
    | Some e => Thrown e
    | None =>
        match lib_network E (documentation_request (strip_slash libraryId) options) with
        | Rejected e => Thrown e
        | Resolved status text _ =>
            if negb (response_ok status)
            then
              if (status =? 429)%Z
              then Returned (Some rate_limited)
              else Returned
                     (Some ("Failed to fetch documentation. Please try again later. Error code: "
                            +:+ Z_toString status))
            else
              match text with
              | Thrown e => Thrown e
              | Returned text =>
                  if String.eqb text EmptyString
                     || String.eqb text "No content available"
                     || String.eqb text "No context data available"
                  then Returned None
                  else Returned (Some text)
              end
        end
    end
    (fun error =>
       Some ("Error fetching library documentation. Please try again later. " +:+ error)).
Proof.
  unfold fetchLibraryDocumentation, new_URL. cbv zeta. cbn [target documentation_request].
  destruct (invalid_url E _); [reflexivity|].
  rewrite <- (documentation_request_built (strip_slash libraryId) options).
  destruct (topic options) as [[|a t]|]; reflexivity.
Qed.

Lemma no_content_test (text : string) :
  String.eqb text EmptyString || String.eqb text "No content available"
  || String.eqb text "No context data available" = true <-> In text no_content.
Proof.
  unfold no_content. cbn [In]. rewrite !orb_true_iff, !String.eqb_eq.
  split; [intros [[->| ->]| ->]; auto|intros [<-|[<-|[<-|[]]]]; auto].
Qed.

Lemma documentation_outcome {number} `{JsNumber number} (E : LibEnv number)
  (libraryId : string) (options : DocOptions number) :
  exists r,
    fetchLibraryDocumentation E libraryId options = Returned r /\
    (r = None <->
     invalid_url E (target (documentation_request (strip_slash libraryId) options)) = None /\
     exists status text json,
       lib_network E (documentation_request (strip_slash libraryId) options)
         = Resolved status (Returned text) json /\
       response_ok status = true /\ In text no_content) /\
    (forall text, r = Some text -> text <> EmptyString).
Proof.
  rewrite fetchLibraryDocumentation_eq. unfold caught.
  destruct (invalid_url E _) as [e|].
  { eexists. split; [reflexivity|]. split.
    - split; [discriminate|]. intros [Hbad _]. discriminate.
    - intros text [= <-]. apply sapp_not_empty. }
  destruct (lib_network E _) as [e|status text json].
  { eexists. split; [reflexivity|]. split.
    - split; [discriminate|]. intros (_ & status & text & json & Hbad & _). discriminate.
    - intros text [= <-]. apply sapp_not_empty. }
  destruct (response_ok status) eqn:Hok; cbn [negb].
  - destruct text as [text|e].
    + destruct (String.eqb text EmptyString || String.eqb text "No content available"
                || String.eqb text "No context data available") eqn:Htest.
      * eexists. split; [reflexivity|]. split; [|discriminate].
        split; [|reflexivity]. intros _. split; [reflexivity|].
        exists status, text, json. split; [reflexivity|]. split; [exact Hok|].
        apply no_content_test, Htest.
      * eexists. split; [reflexivity|]. split.
        -- split; [discriminate|].
           intros (_ & status' & text' & json' & [= <- <- <-] & _ & Hin).
           apply no_content_test in Hin. congruence.
        -- intros text' [= <-] ->. discriminate Htest.
    + eexists. split; [reflexivity|]. split.
      * split; [discriminate|].
        intros (_ & status' & text' & json' & Hbad & _). discriminate.
      * intros text [= <-]. apply sapp_not_empty.
  - assert (Hnot : forall status' text' json',
               Resolved status text json = Resolved status' (Returned text') json' ->
               response_ok status' = true -> False).
    { intros status' text' json' [= <- _ _] Hok'. congruence. }
    destruct (status =? 429)%Z; eexists; (split; [reflexivity|]); split;
      try (split; [discriminate|];
           intros (_ & status' & text' & json' & Heq & Hok' & _);
           exfalso; exact (Hnot _ _ _ Heq Hok')).
    + intros text' [= <-]. discriminate.
    + intros text' [= <-]. apply sapp_not_empty.
Qed.

Lemma strip_slash_slash (libraryId : string) : strip_slash ("/" +:+ libraryId) = libraryId.
Proof. reflexivity. Qed.

Lemma strip_slash_other (libraryId : string) :
  String.prefix "/" libraryId = false -> strip_slash libraryId = libraryId.
Proof.
  destruct libraryId as [|a s]; [reflexivity|]. cbn [String.prefix strip_slash].
  destruct (ascii_dec "/" a) as [<-|Ha].
  - destruct s; discriminate.
  - intros _. destruct (Ascii.eqb a "/") eqn:Heq; [|reflexivity].
    apply Ascii.eqb_eq in Heq. congruence.
Qed.

Lemma search_outcome {number} `{JsNumber number} (E : LibEnv number) (query : string) :
  exists response,
    searchLibraries E query = Returned response /\
    ((exists status text,
         invalid_url E (target (search_request query)) = None /\
         lib_network E (search_request query) = Resolved status text (Returned response) /\
         response_ok status = true) \/
     (lib_results response = Some [] /\
      (exists message, lib_error response = Some message /\ message <> EmptyString) /\
      formatSearchResults response = no_libraries)).
Proof.
  unfold searchLibraries, new_URL, caught. cbn [target search_request].
  assert (Hfail : forall message : string,
             message <> EmptyString ->
             exists response,
               Returned (mkSearchResponse (number := number) (Some message) (Some []))
               = Returned response /\
               ((exists status text,
                    invalid_url E (CONTEXT7_API_BASE_URL +:+ "/v1/search") = None /\
                    lib_network E (search_request query)
                    = Resolved status text (Returned response) /\
                    response_ok status = true) \/
                (lib_results response = Some [] /\
                 (exists message, lib_error response = Some message /\
                                  message <> EmptyString) /\
                 formatSearchResults response = no_libraries))).
  { intros message Hmessage. eexists. split; [reflexivity|]. right.
    split; [reflexivity|]. split; [eauto|reflexivity]. }
  destruct (invalid_url E _) as [e|] eqn:Hurl; [apply Hfail, sapp_not_empty|].
  change (searchParams_set (mkFetch (CONTEXT7_API_BASE_URL +:+ "/v1/search") [] [])
                           "query" query) with (search_request query).
  destruct (lib_network E (search_request query)) as [e|status text json] eqn:Hnet;
    [apply Hfail, sapp_not_empty|].
  destruct (response_ok status) eqn:Hok; cbn [negb].
  - destruct json as [response|e]; [|apply Hfail, sapp_not_empty].
    exists response. split; [reflexivity|]. left. exists status, text. auto.
  - destruct (status =? 429)%Z; apply Hfail; [discriminate|apply sapp_not_empty].
Qed.

Lemma fold_join_head (sep : string) (a : ascii) (xs : list string) :
  forall t, exists t', fold_left (fun acc y => acc +:+ sep +:+ y) xs (String a t) = String a t'.
Proof.
  induction xs as [|x xs IH]; intros t; cbn [fold_left]; [eauto|].
  rewrite sapp_cons. apply IH.
Qed.

Lemma formatSearchResult_head {number} `{JsNumber number} (result : SearchResult number) :
  exists t, formatSearchResult result = String "-" t.
Proof.
  unfold formatSearchResult. cbv zeta.
  assert (Hjoin : forall rest, exists t,
             join newline (("- Title: " +:+ lib_title result) :: rest) = String "-" t).
  { intros rest. unfold join. change ("- Title: " +:+ lib_title result)
      with (String "-" (" Title: " +:+ lib_title result)). apply fold_join_head. }
  destruct (totalSnippets result) as [n|]; [destruct (negb (is_minus_one n))|];
    (destruct (trustScore result) as [m|]; [destruct (negb (is_minus_one m))|]);
    destruct (versions result) as [[|v vs]|]; apply Hjoin.
Qed.

Lemma formatSearchResults_cases {number} `{JsNumber number}
  (searchResponse : SearchResponse number) :
  (formatSearchResults searchResponse = no_libraries <->
   lib_results searchResponse = None \/ lib_results searchResponse = Some []) /\
  formatSearchResults searchResponse <> EmptyString.
Proof.
  unfold formatSearchResults.
  destruct (lib_results searchResponse) as [[|result results]|].
  - split; [split; auto|discriminate].
  - destruct (formatSearchResult_head result) as [t Ht].
    cbn [map]. rewrite Ht. unfold join.
    destruct (fold_join_head (newline +:+ "----------" +:+ newline) "-"
                (map formatSearchResult results) t) as [t' ->].
    split; [|discriminate]. split; [discriminate|]. intros [H0|H0]; discriminate.
  - split; [split; auto|discriminate].
Qed.

Lemma formatSearchResult_fields {number} `{JsNumber number} (r r' : SearchResult number) :
  lib_title r = lib_title r' -> lib_id r = lib_id r' ->
  lib_description r = lib_description r' ->
  totalSnippets r = totalSnippets r' -> trustScore r = trustScore r' ->
  versions r = versions r' ->
  formatSearchResult r = formatSearchResult r'.
Proof.
  intros Ht Hi Hd Hs Hts Hv. unfold formatSearchResult.
  rewrite Ht, Hi, Hd, Hs, Hts, Hv. reflexivity.
Qed.
End LibraryFacts.

(** X22. [searchLibraries] always returns a response and throws nothing.
    The response is the decoded body when the status is ok and the body
    decodes; in every other case (an invalid URL, a rejected request, a
    status that is not ok, a body that does not decode) it has an empty
    result list and a non-empty error message, and [formatSearchResults]
    renders it as the text for no matching library. *)
Theorem X22_library_search_failures_look_empty :
  forall (number : Type) (N : Library.JsNumber number) (E : Library.LibEnv number)
         (query : string),
  exists response,
    Library.searchLibraries E query = Api.Returned response /\
    ((exists status text,
         Library.invalid_url E (Library.target (Library.search_request query)) = None /\
         Library.lib_network E (Library.search_request query)
         = Library.Resolved status text (Api.Returned response) /\
         Api.response_ok status = true) \/
     (Library.lib_results response = Some [] /\
      (exists message, Library.lib_error response = Some message /\ message <> EmptyString) /\
      Library.formatSearchResults response = Library.no_libraries)).
Proof. intros number N. exact LibraryFacts.search_outcome. Qed.

(** X23. [fetchLibraryDocumentation] always returns and throws nothing.  It
    returns null exactly when the URL is valid, the status is ok and the
    body is empty or one of the two placeholder texts; every other result,
    an error message included, is a non-empty string. *)
Theorem X23_documentation_is_null_only_for_empty_bodies :
  forall (number : Type) (N : Library.JsNumber number) (E : Library.LibEnv number)
         (libraryId : string) (options : Library.DocOptions number),
  exists r,
    Library.fetchLibraryDocumentation E libraryId options = Api.Returned r /\
    (r = None <->
     Library.invalid_url E
       (Library.target (Library.documentation_request (Library.strip_slash libraryId) options))
     = None /\
     exists status text json,
       Library.lib_network E
         (Library.documentation_request (Library.strip_slash libraryId) options)
       = Library.Resolved status (Api.Returned text) json /\
       Api.response_ok status = true /\ In text Library.no_content) /\
    (forall text, r = Some text -> text <> EmptyString).
Proof. intros number N. exact LibraryFacts.documentation_outcome. Qed.

(** X24. [fetchLibraryDocumentation] drops one leading slash of the library
    identifier: an identifier that does not start with a slash gives the
    same result with and without a slash in front of it.  The result
    depends on the environment only through the validity of one URL and the
    outcome of one request, whose last parameter is the type 'txt'. *)
Theorem X24_one_leading_slash_is_dropped :
  forall (number : Type) (N : Library.JsNumber number) (E : Library.LibEnv number)
         (libraryId : string) (options : Library.DocOptions number),
    String.prefix "/" libraryId = false ->
    Library.fetchLibraryDocumentation E ("/" +:+ libraryId) options
    = Library.fetchLibraryDocumentation E libraryId options /\
    (forall E' : Library.LibEnv number,
        Library.invalid_url E' (Library.target (Library.documentation_request libraryId options))
        = Library.invalid_url E
            (Library.target (Library.documentation_request libraryId options)) ->
        Library.lib_network E' (Library.documentation_request libraryId options)
        = Library.lib_network E (Library.documentation_request libraryId options) ->
        Library.fetchLibraryDocumentation E' libraryId options
        = Library.fetchLibraryDocumentation E libraryId options) /\
    List.last (Library.set_calls (Library.documentation_request libraryId options))
              (EmptyString, EmptyString) = ("type", "txt").
Proof.
  intros number N E libraryId options Hslash.
  split; [|split].
  - rewrite !LibraryFacts.fetchLibraryDocumentation_eq, LibraryFacts.strip_slash_slash,
      (LibraryFacts.strip_slash_other _ Hslash). reflexivity.
  - intros E' Hurl Hnet.
    rewrite !LibraryFacts.fetchLibraryDocumentation_eq,
      (LibraryFacts.strip_slash_other _ Hslash), Hurl, Hnet. reflexivity.
  - unfold Library.documentation_request, Library.documentation_params.
    cbn [Library.set_calls]. rewrite List.app_assoc. apply List.last_last.
Qed.

(** X25. [formatSearchResults] never returns the empty string, and returns
    the text for no matching library exactly when the response has no
    result list or an empty one. *)
Theorem X25_formatted_results_name_their_absence :
  forall (number : Type) (N : Library.JsNumber number)
         (searchResponse : Library.SearchResponse number),
    (Library.formatSearchResults searchResponse = Library.no_libraries <->
     Library.lib_results searchResponse = None \/
     Library.lib_results searchResponse = Some []) /\
    Library.formatSearchResults searchResponse <> EmptyString.
Proof. intros number N. exact LibraryFacts.formatSearchResults_cases. Qed.

(** X26. The text of one search result is made of its title, identifier,
    description, snippet count, trust score and versions only: two results
    that agree on these have the same text, whatever their branch, update
    date, state, token and page counts and stars. *)
Theorem X26_formatted_result_ignores_the_other_fields :
  forall (number : Type) (N : Library.JsNumber number) (r r' : Library.SearchResult number),
    Library.lib_title r = Library.lib_title r' ->
    Library.lib_id r = Library.lib_id r' ->
    Library.lib_description r = Library.lib_description r' ->
    Library.totalSnippets r = Library.totalSnippets r' ->
    Library.trustScore r = Library.trustScore r' ->
    Library.versions r = Library.versions r' ->
    Library.formatSearchResult r = Library.formatSearchResult r'.
Proof. intros number N. exact LibraryFacts.formatSearchResult_fields. Qed.

(** The identifier of a library, with and without its leading slash. *)
Lemma X24_sample :
  Library.fetchLibraryDocumentation Library.sample_server "/vercel/next.js"
    (Library.mkOptions (Some 5000%Z) (Some "routing"))
  = Api.Returned (Some "Routing: the app directory").
Proof.
  destruct (X24_one_leading_slash_is_dropped Z Library.Z_JsNumber Library.sample_server
              "vercel/next.js" (Library.mkOptions (Some 5000%Z) (Some "routing")))
    as (Hslash & _ & _).
  - vm_compute. reflexivity.
  - change ("/vercel/next.js") with ("/" +:+ "vercel/next.js").
    rewrite Hslash. vm_compute. reflexivity.
Defined.

(** Two results that differ in their stars and their branch. *)
Lemma X26_sample :
  Library.formatSearchResult (Library.sample_result (Some 120000%Z) "canary")
  = Library.formatSearchResult (Library.sample_result None "main").
Proof.
  apply (X26_formatted_result_ignores_the_other_fields Z Library.Z_JsNumber); reflexivity.
Defined.

Module OrderFacts.
Import Api Spec Inv.

Lemma url_parse_page (html page : string) (t : Z) : url (parse_page html page t) = page.
Proof. reflexivity. Qed.

(** The page loop finds its records in page order, at most one per
    page. *)
Lemma search_pages_order (E : Env) (query : string)
  (categoryFilter : option TroubleshootingCategory) (pages : list string) :
  forall acc w,
    parsed_cache w ->
    exists found w',
      search_pages E pages query categoryFilter acc w = (Returned (acc ++ found), w') /\
      map url found `sublist_of` pages /\
      parsed_cache w'.
Proof.
  induction pages as [|page pages IH]; intros acc w Hw; cbn [search_pages].
  - exists [], w. rewrite List.app_nil_r. split; [reflexivity|]. split; [constructor|exact Hw].
  - destruct (SearchFacts.fetch_effects E page w) as (r & Hr & Heff & Hparse).
    unfold bind at 1. unfold try_catch, bind at 1.
    destruct (fetchAwsDocContent E page w) as [r0 w1]. cbn [fst snd] in Hr, Heff. subst r0.
    assert (Hw1 : parsed_cache w1) by (apply Heff, Hw).
    assert (Hskip : exists found w',
               search_pages E pages query categoryFilter acc w1 = (Returned (acc ++ found), w') /\
               map url found `sublist_of` page :: pages /\ parsed_cache w').
    { destruct (IH acc w1 Hw1) as (found & w2 & Hrun & Hsub & Hw2).
      exists found, w2. split; [exact Hrun|]. split; [apply sublist_cons, Hsub|exact Hw2]. }
    destruct r as [c|]; cbn; [|exact Hskip].
    destruct (contentMatchesQuery c query categoryFilter); cbn; [|exact Hskip].
    destruct (Hparse Hw c eq_refl) as (html & t & ->).
    destruct (IH (acc ++ [parse_page html page t]) w1 Hw1) as (found & w2 & Hrun & Hsub & Hw2).
    exists (parse_page html page t :: found), w2.
    split; [rewrite Hrun, <- List.app_assoc; reflexivity|].
    split; [cbn [map]; rewrite url_parse_page; apply sublist_skip, Hsub|exact Hw2].
Qed.

Lemma slice0_sublist {A} (xs : list A) (n : Z) : slice0 xs n `sublist_of` xs.
Proof. unfold slice0. destruct (n <? 0)%Z; apply sublist_take. Qed.

Lemma sublist_map {A B} (f : A -> B) (xs ys : list A) :
  xs `sublist_of` ys -> map f xs `sublist_of` map f ys.
Proof. induction 1; cbn [map]; [constructor|apply sublist_skip|apply sublist_cons]; assumption. Qed.

(** The service loop finds its records in candidate order. *)
Lemma search_services_order (E : Env) (query : string)
  (categoryFilter : option TroubleshootingCategory) (maxResults : Z)
  (services : list string) :
  forall acc w,
    parsed_cache w ->
    exists found w',
      search_services E services query categoryFilter maxResults acc w
        = (Returned (acc ++ found), w') /\
      map url found `sublist_of` candidate_urls services.
Proof.
  induction services as [|service services IH]; intros acc w Hw; cbn [search_services].
  - exists [], w. rewrite List.app_nil_r. split; [reflexivity|constructor].
  - destruct (Z.of_nat (length acc) >=? maxResults)%Z.
    { exists [], w. rewrite List.app_nil_r. split; [reflexivity|apply sublist_nil_l]. }
    unfold candidate_urls. cbn [flat_map]. fold (candidate_urls services).
    destruct (object_index AWS_SERVICE_PATTERNS service) as [servicePattern|].
    + unfold bind at 1. unfold try_catch, bind at 1, searchServiceDocs.
      destruct (search_pages_order E query categoryFilter
                  (getTroubleshootingUrls service servicePattern) [] w Hw)
        as (found1 & w1 & Hrun1 & Hsub1 & Hw1).
      rewrite Hrun1. cbn [List.app ret].
      destruct (IH (acc ++ slice0 found1 (maxResults - Z.of_nat (length acc))) w1 Hw1)
        as (found2 & w2 & Hrun2 & Hsub2).
      exists (slice0 found1 (maxResults - Z.of_nat (length acc)) ++ found2), w2.
      rewrite List.app_assoc. split; [exact Hrun2|].
      rewrite map_app. apply sublist_app; [|exact Hsub2].
      etransitivity; [apply sublist_map, slice0_sublist|exact Hsub1].
    + cbn [List.app]. apply IH, Hw.
Qed.

Lemma search_order (E : Env) (searchRequest : CloudProviderSearchRequest) (w : World) :
  parsed_cache w ->
  exists response w',
    searchCloudProviderDocs E searchRequest w = (Returned response, w') /\
    map url (results response) `sublist_of` searched_urls searchRequest.
Proof.
  intros Hw. unfold searchCloudProviderDocs, searched_urls.
  unfold bind at 1. unfold Date_now at 1. unfold try_catch.
  destruct (req_provider searchRequest) eqn:Hprovider.
  - unfold searchAwsDocs.
    destruct (search_services_order E (req_query searchRequest)
                (req_category searchRequest)
                (effective_maxResults (req_maxResults searchRequest))
                (servicesToSearch (req_service searchRequest)) []
                (mkWorld (contentCache w) (S (ticks w)) (requests w)) Hw)
      as (found & w1 & Hrun & Hsub).
    unfold bind at 1. rewrite Hrun. cbn.
    eexists. eexists. split; [reflexivity|exact Hsub].
  - cbn. eexists. eexists. split; [reflexivity|constructor].
  - cbn. eexists. eexists. split; [reflexivity|constructor].
Qed.
End OrderFacts.

(** X27. When every cache entry holds a parser record, the records of a
    search come in candidate order, at most one per candidate URL: their
    URLs are a subsequence of the candidate URLs of the searched services,
    so that no two results have the same URL. *)
Theorem X27_results_follow_the_candidate_order :
  forall (E : Api.Env) (searchRequest : CloudProviderSearchRequest) (w : Api.World),
    Inv.parsed_cache w ->
    exists response w',
      Api.searchCloudProviderDocs E searchRequest w = (Api.Returned response, w') /\
      map url (results response) `sublist_of` Inv.searched_urls searchRequest /\
      List.NoDup (map url (results response)).
Proof.
  intros E searchRequest w Hw.
  destruct (OrderFacts.search_order E searchRequest w Hw) as (response & w' & Hrun & Hsub).
  exists response, w'. split; [exact Hrun|]. split; [exact Hsub|].
  apply NoDup_ListNoDup. eapply sublist_NoDup; [|exact Hsub].
  apply NoDup_ListNoDup, SearchFacts2.searched_urls_NoDup.
Qed.

(** The search of the sample page from an empty cache. *)
Lemma X27_sample :
  exists response w',
    Api.searchCloudProviderDocs Sample.one_page
      (mkRequest "iam" AWS (Some "iam") None None None) Sample.empty_world
    = (Api.Returned response, w') /\
    List.NoDup (map url (results response)).
Proof.
  destruct (X27_results_follow_the_candidate_order Sample.one_page
              (mkRequest "iam" AWS (Some "iam") None None None) Sample.empty_world)
    as (response & w' & Hrun & _ & Hnodup).
  - intros u entry H. vm_compute in H. discriminate H.
  - exists response, w'. split; [exact Hrun|exact Hnodup].
Defined.

Module ErrorFacts.
Import RegExp Spec Utils UtilsFacts.

Lemma errors_clean (text error : string) :
  In error (extractErrorsFromText text) ->
  error <> EmptyString /\ no_space error = true.
Proof.
  rewrite extractErrors_first_seen, first_seen_In. unfold error_candidates.
  intros (pattern & Hpattern & Hin)%in_flat_map.
  apply in_map_iff in Hin as (m & <- & Hm).
  exact (error_candidate_clean pattern text m Hpattern Hm).
Qed.
End ErrorFacts.

(** X28. Every error returned by [extractErrorsFromText] is a non-empty
    string without white space. *)
Theorem X28_errors_are_single_tokens :
  forall text error : string,
    In error (Utils.extractErrorsFromText text) ->
    error <> EmptyString /\ Spec.no_space error = true.
Proof. exact ErrorFacts.errors_clean. Qed.

(** A status line: its code and the one word of its reason phrase, found
    by the third pattern, are returned as two errors. *)
Lemma X28_sample :
  Utils.extractErrorsFromText "The call returned HTTP 403 Forbidden" = ["403"; "Forbidden"] /\
  Spec.no_space "403" = true.
Proof.
  assert (Hrun : Utils.extractErrorsFromText "The call returned HTTP 403 Forbidden"
                 = ["403"; "Forbidden"]) by (vm_compute; reflexivity).
  split; [exact Hrun|].
  apply (X28_errors_are_single_tokens "The call returned HTTP 403 Forbidden" "403").
  rewrite Hrun. left. reflexivity.
Defined.

Module TagFacts.
Import RegExp Spec Shape Utils JsFacts RegExpFacts.

Lemma gt_free_sapp (x y : string) : gt_free (x +:+ y) = gt_free x && gt_free y.
Proof. apply string_forall_sapp. Qed.

Lemma gt_free_cons (a : ascii) (s : string) :
  gt_free (String a s) = negb (Ascii.eqb ">" a) && gt_free s.
Proof. reflexivity. Qed.

Lemma from_gt_cases (t : string) :
  (from_gt t = EmptyString /\ gt_free t = true) \/
  (exists v, from_gt t = String ">" v /\ gt_free t = false /\ String.length v < String.length t).
Proof.
  induction t as [|a t IH]; [left; split; reflexivity|].
  cbn [from_gt]. rewrite gt_free_cons.
  destruct (Ascii.eqb ">" a) eqn:Ha.
  - apply Ascii.eqb_eq in Ha as <-. right. exists t. cbn. auto.
  - destruct IH as [[H1 H2]|(v & H1 & H2 & H3)]; [left; rewrite H2; auto|].
    right. exists v. rewrite H2. cbn [String.length]. split; [exact H1|]. split; [reflexivity|lia].
Qed.

Lemma exec_tag_run (a : ascii) (t : string) :
  exec_here tag_re (String a t) =
  if Ascii.eqb "<" a
  then match star_loop (run (none_of ">")) true (S (String.length t)) t no_captures tag_rest with
       | Some (s', c') => Some (mkMatch (consumed (String a t) s') c' s')
       | None => None
       end
  else None.
Proof.
  unfold exec_here, tag_re. cbn [cat fold_right]. unfold chr at 1. cbn [run].
  destruct (Ascii.eqb "<" a); reflexivity.
Qed.

Lemma tag_run_found (t v : string) :
  from_gt t = String ">" v ->
  star_loop (run (none_of ">")) true (S (String.length t)) t no_captures tag_rest
  = Some (v, no_captures).
Proof.
  intros Hv. apply PreFacts.greedy_first; [lia|]. rewrite Hv. reflexivity.
Qed.

Lemma tag_run_needs (t : string) (res : string * captures) :
  star_loop (run (none_of ">")) true (S (String.length t)) t no_captures tag_rest = Some res ->
  gt_free t = false.
Proof.
  intros Hrun.
  pose proof (run_sound (star (none_of ">")) _ (accepts_anything _) t no_captures
                tag_rest res Hrun) as (w & s1 & c1 & -> & _ & _ & _ & Hk).
  unfold tag_rest, chr in Hk. cbn [run] in Hk.
  destruct s1 as [|b s1]; [discriminate|].
  destruct (Ascii.eqb ">" b) eqn:Hb; [|discriminate].
  rewrite gt_free_sapp, gt_free_cons, Hb. cbn. apply andb_false_r.
Qed.

(** A match of [tag_re] starts with [<] and ends at the first [>]. *)
Lemma exec_tag (s : string) (m : Match) :
  exec_here tag_re s = Some m ->
  exists t v, s = String "<" t /\ from_gt t = String ">" v /\ rest m = v /\
              gt_free t = false /\ String.length v < String.length t.
Proof.
  destruct s as [|a t]; [discriminate|]. rewrite exec_tag_run.
  destruct (Ascii.eqb "<" a) eqn:Ha; [|discriminate]. apply Ascii.eqb_eq in Ha as <-.
  destruct (from_gt_cases t) as [[_ Hfree]|(v & Hv & Hfree & Hlen)].
  - destruct (star_loop _ _ _ t no_captures tag_rest) as [[s' c']|] eqn:Hrun; [|discriminate].
    apply tag_run_needs in Hrun. congruence.
  - rewrite (tag_run_found t v Hv). intros [= <-]. exists t, v. auto.
Qed.

Lemma exec_tag_none (a : ascii) (t : string) :
  exec_here tag_re (String a t) = None -> negb (Ascii.eqb "<" a) || gt_free t = true.
Proof.
  rewrite exec_tag_run. destruct (Ascii.eqb "<" a); [|reflexivity]. cbn [negb orb].
  destruct (from_gt_cases t) as [[_ Hfree]|(v & Hv & _ & _)]; [intros _; exact Hfree|].
  rewrite (tag_run_found t v Hv). discriminate.
Qed.

Lemma search_tag_none (s : string) : search tag_re s = None -> no_tag s = true.
Proof.
  induction s as [|a s IH]; [reflexivity|]. cbn [search no_tag].
  destruct (exec_here tag_re (String a s)) eqn:He; [discriminate|].
  destruct (search tag_re s) as [[pre m]|]; [discriminate|]. intros _.
  rewrite (exec_tag_none _ _ He), IH; reflexivity.
Qed.

Lemma search_tag_some (s : string) :
  forall pre m,
    search tag_re s = Some (pre, m) ->
    no_markup pre = true /\ gt_free s = false /\ String.length (rest m) < String.length s.
Proof.
  induction s as [|a s IH]; intros pre m; cbn [search].
  - destruct (exec_here tag_re EmptyString) eqn:He; discriminate.
  - destruct (exec_here tag_re (String a s)) as [m'|] eqn:He.
    + intros [= <- <-]. apply exec_tag in He as (t & v & [= -> ->] & _ & -> & Hfree & Hlen).
      split; [reflexivity|]. rewrite gt_free_cons, Hfree. cbn [String.length].
      split; [apply andb_false_r|lia].
    + destruct (search tag_re s) as [[pre' m']|] eqn:Hs; [|discriminate].
      intros [= <- <-]. destruct (IH pre' m' eq_refl) as (Hpre & Hfree & Hlen).
      apply exec_tag_none in He. rewrite Hfree, orb_false_r in He.
      rewrite gt_free_cons, Hfree. cbn [String.length]. unfold no_markup in *.
      cbn [string_forall]. rewrite Hpre, Ascii.eqb_sym, He.
      split; [reflexivity|]. split; [apply andb_false_r|lia].
Qed.

Lemma no_tag_search (s : string) : no_tag s = true -> search tag_re s = None.
Proof.
  induction s as [|a s IH]; cbn [search no_tag].
  - intros _. reflexivity.
  - intros [Ha Hs]%andb_true_iff.
    destruct (exec_here tag_re (String a s)) as [m|] eqn:He.
    + apply exec_tag in He as (t & v & [= -> ->] & _ & _ & Hfree & _).
      rewrite Hfree in Ha. discriminate.
    + rewrite (IH Hs). reflexivity.
Qed.

Lemma gt_free_no_tag (s : string) : gt_free s = true -> no_tag s = true.
Proof.
  induction s as [|a s IH]; [reflexivity|]. rewrite gt_free_cons. cbn [no_tag].
  intros [_ Hs]%andb_true_iff. rewrite Hs, (IH Hs), orb_true_r. reflexivity.
Qed.

Lemma no_tag_after_text (pre s : string) :
  no_markup pre = true -> no_tag s = true -> no_tag (pre +:+ s) = true.
Proof.
  unfold no_markup. induction pre as [|a pre IH]; [intros _ Hs; exact Hs|].
  rewrite sapp_cons. cbn [string_forall no_tag]. intros [Ha Hpre]%andb_true_iff Hs.
  rewrite Ascii.eqb_sym, Ha, (IH Hpre Hs). reflexivity.
Qed.

(** A part of a text without tags has no tag. *)
Lemma no_tag_parts (x y : string) :
  no_tag (x +:+ y) = true -> no_tag x = true /\ no_tag y = true.
Proof.
  induction x as [|a x IH]; [intros Hy; split; [reflexivity|exact Hy]|].
  rewrite sapp_cons. cbn [no_tag]. intros [Ha Hxy]%andb_true_iff.
  destruct (IH Hxy) as [Hx Hy]. split; [|exact Hy]. rewrite Hx, andb_true_r.
  destruct (Ascii.eqb "<" a); [|reflexivity]. cbn [negb orb] in Ha |- *.
  rewrite gt_free_sapp in Ha. apply andb_true_iff in Ha as [Ha _]. exact Ha.
Qed.

Lemma no_tag_dots (x : string) : no_tag x = true -> no_tag (x +:+ "...") = true.
Proof.
  induction x as [|a x IH]; [reflexivity|].
  rewrite sapp_cons. cbn [no_tag]. intros [Ha Hx]%andb_true_iff.
  rewrite (IH Hx), andb_true_r.
  destruct (Ascii.eqb "<" a); [|reflexivity]. cbn [negb orb] in Ha |- *.
  rewrite gt_free_sapp, Ha. reflexivity.
Qed.

Lemma substring0_prefix (n : nat) (s : string) : exists r, s = Js.substring0 n s +:+ r.
Proof.
  unfold Js.substring0. revert n. induction s as [|a s IH]; intros [|n]; cbn [String.substring].
  - exists EmptyString. reflexivity.
  - exists EmptyString. reflexivity.
  - exists (String a s). reflexivity.
  - destruct (IH n) as [r Hr]. exists r. rewrite sapp_cons, <- Hr. reflexivity.
Qed.

Lemma trimStart_suffix (s : string) : exists p, s = p +:+ Js.trimStart s.
Proof.
  induction s as [|a s IH]; cbn [Js.trimStart]; [exists EmptyString; reflexivity|].
  destruct (Js.is_space a); [|exists EmptyString; reflexivity].
  destruct IH as [p Hp]. exists (String a p). rewrite sapp_cons, <- Hp. reflexivity.
Qed.

Lemma trimEnd_prefix (s : string) : exists r, s = Js.trimEnd s +:+ r.
Proof.
  induction s as [|a s IH]; cbn [Js.trimEnd]; [exists EmptyString; reflexivity|].
  destruct IH as [r Hr]. destruct (Js.trimEnd s) as [|b t].
  - destruct (Js.is_space a); [exists (String a s); reflexivity|].
    exists s. reflexivity.
  - exists r. rewrite sapp_cons, <- Hr. reflexivity.
Qed.

Lemma no_tag_trim (s : string) : no_tag s = true -> no_tag (Js.trim s) = true.
Proof.
  intros Hs. unfold Js.trim.
  destruct (trimStart_suffix s) as [p Hp]. rewrite Hp in Hs.
  apply no_tag_parts in Hs as [_ Hs].
  destruct (trimEnd_prefix (Js.trimStart s)) as [r Hr]. rewrite Hr in Hs.
  apply no_tag_parts in Hs as [Hs _]. exact Hs.
Qed.

Lemma no_tag_ellipsis (n : nat) (s : string) : no_tag s = true -> no_tag (ellipsis n s) = true.
Proof.
  intros Hs. unfold ellipsis. destruct (n <? String.length s); [|exact Hs].
  apply no_tag_dots. destruct (substring0_prefix n s) as [r Hr].
  rewrite Hr in Hs. apply no_tag_parts in Hs as [Hs _]. exact Hs.
Qed.

(** [x.replace(/<[^>]*>/g, "")] leaves no tag. *)
Lemma strip_tags (n : nat) :
  forall s, String.length s < n ->
            no_tag (replace_from n tag_re (fun _ => EmptyString) s) = true.
Proof.
  induction n as [|n IH]; intros s Hlen; [lia|]. cbn [replace_from].
  destruct (search tag_re s) as [[pre m]|] eqn:Hsearch; [|apply search_tag_none, Hsearch].
  destruct (search_tag_some _ _ _ Hsearch) as (Hpre & _ & Hrest).
  apply search_exec in Hsearch as (s0 & _ & He).
  apply (exec_here_sound (fun _ => true)) in He as (_ & _ & Hne & _);
    [|apply accepts_anything].
  destruct (m0 m) as [|b w]; [exfalso; apply Hne; reflexivity|].
  rewrite sapp_nil_l. apply no_tag_after_text; [exact Hpre|]. apply IH. lia.
Qed.

Lemma trimStart_fixed (s : string) : starts_with_text s = true -> Js.trimStart s = s.
Proof.
  destruct s as [|a s]; [reflexivity|]. cbn. intros Ha.
  apply negb_true_iff in Ha. rewrite Ha. reflexivity.
Qed.

Lemma trimEnd_fixed (s : string) : ends_with_text s = true -> Js.trimEnd s = s.
Proof.
  induction s as [|a s IH]; [reflexivity|]. cbn [Js.trimEnd ends_with_text].
  destruct s as [|b s].
  - intros Ha. apply negb_true_iff in Ha. cbn. rewrite Ha. reflexivity.
  - intros Hs. rewrite (IH Hs). reflexivity.
Qed.

Lemma clean_text_shape (fragment : string) :
  no_tag (clean_text fragment) = true /\
  starts_with_text (clean_text fragment) = true /\
  ends_with_text (clean_text fragment) = true.
Proof.
  unfold clean_text. split; [|apply PageFacts.trim_ends].
  apply no_tag_trim, strip_tags. lia.
Qed.

Lemma clean_text_fixed (fragment : string) :
  clean_text (clean_text fragment) = clean_text fragment.
Proof.
  destruct (clean_text_shape fragment) as (Htag & Hstart & Hend).
  unfold clean_text at 1.
  rewrite (ShapeFacts.replaceAll_no_match _ _ _ (no_tag_search _ Htag)).
  unfold Js.trim. rewrite (trimStart_fixed _ Hstart). apply trimEnd_fixed, Hend.
Qed.

Lemma extractCodeFromText_no_tag (html code : string) :
  extractCodeFromText html = Some code -> no_tag code = true.
Proof.
  unfold extractCodeFromText.
  destruct (js_match code_re html) as [m|].
  - destruct (5 <? _); [|discriminate]. intros [= <-]. apply clean_text_shape.
  - destruct (js_match pre_re html) as [m|]; [|discriminate].
    destruct (5 <? _); [|discriminate]. intros [= <-]. apply clean_text_shape.
Qed.

(** The texts of a step hold no tag. *)
Lemma steps_no_tag (html : string) :
  List.Forall (fun st => no_tag (step_title st) = true /\
                         no_tag (step_description st) = true /\
                         forall code, codeExample st = Some code -> no_tag code = true)
              (extractTroubleshootingSteps html).
Proof.
  unfold extractTroubleshootingSteps, heading_pass.
  assert (Hlist : List.Forall (fun st => no_tag (step_title st) = true /\
                                         no_tag (step_description st) = true /\
                                         forall code, codeExample st = Some code ->
                                                      no_tag code = true)
                              (list_pass html [])).
  { rewrite StepFacts.list_pass_blocks. apply List.Forall_flat_map.
    apply List.Forall_forall. intros listContent _. unfold block_steps.
    generalize 1. induction (List.filter item_kept (list_items listContent)) as [|item items IH];
      intros n; cbn [number_from]; constructor; [|apply IH].
    unfold item_step. cbn.
    split; [apply no_tag_ellipsis, clean_text_shape|].
    split; [apply clean_text_shape|apply extractCodeFromText_no_tag]. }
  revert Hlist. generalize (list_pass html []).
  induction (matchAll procedure_re html) as [|m ms IH]; intros steps Hsteps; cbn [fold_left].
  - exact Hsteps.
  - apply IH. unfold procedure_step.
    destruct (20 <? String.length (clean_text (group_text m 1))); [|exact Hsteps].
    apply List.Forall_app. split; [exact Hsteps|]. constructor; [|constructor].
    cbn. split; [reflexivity|].
    split; [apply no_tag_ellipsis, clean_text_shape|apply extractCodeFromText_no_tag].
Qed.

Lemma examples_no_tag (html : string) :
  List.Forall (fun example => no_tag (code example) = true) (extractCodeExamples html).
Proof.
  rewrite ExampleFacts.extractCodeExamples_eq. apply List.Forall_app. split.
  - apply List.Forall_map, List.Forall_forall. intros c Hc. cbn.
    apply filter_In in Hc as [Hc _]. unfold pre_blocks in Hc.
    apply in_map_iff in Hc as (m & <- & _). apply clean_text_shape.
  - apply List.Forall_map, List.Forall_forall. intros c Hc. cbn.
    apply filter_In in Hc as [Hc _]. unfold code_elements in Hc.
    apply in_map_iff in Hc as (x & <- & _). apply clean_text_shape.
Qed.
End TagFacts.

(** X29. Stripping the tags of a fragment and trimming it, as the extractors
    do, leaves a text that holds no tag (no [<] followed at any distance by
    a [>]) and no white space at either end; doing it again changes
    nothing. *)
Theorem X29_clean_text_holds_no_tag :
  forall fragment : string,
    Shape.no_tag (Utils.clean_text fragment) = true /\
    Shape.starts_with_text (Utils.clean_text fragment) = true /\
    Shape.ends_with_text (Utils.clean_text fragment) = true /\
    Utils.clean_text (Utils.clean_text fragment) = Utils.clean_text fragment.
Proof.
  intros fragment. destruct (TagFacts.clean_text_shape fragment) as (Htag & Hstart & Hend).
  split; [exact Htag|]. split; [exact Hstart|]. split; [exact Hend|].
  apply TagFacts.clean_text_fixed.
Qed.

(** X30. No text that the extractors return holds a tag: neither the title,
    the description or the code example of a troubleshooting step, nor the
    code of a code example. *)
Theorem X30_extracted_texts_hold_no_tag :
  forall html : string,
    (forall st, In st (Utils.extractTroubleshootingSteps html) ->
                Shape.no_tag (step_title st) = true /\
                Shape.no_tag (step_description st) = true /\
                forall code, codeExample st = Some code -> Shape.no_tag code = true) /\
    (forall example, In example (Utils.extractCodeExamples html) ->
                     Shape.no_tag (code example) = true).
Proof.
  intros html. split.
  - apply List.Forall_forall, TagFacts.steps_no_tag.
  - apply List.Forall_forall, TagFacts.examples_no_tag.
Qed.

(** A list item with nested markup. *)
Lemma X30_sample :
  Shape.no_tag "Open the IAM console" = true.
Proof.
  destruct (X30_extracted_texts_hold_no_tag
              "<ol><li>Open the <b>IAM</b> <a href=x>console</a></li></ol>") as [Hsteps _].
  destruct (Hsteps (mkStep 1 "Open the IAM console" "Open the IAM console" None (Some [])))
    as (Htitle & _).
  - vm_compute. left. reflexivity.
  - exact Htitle.
Defined.
